(** * XR signaling hub: a shallow embedding of the server handlers
      (backend server.js) and of the browser SignalingClient
      (public/js/signaling.js).

    The development follows the source file by file:
    - [Client]   : SignalingClient._send / _onConnect and the bounded outbox;
    - [Metrics]  : pushHist and the 24 h metric window;
    - [Hub]      : the Socket.IO connection handlers (join, identify, pair_with,
                   signal, message, telemetry, disconnecting, disconnect),
                   the pairing helpers and safeFetchSockets.

    JavaScript [Map]s that the code only reads and writes by key are finite
    maps ([gmap]); the adapter's room table and every [Set], which the code
    iterates, are insertion-ordered association lists and lists. *)

From Stdlib Require Import ZArith Ascii String List Sorted Lia.
From stdpp Require Import base option list sorting gmap strings.

Local Open Scope Z_scope.

(** The last [n] elements of a list: what a drop-oldest buffer of capacity
    [n] holds, and what [arr.slice(-n)] returns. *)
Definition lastn {A} (n : nat) (l : list A) : list A := drop (length l - n) l.

(* ===================================================================== *)
(** ** Client side: SignalingClient (signaling.js)                        *)
(* ===================================================================== *)

Module Client.

Section Outbox.

(** Application payloads are opaque to the queue. *)
Variable Payload : Type.

(** One queued emit: [{event, data}]. *)
Record Item := mkItem { event : string; data : Payload }.

(** What reaches the transport through [socket.emit]. *)
Inductive Emitted :=
| EmitJoin (xrId : string)
| EmitIdentify (deviceName xrId : string)
| EmitRequestDeviceList
| EmitApp (it : Item).

(** The fields of the class that [_send] and [_onConnect] read or write;
    [wire] is the history of [socket.emit] calls, kept as ghost state. *)
Record SignalingClient := mkClient {
  deviceName : string;
  xrId : string;
  socket : bool;              (* this.socket !== null *)
  isConnected : bool;
  _manualClose : bool;
  _outbox : list Item;
  wire : list Emitted
}.

Definition _OUTBOX_MAX : nat := 200.

Definition set_outbox (c : SignalingClient) (o : list Item) : SignalingClient :=
  mkClient (deviceName c) (xrId c) (socket c) (isConnected c) (_manualClose c) o (wire c).

Definition emit (c : SignalingClient) (es : list Emitted) : SignalingClient :=
  mkClient (deviceName c) (xrId c) (socket c) (isConnected c) (_manualClose c)
           (_outbox c) (wire c ++ es).

(** The else-branch of [_send]: push below the cap, otherwise shift then push. *)
Definition enqueue (o : list Item) (it : Item) : list Item :=
  if (length o <? _OUTBOX_MAX)%nat then o ++ [it] else tail o ++ [it].

(** [_send(event, data)]. *)
Definition _send (c : SignalingClient) (it : Item) : SignalingClient :=
  if socket c && isConnected c then emit c [EmitApp it]
  else set_outbox c (enqueue (_outbox c) it).

(** [connect()]: creates the socket unless one exists, clears the manual flag. *)
Definition connect (c : SignalingClient) : SignalingClient :=
  if socket c then c
  else mkClient (deviceName c) (xrId c) true (isConnected c) false (_outbox c) (wire c).

(** [_onConnect()]: mark connected, re-announce, flush the outbox in order,
    empty it. *)
Definition _onConnect (c : SignalingClient) : SignalingClient :=
  let announced :=
    [EmitJoin (xrId c); EmitIdentify (deviceName c) (xrId c); EmitRequestDeviceList] in
  mkClient (deviceName c) (xrId c) (socket c) true (_manualClose c) []
           (wire c ++ announced ++ map EmitApp (_outbox c)).

(** [_onDisconnect(reason)] and [_onConnectError(err)]. *)
Definition _onDisconnect (c : SignalingClient) : SignalingClient :=
  mkClient (deviceName c) (xrId c) (socket c) false (_manualClose c) (_outbox c) (wire c).

(** A burst of sends, oldest first. *)
Definition sendAll (c : SignalingClient) (its : list Item) : SignalingClient :=
  foldl _send c its.

End Outbox.

Arguments mkItem {Payload}.
Arguments event {Payload}.
Arguments data {Payload}.
Arguments EmitJoin {Payload}.
Arguments EmitIdentify {Payload}.
Arguments EmitRequestDeviceList {Payload}.
Arguments EmitApp {Payload}.
Arguments mkClient {Payload}.
Arguments socket {Payload}.
Arguments isConnected {Payload}.
Arguments _outbox {Payload}.
Arguments wire {Payload}.
Arguments deviceName {Payload}.
Arguments xrId {Payload}.
Arguments enqueue {Payload}.
Arguments _send {Payload}.
Arguments connect {Payload}.
Arguments _onConnect {Payload}.
Arguments _onDisconnect {Payload}.
Arguments sendAll {Payload}.

End Client.

(* ===================================================================== *)
(** ** JavaScript containers and values used by the server                *)
(* ===================================================================== *)

Module Js.

(** [!!s] for a value that is either undefined or a string. *)
Definition truthy (s : option string) : bool :=
  match s with
  | Some s => negb (String.eqb s "")
  | None => false
  end.

(** [a || b] on such values. *)
Definition or_else (a : option string) (b : string) : string :=
  match a with
  | Some s => if String.eqb s "" then b else s
  | None => b
  end.

(** Insertion-ordered [Set] of strings. *)
Definition set_add (x : string) (l : list string) : list string :=
  if bool_decide (x ∈ l) then l else l ++ [x].

Definition set_delete (x : string) (l : list string) : list string :=
  filter (λ y, y ≠ x) l.

(** Insertion-ordered [Map] with string keys. *)
Fixpoint map_get {V} (k : string) (m : list (string * V)) : option V :=
  match m with
  | [] => None
  | (k', v) :: r => if String.eqb k k' then Some v else map_get k r
  end.

Fixpoint map_set {V} (k : string) (v : V) (m : list (string * V)) : list (string * V) :=
  match m with
  | [] => [(k, v)]
  | (k', v') :: r => if String.eqb k k' then (k', v) :: r else (k', v') :: map_set k v r
  end.

Definition map_delete {V} (k : string) (m : list (string * V)) : list (string * V) :=
  filter (λ kv, kv.1 ≠ k) m.

(** Payload values that the handlers coerce with [Number(v)]. Numbers are
    carried as integers; strings that would parse as numbers are outside
    the model. *)
Inductive Val := Undefined | Null | Num (n : Z) | NaN.

(** [numOrNull(v)]: [Number(null)] is 0, [Number(undefined)] is NaN. *)
Definition numOrNull (v : Val) : option Z :=
  match v with
  | Num n => Some n
  | Null => Some 0
  | Undefined | NaN => None
  end.

(** ASCII [toLowerCase] and [includes]. *)
Definition lower_ascii (c : Ascii.ascii) : Ascii.ascii :=
  let n := Ascii.nat_of_ascii c in
  if ((65 <=? n) && (n <=? 90))%nat then Ascii.ascii_of_nat (n + 32) else c.

Fixpoint toLowerCase (s : string) : string :=
  match s with
  | EmptyString => EmptyString
  | String c r => String (lower_ascii c) (toLowerCase r)
  end.

Fixpoint includes (needle hay : string) : bool :=
  String.prefix needle hay ||
  match hay with
  | EmptyString => false
  | String _ r => includes needle r
  end.

End Js.

(* ===================================================================== *)
(** ** Metrics history: pushHist and the 24 h window                      *)
(* ===================================================================== *)

Module Metrics.

Definition METRIC_WINDOW_MS : Z := 24 * 60 * 60 * 1000.

Section PushHist.
Context {A : Type}.
(** The [ts] field of a sample; a client-supplied sample may lack it. *)
Variable ts_of : A → option Z.

(** [arr[0].ts < cutoff]; a comparison with undefined is false. *)
Definition expired (cutoff : Z) (a : A) : bool :=
  match ts_of a with
  | Some t => t <? cutoff
  | None => false
  end.

(** [while (arr.length && arr[0].ts < cutoff) arr.shift()]. *)
Fixpoint evict (cutoff : Z) (arr : list A) : list A :=
  match arr with
  | [] => []
  | a :: r => if expired cutoff a then evict cutoff r else arr
  end.

(** [pushHist(map, xrId, sample)] with [now] the value of [Date.now()]. *)
Definition pushHist (map : gmap string (list A)) (xrId : string) (sample : A)
    (now : Z) : gmap string (list A) :=
  let arr := default [] (map !! xrId) ++ [sample] in
  <[xrId := evict (now - METRIC_WINDOW_MS) arr]> map.

(** The series of one identity ([map.get(xrId) || []]). *)
Definition series (map : gmap string (list A)) (xrId : string) : list A :=
  default [] (map !! xrId).
End PushHist.

End Metrics.

(* ===================================================================== *)
(** ** The signaling hub (server.js)                                       *)
(* ===================================================================== *)

Module Hub.
Import Js.

(** *** Data carried by sockets and payloads *)

(** [socket.data]: every field is undefined until a handler sets it. *)
Record SocketData := mkData {
  d_xrId : option string;
  d_deviceName : option string;
  d_connectedAt : option Z;
  d_roomId : option string
}.

Definition noData : SocketData := mkData None None None None.

(** A socket of this process: its id and its data. [socket.rooms] is read
    from the adapter, as Socket.IO does. *)
Record Socket := mkSocket {
  s_id : string;
  s_data : SocketData
}.

(** What [fetchSockets] exposes of a socket, local or remote. *)
Record SocketSnap := mkSnap { snap_id : string; snap_data : SocketData }.

Definition snap_of (s : Socket) : SocketSnap := mkSnap (s_id s) (s_data s).

Record BatteryRec := mkBattery { b_pct : Val; b_charging : bool; b_ts : Z }.

(** The numeric fields of a telemetry payload, before ([Val]) and after
    ([option Z]) [numOrNull]. *)
Record NetFields (T : Type) := mkNet {
  wifiDbm : T; wifiMbps : T; wifiBars : T; cellDbm : T; cellBars : T;
  netDownMbps : T; netUpMbps : T;
  cpuPct : T; memUsedMb : T; memTotalMb : T; deviceTempC : T
}.
Arguments mkNet {T}.
Arguments wifiDbm {T}. Arguments wifiMbps {T}. Arguments wifiBars {T}.
Arguments cellDbm {T}. Arguments cellBars {T}.
Arguments netDownMbps {T}. Arguments netUpMbps {T}.
Arguments cpuPct {T}. Arguments memUsedMb {T}. Arguments memTotalMb {T}.
Arguments deviceTempC {T}.

Definition net_map {T U} (f : T → U) (n : NetFields T) : NetFields U :=
  mkNet (f (wifiDbm n)) (f (wifiMbps n)) (f (wifiBars n)) (f (cellDbm n))
        (f (cellBars n)) (f (netDownMbps n)) (f (netUpMbps n)) (f (cpuPct n))
        (f (memUsedMb n)) (f (memTotalMb n)) (f (deviceTempC n)).

Record TelemetryPayload := mkTelemetryPayload {
  tp_xrId : option string;
  tp_connType : option string;
  tp_net : NetFields Val
}.

(** [rec] of the telemetry handlers (latest snapshot per device). *)
Record TelemetryRec := mkTelemetryRec {
  tr_xrId : string;
  tr_connType : string;
  tr_net : NetFields (option Z);
  tr_ts : Z
}.

(** One entry of [telemetryHist]. *)
Record TelemetrySample := mkTelemetrySample {
  th_ts : Z;
  th_connType : string;
  th_wifiMbps : option Z;
  th_netDownMbps : option Z;
  th_netUpMbps : option Z;
  th_batteryPct : Val;
  th_cpuPct : option Z;
  th_memUsedMb : option Z;
  th_memTotalMb : option Z;
  th_deviceTempC : option Z
}.

(** A quality sample as the client sends it, and as [qualityHist] keeps it. *)
Record QualityIn := mkQualityIn {
  qi_ts : option Z;
  qi_jitterMs : Val; qi_rttMs : Val; qi_lossPct : Val; qi_bitrateKbps : Val
}.

Record QualitySample := mkQualitySample {
  qh_ts : option Z;
  qh_jitterMs : option Z; qh_rttMs : option Z; qh_lossPct : option Z;
  qh_bitrateKbps : option Z
}.

(** Payload of the [webrtc_quality] event and the snapshot kept per device. *)
Record QualityPayload := mkQualityPayload {
  qp_xrId : option string;
  qp_ts : option Z;
  qp_sample : QualityIn;
  qp_fps : Val; qp_dropped : Val; qp_nackCount : Val
}.

Record QualitySnap := mkQualitySnap {
  qs_xrId : string;
  qs_hist : QualitySample;
  qs_fps : option Z; qs_dropped : option Z; qs_nackCount : option Z
}.

(** Chat: the timestamp is the client's string or an ISO rendering of a
    server clock reading. *)
Inductive Stamp := ClientStamp (s : string) | ServerStamp (t : Z).

Record Message := mkMessage {
  m_type : string;
  m_from : option string;
  m_to : option string;
  m_text : option string;
  m_urgent : bool;
  m_sender : string;
  m_xrId : option string;
  m_timestamp : Stamp;
  m_id : option Z
}.

Record ChatPayload := mkChat {
  c_type : option string;
  c_from : option string;
  c_to : option string;
  c_text : option string;
  c_urgent : bool;
  c_final : bool;
  c_timestamp : option string
}.

(** A [signal] envelope after parsing. [sg_samples] is [None] when
    [msg.samples] is not an array. *)
Record SignalMsg := mkSignal {
  sg_type : option string;
  sg_from : option string;
  sg_to : option string;
  sg_data : option string;
  sg_deviceId : option string;
  sg_samples : option (list QualityIn)
}.

(** An event argument that is an object or a JSON string: it parses to a
    value or the handler's try/catch fires. *)
Inductive Parsed (A : Type) := Unparseable | Object (a : A).
Arguments Unparseable {A}.
Arguments Object {A}.

Record ControlPayload := mkControl {
  cp_command : option string;
  cp_action : option string;
  cp_from : option string;
  cp_to : option string;
  cp_message : option string
}.

Record HolderInfo := mkHolderInfo {
  hi_xrId : string;
  hi_deviceName : string;
  hi_since : option Z;
  hi_socketId : string
}.

Record DeviceEntry := mkDevice {
  de_xrId : string;
  de_deviceName : string;
  de_battery : option BatteryRec;    (* source of battery, charging, batteryTs *)
  de_telemetry : option TelemetryRec
}.

(** *** What a handler does to the outside world *)

Inductive Target :=
| ToSocket (sid : string)              (* socket.emit *)
| ToRoom (room : string)               (* io.to(room).emit *)
| ToRoomExcept (room sid : string)     (* socket.to(room).emit *)
| ToAll                                (* io.emit *)
| ToAllExcept (sid : string).          (* socket.broadcast.emit *)

Inductive SignalData :=
| DataRaw (d : option string)
| DataTranscript (from to text : option string) (final : bool) (timestamp : Stamp).

(** One constructor per event name and payload shape: [metrics_update] is
    emitted with raw quality samples, with the latest stored quality entry
    or with the latest telemetry entry, and [webrtc_quality_update] with one
    device's samples or with every device's latest snapshot. *)
Inductive Event :=
| message_history (messages : list Message)
| device_list (l : list DeviceEntry)
| room_update (pairs : list (string * string))
| error (msg : string)
| duplicate_id (xrId : string) (holderInfo : HolderInfo)
| metrics_snapshot (xrId : string) (telemetry : list TelemetrySample)
    (quality : list QualitySample)
| pair_error (msg : string)
| room_joined (roomId : string) (members : list string)
| metrics_update_quality_raw (xrId : string) (quality : list QualityIn)
| metrics_update_quality (xrId : string) (latest : option QualitySample)
| metrics_update_telemetry (xrId : string) (latest : option TelemetrySample)
| webrtc_quality_update_for (deviceId : string) (samples : list QualityIn)
| webrtc_quality_update (all : list QualitySnap)
| signal (type : option string) (from : option string) (data : SignalData)
| signal_error                       (* "No room joined and no to specified" *)
| control (command : string) (from : option string) (msg : option string)
| message (m : Message)
| battery_update (xrId : string) (rec : BatteryRec)
| telemetry_update (rec : TelemetryRec)
| peer_left (xrId roomId : string).

Inductive Task :=
| TaskBroadcastDeviceList          (* setTimeout(..., 1200) after a rejection *)
| TaskBroadcastPairs               (* setTimeout(..., 0) after a disconnect *)
| TaskSoapNote (text : string).    (* external note generation *)

(** The trace of a handler: emits, the adapter's leave-room notifications,
    the closing of a connection and deferred work. *)
Inductive Output :=
| Emit (t : Target) (e : Event)
| LeaveRoom (room sid : string)
| Closed (sid : string)
| Defer (ms : Z) (task : Task).

(** *** Server state: the module-level maps and Socket.IO's in-memory adapter *)

(** The room that Socket.IO names after each socket's own id is left out of
    the adapter tables: no handler reads it. *)
Record ServerState := mkState {
  sockets : list Socket;                         (* io.sockets.sockets, connection order *)
  adapterRooms : list (string * list string);    (* adapter.rooms : room -> socket ids *)
  adapterSids : list (string * list string);     (* adapter.sids : socket id -> rooms *)
  clients : gmap string string;                  (* xrId -> socket *)
  onlineDevices : gmap string string;
  desktopClients : gmap string string;
  batteryByDevice : gmap string BatteryRec;
  telemetryByDevice : gmap string TelemetryRec;
  qualityByDevice : list (string * QualitySnap);
  telemetryHist : gmap string (list TelemetrySample);
  qualityHist : gmap string (list QualitySample);
  messageHistory : list Message
}.

Definition initial : ServerState :=
  mkState [] [] [] ∅ ∅ ∅ ∅ ∅ [] ∅ ∅ [].

Definition set_sockets (v : list Socket) (st : ServerState) : ServerState :=
  mkState v (adapterRooms st) (adapterSids st) (clients st) (onlineDevices st)
    (desktopClients st) (batteryByDevice st) (telemetryByDevice st)
    (qualityByDevice st) (telemetryHist st) (qualityHist st) (messageHistory st).

Definition set_adapter (rooms sids : list (string * list string)) (st : ServerState)
    : ServerState :=
  mkState (sockets st) rooms sids (clients st) (onlineDevices st)
    (desktopClients st) (batteryByDevice st) (telemetryByDevice st)
    (qualityByDevice st) (telemetryHist st) (qualityHist st) (messageHistory st).

Definition set_registry (c o d : gmap string string) (st : ServerState) : ServerState :=
  mkState (sockets st) (adapterRooms st) (adapterSids st) c o d
    (batteryByDevice st) (telemetryByDevice st)
    (qualityByDevice st) (telemetryHist st) (qualityHist st) (messageHistory st).

Definition set_battery (v : gmap string BatteryRec) (st : ServerState) : ServerState :=
  mkState (sockets st) (adapterRooms st) (adapterSids st) (clients st) (onlineDevices st)
    (desktopClients st) v (telemetryByDevice st)
    (qualityByDevice st) (telemetryHist st) (qualityHist st) (messageHistory st).

Definition set_telemetry (latest : gmap string TelemetryRec)
    (hist : gmap string (list TelemetrySample)) (st : ServerState) : ServerState :=
  mkState (sockets st) (adapterRooms st) (adapterSids st) (clients st) (onlineDevices st)
    (desktopClients st) (batteryByDevice st) latest
    (qualityByDevice st) hist (qualityHist st) (messageHistory st).

Definition set_quality (latest : list (string * QualitySnap))
    (hist : gmap string (list QualitySample)) (st : ServerState) : ServerState :=
  mkState (sockets st) (adapterRooms st) (adapterSids st) (clients st) (onlineDevices st)
    (desktopClients st) (batteryByDevice st) (telemetryByDevice st)
    latest (telemetryHist st) hist (messageHistory st).

Definition set_messageHistory (v : list Message) (st : ServerState) : ServerState :=
  mkState (sockets st) (adapterRooms st) (adapterSids st) (clients st) (onlineDevices st)
    (desktopClients st) (batteryByDevice st) (telemetryByDevice st)
    (qualityByDevice st) (telemetryHist st) (qualityHist st) v.

(** [io.sockets.sockets.get(sid)]. *)
Definition get_socket (st : ServerState) (sid : string) : option Socket :=
  List.find (λ s, String.eqb (s_id s) sid) (sockets st).

(** The socket is open: it is in [io.sockets.sockets]. *)
Definition connected (st : ServerState) (sid : string) : bool :=
  bool_decide (is_Some (get_socket st sid)).

(** Assignment to a field of [socket.data]. *)
Definition update_data (sid : string) (f : SocketData → SocketData) (st : ServerState)
    : ServerState :=
  set_sockets
    (map (λ s, if String.eqb (s_id s) sid then mkSocket (s_id s) (f (s_data s)) else s)
         (sockets st)) st.

Definition data_of (st : ServerState) (sid : string) : SocketData :=
  match get_socket st sid with
  | Some s => s_data s
  | None => noData
  end.

(** [socket.rooms]. *)
Definition rooms_of (st : ServerState) (sid : string) : list string :=
  default [] (map_get sid (adapterSids st)).

(** [adapter.rooms.get(room)] as a list, empty when the room does not exist. *)
Definition room_members (st : ServerState) (room : string) : list string :=
  default [] (map_get room (adapterRooms st)).

(** [socket.join(room)]: the adapter's [addAll] for one room while the
    socket is open. When a socket closes, Socket.IO replaces its [join] by a
    no-op, so a join on a socket object kept after its close (as [clients]
    can keep one) changes nothing. *)
Definition socket_join (sid room : string) (st : ServerState) : ServerState :=
  let open := connected st sid in
  set_adapter
    (if open then map_set room (set_add sid (room_members st room)) (adapterRooms st)
     else adapterRooms st)
    (if open then map_set sid (set_add room (rooms_of st sid)) (adapterSids st)
     else adapterSids st)
    st.

(** The adapter's [_del(room, id)]: drop the member, then the room if it
    became empty. *)
Definition adapter_del (room sid : string) (rooms : list (string * list string))
    : list (string * list string) :=
  match map_get room rooms with
  | None => rooms
  | Some members =>
      let members' := set_delete sid members in
      match members' with
      | [] => map_delete room rooms
      | _ => map_set room members' rooms
      end
  end.

(** [socket.leave(room)]. *)
Definition socket_leave (sid room : string) (st : ServerState) : ServerState :=
  set_adapter
    (adapter_del room sid (adapterRooms st))
    (match map_get sid (adapterSids st) with
     | Some rs => map_set sid (set_delete room rs) (adapterSids st)
     | None => adapterSids st
     end)
    st.

(** The adapter's [delAll(id)], run when a socket closes: leave every room
    of the socket, notifying "leave-room" for each actual removal. *)
Definition leave_notifications (st : ServerState) (sid : string) : list Output :=
  map (λ r, LeaveRoom r sid)
      (filter (λ r, sid ∈ room_members st r) (rooms_of st sid)).

Definition leaveAll (sid : string) (st : ServerState) : ServerState :=
  set_adapter
    (foldl (λ rooms r, adapter_del r sid rooms) (adapterRooms st) (rooms_of st sid))
    (map_delete sid (adapterSids st))
    st.

(** The local sockets an emit reaches. *)
Definition deliver (st : ServerState) (t : Target) : list string :=
  match t with
  | ToSocket sid => if connected st sid then [sid] else []
  | ToRoom r => filter (λ x, connected st x = true) (room_members st r)
  | ToRoomExcept r sid =>
      filter (λ x, connected st x = true ∧ x ≠ sid) (room_members st r)
  | ToAll => map s_id (sockets st)
  | ToAllExcept sid => filter (λ x, x ≠ sid) (map s_id (sockets st))
  end.

(** *** The environment of one handler run *)

(** How [nsp.fetchSockets()] settles: fulfilled with the cluster's sockets
    after some milliseconds, rejected, or never. *)
Inductive GlobalFetch :=
| Resolves (after_ms : Z) (globalSockets : list SocketSnap)
| Rejects (after_ms : Z)
| NeverSettles.

Record FetchEnv := mkFetch { supportsGlobal : bool; outcome : GlobalFetch }.

(** The k-th [safeFetchSockets] call and the k-th clock reading
    ([Date.now()], [new Date()]) of a handler run. *)
Record Oracle := mkOracle { fetch : nat → FetchEnv; clock : nat → Z }.

Definition GUARD_MS : Z := 750.

(** [Promise.race([nsp.fetchSockets(), guard])]: the fetched sockets when
    the fetch is fulfilled before the guard fires, otherwise the race
    rejects (and the caller's catch runs). *)
Definition race (g : GlobalFetch) : option (list SocketSnap) :=
  match g with
  | Resolves t l => if t <? GUARD_MS then Some l else None
  | Rejects _ => None
  | NeverSettles => None
  end.

Definition local_sockets (st : ServerState) : list SocketSnap :=
  map snap_of (sockets st).

(** Merge by socket id, local first: [new Map(local...)] then
    [byId.set(s.id, s)] for each fetched socket. *)
Definition merge_by_id (local globalSockets : list SocketSnap) : list SocketSnap :=
  map snd (foldl (λ byId s, map_set (snap_id s) s byId) [] (local ++ globalSockets)).

Definition safeFetchSockets (st : ServerState) (env : FetchEnv) : list SocketSnap :=
  let local := local_sockets st in
  if negb (supportsGlobal env) then local
  else match race (outcome env) with
       | Some globalSockets => merge_by_id local globalSockets
       | None => local
       end.

Definition device_entry (st : ServerState) (id : string) (s : SocketSnap) : DeviceEntry :=
  mkDevice id (or_else (d_deviceName (snap_data s)) "Unknown")
           (batteryByDevice st !! id) (telemetryByDevice st !! id).

Definition buildDeviceListGlobal (st : ServerState) (env : FetchEnv) : list DeviceEntry :=
  map snd
    (foldl (λ byId s,
              if truthy (d_xrId (snap_data s))
              then let id := or_else (d_xrId (snap_data s)) "" in
                   map_set id (device_entry st id s) byId
              else byId)
           [] (safeFetchSockets st env)).

Definition broadcastDeviceList (st : ServerState) (env : FetchEnv) : list Output :=
  [Emit ToAll (device_list (buildDeviceListGlobal st env))].

Definition broadcastEmptyDeviceListOnce : list Output :=
  [Emit ToAll (device_list [])].

(** *** Pairing helpers *)

(** [[a, b].sort()]. *)
Definition sort2 (a b : string) : string * string :=
  if String.ltb b a then (b, a) else (a, b).

Definition normalizePair (a b : string) : string :=
  let '(one, two) := sort2 a b in (one +:+ "|" +:+ two)%string.

Definition allowedPairs : list string := [normalizePair "XR-1234" "XR-1238"].

Definition PAIRINGS_MAP : list (string * string) :=
  [("XR-1234", "XR-1238"); ("XR-1238", "XR-1234")]%string.

Definition isPairAllowed (a b : string) : bool :=
  bool_decide (normalizePair a b ∈ allowedPairs).

Definition getRoomIdForPair (a b : string) : string :=
  let '(one, two) := sort2 a b in ("pair:" +:+ one +:+ ":" +:+ two)%string.

Definition roomOf (xrId : string) : string := ("xr:" +:+ xrId)%string.

Definition metricsRoom (xrId : string) : string := ("metrics:" +:+ xrId)%string.

Definition listRoomMembers (st : ServerState) (roomId : string) : list string :=
  map (λ sid, match get_socket st sid with
              | Some s => or_else (d_xrId (s_data s)) sid
              | None => sid
              end)
      (room_members st roomId).

(** [key.split('|')]. *)
Fixpoint split (sep : Ascii.ascii) (s : string) : list string :=
  match s with
  | EmptyString => [EmptyString]
  | String c r =>
      if Ascii.eqb c sep then EmptyString :: split sep r
      else match split sep r with
           | [] => [String c EmptyString]
           | h :: t => String c h :: t
           end
  end.

Definition collectPairs (st : ServerState) : list (string * string) :=
  flat_map
    (λ '(roomId, _),
       if String.prefix "pair:" roomId then
         match listRoomMembers st roomId with
         | m0 :: m1 :: _ =>
             let parts := split "|"%char (normalizePair m0 m1) in
             [(nth 0 parts ""%string, nth 1 parts ""%string)]
         | _ => []
         end
       else [])
    (adapterRooms st).

Definition broadcastPairs (st : ServerState) : list Output :=
  [Emit ToAll (room_update (collectPairs st))].

(** [tryAutoPair(deviceId)]: the new state, what was emitted, and the
    boolean the function returns. *)
Definition tryAutoPair (st : ServerState) (deviceId : string)
    : ServerState * list Output * bool :=
  match map_get deviceId PAIRINGS_MAP with
  | None => (st, [], false)
  | Some partnerId =>
      match clients st !! deviceId, clients st !! partnerId with
      | Some meSocket, Some partnerSocket =>
          if negb (isPairAllowed deviceId partnerId) then (st, [], false)
          else
            let roomId := getRoomIdForPair deviceId partnerId in
            let memberCount := length (room_members st roomId) in
            if (2 <=? memberCount)%nat then (st, [], false)
            else
              let st1 := socket_join meSocket roomId st in
              let st2 := socket_join partnerSocket roomId st1 in
              let st3 := update_data meSocket
                           (λ d, mkData (d_xrId d) (d_deviceName d) (d_connectedAt d)
                                        (Some roomId)) st2 in
              let st4 := update_data partnerSocket
                           (λ d, mkData (d_xrId d) (d_deviceName d) (d_connectedAt d)
                                        (Some roomId)) st3 in
              let members := listRoomMembers st4 roomId in
              (st4,
               Emit (ToRoom roomId) (room_joined roomId members) :: broadcastPairs st4,
               true)
      | _, _ => (st, [], false)
      end
  end.

(** *** Chat history *)

Definition MESSAGE_HISTORY_MAX : nat := 100.

(** [addToMessageHistory(message)]: push a copy stamped with the clock,
    then shift once if the buffer grew past 100. *)
Definition stamp_message (msg : Message) (id stamp : Z) : Message :=
  mkMessage (m_type msg) (m_from msg) (m_to msg) (m_text msg) (m_urgent msg)
            (m_sender msg) (m_xrId msg) (ServerStamp stamp) (Some id).

Definition addToMessageHistory (history : list Message) (msg : Message) (id stamp : Z)
    : list Message :=
  let pushed := history ++ [stamp_message msg id stamp] in
  if (MESSAGE_HISTORY_MAX <? length pushed)%nat then tail pushed else pushed.

(** [messageHistory.slice(-10)]. *)
Definition recent (history : list Message) : list Message :=
  drop (length history - 10) history.

(** *** Closing a connection
    Socket.IO closes a socket in this order: the "disconnecting" event, the
    adapter's [delAll] (with its leave-room notifications), removal from
    the namespace, the "disconnect" event. *)

(** [socket.on('disconnecting')]. *)
Definition on_disconnecting (st : ServerState) (sid : string) : list Output :=
  let xrId := d_xrId (data_of st sid) in
  if negb (truthy xrId) then []
  else
    flat_map (λ roomId,
                if String.prefix "pair:" roomId
                then [Emit (ToRoomExcept roomId sid) (peer_left (or_else xrId "") roomId)]
                else [])
             (rooms_of st sid).

(** The map cleanup at the head of [socket.on('disconnect')]; [d] is the
    data of the socket that closed. *)
Definition unregister (sid : string) (d : SocketData) (st : ServerState) : ServerState :=
  if truthy (d_xrId d) then
    let xrId := or_else (d_xrId d) "" in
    set_registry (delete xrId (clients st)) (delete xrId (onlineDevices st))
      (if bool_decide (desktopClients st !! xrId = Some sid)
       then delete xrId (desktopClients st) else desktopClients st)
      st
  else st.

(** [socket.on('disconnect')]. *)
Definition on_disconnect (st : ServerState) (sid : string) (d : SocketData) (env : FetchEnv)
    : ServerState * list Output :=
  let st1 := unregister sid d st in
  (st1, broadcastDeviceList st1 env ++ [Defer 0 TaskBroadcastPairs]).

Definition remove_socket (sid : string) (st : ServerState) : ServerState :=
  set_sockets (filter (λ s, s_id s ≠ sid) (sockets st)) st.

(** The whole closing sequence of socket [sid]. *)
Definition close (st : ServerState) (sid : string) (env : FetchEnv)
    : ServerState * list Output :=
  let d := data_of st sid in
  let notified := on_disconnecting st sid in
  let left := leave_notifications st sid in
  let st1 := remove_socket sid (leaveAll sid st) in
  let '(st2, out) := on_disconnect st1 sid d env in
  (st2, notified ++ left ++ [Closed sid] ++ out).

(** *** Handlers of [io.on('connection', socket => ...)] *)

(** The body run when a socket connects. *)
Definition on_connection (st : ServerState) (sid : string) (o : Oracle)
    : ServerState * list Output :=
  let st1 := set_sockets (sockets st ++ [mkSocket sid noData]) st in
  (st1,
   (match messageHistory st1 with
    | [] => []
    | _ => [Emit (ToSocket sid) (message_history (recent (messageHistory st1)))]
    end)
   ++ [Emit (ToSocket sid) (device_list (buildDeviceListGlobal st1 (fetch o 0%nat)));
       Emit (ToSocket sid) (room_update (collectPairs st1))]).

Definition set_xrId (x : string) (d : SocketData) : SocketData :=
  mkData (Some x) (d_deviceName d) (d_connectedAt d) (d_roomId d).

Definition set_roomId (r : string) (d : SocketData) : SocketData :=
  mkData (d_xrId d) (d_deviceName d) (d_connectedAt d) (Some r).

(** [socket.on('join', xrId => ...)]. *)
Definition on_join (st : ServerState) (sid : string) (xrId : string) (o : Oracle)
    : ServerState * list Output :=
  let st1 := update_data sid (set_xrId xrId) st in
  let st2 := socket_join sid (roomOf xrId) st1 in
  let st3 := set_registry (<[xrId := sid]> (clients st2))
                          (<[xrId := sid]> (onlineDevices st2))
                          (desktopClients st2) st2 in
  (st3,
   Emit (ToSocket sid) (device_list (buildDeviceListGlobal st3 (fetch o 0%nat)))
   :: broadcastDeviceList st3 (fetch o 1%nat)).

(** [all.find(s => s.id !== socket.id && s.data?.xrId === xrId)]. *)
Definition find_holder (all : list SocketSnap) (sid xrId : string) : option SocketSnap :=
  List.find (λ s, negb (String.eqb (snap_id s) sid)
                  && bool_decide (d_xrId (snap_data s) = Some xrId)) all.

Definition holder_info (xrId : string) (holder : SocketSnap) : HolderInfo :=
  mkHolderInfo xrId
    (or_else (d_deviceName (snap_data holder)) "Unknown")
    (match d_connectedAt (snap_data holder) with
     | Some 0 => None
     | since => since
     end)
    (snap_id holder).

Definition is_desktop (deviceName : option string) (xrId : string) : bool :=
  match deviceName with
  | Some n => includes "desktop" (toLowerCase n)
  | None => false
  end || String.eqb xrId "XR-1238".

(** The part of the identify handler after the duplicate guard. *)
Definition accept (st : ServerState) (sid : string) (deviceName : option string)
    (xrId : string) (o : Oracle) : ServerState * list Output :=
  let st1 := update_data sid
               (λ d, mkData (Some xrId) (Some (or_else deviceName "Unknown"))
                            (Some (clock o 0%nat)) (d_roomId d)) st in
  let st2 := socket_join sid (roomOf xrId) st1 in
  let st3 := set_registry (<[xrId := sid]> (clients st2))
                          (<[xrId := sid]> (onlineDevices st2))
                          (if is_desktop deviceName xrId
                           then <[xrId := sid]> (desktopClients st2)
                           else desktopClients st2) st2 in
  let lists :=
    Emit (ToSocket sid) (device_list (buildDeviceListGlobal st3 (fetch o 1%nat)))
    :: broadcastDeviceList st3 (fetch o 2%nat) in
  if truthy (d_roomId (data_of st3 sid)) then (st3, lists)
  else let '(st4, out, _) := tryAutoPair st3 xrId in (st4, lists ++ out).

(** The rejection branch of the duplicate guard. *)
Definition reject (st : ServerState) (sid xrId : string) (holder : SocketSnap) (o : Oracle)
    : ServerState * list Output :=
  let '(st1, closing) := close st sid (fetch o 1%nat) in
  (st1,
   broadcastEmptyDeviceListOnce
   ++ [Defer 1200 TaskBroadcastDeviceList;
       Emit (ToSocket sid) (duplicate_id xrId (holder_info xrId holder))]
   ++ closing).

(** [socket.on('identify', async ({deviceName, xrId}) => ...)]. An [xrId]
    that is not a string is [None]. *)
Definition on_identify (st : ServerState) (sid : string)
    (deviceName xrId : option string) (o : Oracle) : ServerState * list Output :=
  if negb (truthy xrId) then
    let '(st1, closing) := close st sid (fetch o 0%nat) in
    (st1, Emit (ToSocket sid) (error "Missing xrId") :: closing)
  else
    let x := or_else xrId "" in
    let all := safeFetchSockets st (fetch o 0%nat) in
    match find_holder all sid x with
    | Some holder => reject st sid x holder o
    | None => accept st sid deviceName x o
    end.

(** [socket.on('metrics_subscribe')] and [socket.on('metrics_unsubscribe')]. *)
Definition on_metrics_subscribe (st : ServerState) (sid : string) (xrId : option string)
    : ServerState * list Output :=
  if negb (truthy xrId) then (st, [])
  else
    let x := or_else xrId "" in
    (socket_join sid (metricsRoom x) st,
     [Emit (ToSocket sid)
           (metrics_snapshot x (Metrics.series (telemetryHist st) x)
                             (Metrics.series (qualityHist st) x))]).

Definition on_metrics_unsubscribe (st : ServerState) (sid : string) (xrId : option string)
    : ServerState * list Output :=
  if negb (truthy xrId) then (st, [])
  else (socket_leave sid (metricsRoom (or_else xrId "")) st, []).

(** [socket.on('request_device_list')]. *)
Definition on_request_device_list (st : ServerState) (sid : string) (o : Oracle)
    : ServerState * list Output :=
  (st, [Emit (ToSocket sid) (device_list (buildDeviceListGlobal st (fetch o 0%nat)))]).

(** [socket.on('pair_with', async ({peerId}) => ...)]. *)
Definition on_pair_with (st : ServerState) (sid : string) (peerId : option string)
    : ServerState * list Output :=
  let me := d_xrId (data_of st sid) in
  if negb (truthy me) || negb (truthy peerId) then
    (st, [Emit (ToSocket sid) (pair_error "Identify and provide peerId")])
  else
    let me := or_else me "" in
    let peerId := or_else peerId "" in
    if negb (isPairAllowed me peerId) then
      (st, [Emit (ToSocket sid) (pair_error "Pairing not allowed")])
    else
      let roomId := getRoomIdForPair me peerId in
      let st1 := socket_join sid roomId st in
      let st2 := update_data sid (set_roomId roomId) st1 in
      (st2,
       Emit (ToRoom roomId) (room_joined roomId (listRoomMembers st2 roomId))
       :: broadcastPairs st2).

Definition stored_quality (s : QualityIn) : QualitySample :=
  mkQualitySample (qi_ts s) (numOrNull (qi_jitterMs s)) (numOrNull (qi_rttMs s))
                  (numOrNull (qi_lossPct s)) (numOrNull (qi_bitrateKbps s)).

(** The loop [for (const s of samples) pushHist(qualityHist, deviceId, ...)];
    the k-th iteration reads the clock for the k-th time. *)
Fixpoint store_quality (hist : gmap string (list QualitySample)) (deviceId : string)
    (samples : list QualityIn) (o : Oracle) (k : nat) : gmap string (list QualitySample) :=
  match samples with
  | [] => hist
  | s :: rest =>
      store_quality (Metrics.pushHist qh_ts hist deviceId (stored_quality s) (clock o k))
                    deviceId rest o (S k)
  end.

(** The interception branch of the signal handler
    ([type === 'webrtc_quality_update']). *)
Definition intercept_quality (st : ServerState) (msg : SignalMsg) (o : Oracle)
    : ServerState * list Output :=
  let samples := default [] (sg_samples msg) in
  if truthy (sg_deviceId msg) && (0 <? length samples)%nat then
    let deviceId := or_else (sg_deviceId msg) "" in
    (set_quality (qualityByDevice st)
                 (store_quality (qualityHist st) deviceId samples o 0) st,
     [Emit (ToRoom (metricsRoom deviceId)) (metrics_update_quality_raw deviceId samples);
      Emit ToAll (webrtc_quality_update_for deviceId samples)])
  else (st, []).

(** The generic routing of the signal handler (offer / answer / ICE path). *)
Definition route_signal (st : ServerState) (sid : string) (msg : SignalMsg)
    : list Output :=
  let relayed := signal (sg_type msg) (sg_from msg) (DataRaw (sg_data msg)) in
  if truthy (sg_to msg) then [Emit (ToRoom (roomOf (or_else (sg_to msg) ""))) relayed]
  else
    let roomId := d_roomId (data_of st sid) in
    if negb (truthy roomId) then
      [Emit (ToSocket sid) signal_error]
    else [Emit (ToRoomExcept (or_else roomId "") sid) relayed].

(** [socket.on('signal', payload => ...)]. *)
Definition on_signal (st : ServerState) (sid : string) (payload : Parsed SignalMsg)
    (o : Oracle) : ServerState * list Output :=
  match payload with
  | Unparseable => (st, [])
  | Object msg =>
      if bool_decide (sg_type msg = Some "webrtc_quality_update"%string)
      then intercept_quality st msg o
      else (st, route_signal st sid msg)
  end.

(** [socket.on('control', raw => ...)]; an unparseable string has no fields. *)
Definition on_control (st : ServerState) (sid : string) (raw : Parsed ControlPayload)
    : ServerState * list Output :=
  let p := match raw with
           | Object p => p
           | Unparseable => mkControl None None None None None
           end in
  let cmd := or_else (match cp_command p with
                      | Some c => Some c
                      | None => cp_action p
                      end) "" in
  let payload := control cmd (cp_from p) (cp_message p) in
  if truthy (cp_to p) then (st, [Emit (ToRoom (roomOf (or_else (cp_to p) ""))) payload])
  else
    let roomId := d_roomId (data_of st sid) in
    if truthy roomId then (st, [Emit (ToRoom (or_else roomId "")) payload])
    else (st, [Emit ToAll payload]).

(** [socket.on('message', payload => ...)]. *)
Definition on_message (st : ServerState) (sid : string) (payload : Parsed ChatPayload)
    (o : Oracle) : ServerState * list Output :=
  match payload with
  | Unparseable => (st, [])
  | Object data =>
      let type := or_else (c_type data) "message" in
      let from := c_from data in
      let to := c_to data in
      let timestamp := if truthy (c_timestamp data)
                       then ClientStamp (or_else (c_timestamp data) "")
                       else ServerStamp (clock o 0%nat) in
      let roomId := d_roomId (data_of st sid) in
      if String.eqb type "transcript" then
        let out := DataTranscript from to (c_text data) (c_final data) timestamp in
        let relayed := signal (Some "transcript_console"%string) from out in
        (st,
         (if truthy to then [Emit (ToRoom (roomOf (or_else to ""))) relayed]
          else if truthy roomId then [Emit (ToRoom (or_else roomId "")) relayed]
          else [])
         ++ (if c_final data && truthy (c_text data)
             then [Defer 0 (TaskSoapNote (or_else (c_text data) ""))] else []))
      else
        let sender :=
          or_else (d_deviceName (data_of st sid)) (or_else from "unknown") in
        let msg := mkMessage "message" from to (c_text data) (c_urgent data) sender from
                             timestamp None in
        let st1 := set_messageHistory
                     (addToMessageHistory (messageHistory st) msg
                                          (clock o 1%nat) (clock o 2%nat)) st in
        (st1,
         [Emit (if truthy to then ToRoom (roomOf (or_else to ""))
                else if truthy roomId then ToRoom (or_else roomId "")
                else ToAllExcept sid)
               (message msg)])
  end.

(** [socket.on('message_history')]. *)
Definition on_message_history (st : ServerState) (sid : string)
    : ServerState * list Output :=
  (st, [Emit (ToSocket sid) (message_history (recent (messageHistory st)))]).

(** [xrId || socket.data?.xrId], as the battery, telemetry and quality
    handlers resolve the identity a sample belongs to. *)
Definition id_or_socket (st : ServerState) (sid : string) (xrId : option string)
    : option string :=
  if truthy xrId then xrId else d_xrId (data_of st sid).

(** [Math.max(0, Math.min(100, Number(batteryPct)))]. *)
Definition clamp_pct (v : Val) : Val :=
  match numOrNull v with
  | Some n => Num (Z.max 0 (Z.min 100 n))
  | None => NaN
  end.

(** [socket.on('battery', ({xrId, batteryPct, charging}) => ...)]. *)
Definition on_battery (st : ServerState) (sid : string) (xrId : option string)
    (batteryPct : Val) (charging : bool) (o : Oracle) : ServerState * list Output :=
  let id := id_or_socket st sid xrId in
  if negb (truthy id) then (st, [])
  else
    let id := or_else id "" in
    let rec := mkBattery (clamp_pct batteryPct) charging (clock o 0%nat) in
    (set_battery (<[id := rec]> (batteryByDevice st)) st,
     [Emit ToAll (battery_update id rec)]).

(** The record and the history entry both telemetry paths build. *)
Definition telemetry_rec (xrId : string) (d : TelemetryPayload) (fallback : string)
    (ts : Z) : TelemetryRec :=
  mkTelemetryRec xrId (or_else (tp_connType d) fallback) (net_map numOrNull (tp_net d)) ts.

Definition telemetry_sample (st : ServerState) (rec : TelemetryRec) : TelemetrySample :=
  mkTelemetrySample (tr_ts rec) (tr_connType rec)
    (wifiMbps (tr_net rec)) (netDownMbps (tr_net rec)) (netUpMbps (tr_net rec))
    (match batteryByDevice st !! tr_xrId rec with
     | Some b => b_pct b
     | None => Null
     end)
    (cpuPct (tr_net rec)) (memUsedMb (tr_net rec)) (memTotalMb (tr_net rec))
    (deviceTempC (tr_net rec)).

Definition th_ts_of (s : TelemetrySample) : option Z := Some (th_ts s).

(** Both paths: keep the latest record and push to the history. The
    record's [ts] is the first clock reading, [pushHist] takes the second. *)
Definition ingest_telemetry (st : ServerState) (rec : TelemetryRec) (now : Z)
    : ServerState :=
  set_telemetry (<[tr_xrId rec := rec]> (telemetryByDevice st))
                (Metrics.pushHist th_ts_of (telemetryHist st) (tr_xrId rec)
                                  (telemetry_sample st rec) now)
                st.

(** [socket.on('telemetry', payload => ...)]. *)
Definition on_telemetry (st : ServerState) (sid : string)
    (payload : Parsed TelemetryPayload) (o : Oracle) : ServerState * list Output :=
  match payload with
  | Unparseable => (st, [])
  | Object d =>
      let xrId := id_or_socket st sid (tp_xrId d) in
      if negb (truthy xrId) then (st, [])
      else
        let xrId := or_else xrId "" in
        let rec := telemetry_rec xrId d "none" (clock o 0%nat) in
        let st1 := ingest_telemetry st rec (clock o 1%nat) in
        (st1,
         [Emit (ToRoom (metricsRoom xrId))
               (metrics_update_telemetry xrId
                  (last (Metrics.series (telemetryHist st1) xrId)));
          Emit ToAll (telemetry_update rec)])
  end.

(** [app.post('/desktop-telemetry')]. *)
Definition desktop_telemetry (st : ServerState) (d : TelemetryPayload) (o : Oracle)
    : ServerState * list Output :=
  if negb (truthy (tp_xrId d)) then (st, [])
  else
    let rec := telemetry_rec (or_else (tp_xrId d) "") d "other" (clock o 0%nat) in
    (ingest_telemetry st rec (clock o 1%nat), [Emit ToAll (telemetry_update rec)]).

(** [socket.on('webrtc_quality', q => ...)]; a null payload makes the
    handler throw into its own catch. *)
Definition on_webrtc_quality (st : ServerState) (sid : string)
    (payload : Parsed QualityPayload) (o : Oracle) : ServerState * list Output :=
  match payload with
  | Unparseable => (st, [])
  | Object q =>
      let xrId := id_or_socket st sid (qp_xrId q) in
      if negb (truthy xrId) then (st, [])
      else
        let xrId := or_else xrId "" in
        let ts := match qp_ts q with
                  | Some 0 | None => clock o 0%nat
                  | Some t => t
                  end in
        let entry := mkQualitySample (Some ts)
                       (numOrNull (qi_jitterMs (qp_sample q)))
                       (numOrNull (qi_rttMs (qp_sample q)))
                       (numOrNull (qi_lossPct (qp_sample q)))
                       (numOrNull (qi_bitrateKbps (qp_sample q))) in
        let snap := mkQualitySnap xrId entry (numOrNull (qp_fps q))
                                  (numOrNull (qp_dropped q)) (numOrNull (qp_nackCount q)) in
        let st1 := set_quality (map_set xrId snap (qualityByDevice st))
                               (Metrics.pushHist qh_ts (qualityHist st) xrId entry
                                                 (clock o 1%nat)) st in
        (st1,
         [Emit (ToRoom (metricsRoom xrId))
               (metrics_update_quality xrId (last (Metrics.series (qualityHist st1) xrId)));
          Emit ToAll (webrtc_quality_update (map snd (qualityByDevice st1)))])
  end.

(** Deferred work, when its timer fires. Note generation is external. *)
Definition run_task (st : ServerState) (t : Task) (o : Oracle)
    : ServerState * list Output :=
  match t with
  | TaskBroadcastDeviceList => (st, broadcastDeviceList st (fetch o 0%nat))
  | TaskBroadcastPairs => (st, broadcastPairs st)
  | TaskSoapNote _ => (st, [])
  end.

(** *** The server as a transition system *)

Inductive Request :=
| Join (xrId : string)
| Identify (deviceName xrId : option string)
| MetricsSubscribe (xrId : option string)
| MetricsUnsubscribe (xrId : option string)
| RequestDeviceList
| PairWith (peerId : option string)
| Signal (payload : Parsed SignalMsg)
| Control (raw : Parsed ControlPayload)
| Chat (payload : Parsed ChatPayload)
| Battery (xrId : option string) (batteryPct : Val) (charging : bool)
| Telemetry (payload : Parsed TelemetryPayload)
| WebrtcQuality (payload : Parsed QualityPayload)
| MessageHistory
| Disconnect.

Inductive Input :=
| Connection (sid : string)
| FromSocket (sid : string) (r : Request)
| DesktopTelemetry (d : TelemetryPayload)
| Timer (t : Task).

Definition handle (st : ServerState) (sid : string) (r : Request) (o : Oracle)
    : ServerState * list Output :=
  match r with
  | Join xrId => on_join st sid xrId o
  | Identify deviceName xrId => on_identify st sid deviceName xrId o
  | MetricsSubscribe xrId => on_metrics_subscribe st sid xrId
  | MetricsUnsubscribe xrId => on_metrics_unsubscribe st sid xrId
  | RequestDeviceList => on_request_device_list st sid o
  | PairWith peerId => on_pair_with st sid peerId
  | Signal payload => on_signal st sid payload o
  | Control raw => on_control st sid raw
  | Chat payload => on_message st sid payload o
  | Battery xrId batteryPct charging => on_battery st sid xrId batteryPct charging o
  | Telemetry payload => on_telemetry st sid payload o
  | WebrtcQuality payload => on_webrtc_quality st sid payload o
  | MessageHistory => on_message_history st sid
  | Disconnect => close st sid (fetch o 0%nat)
  end.

(** One event of the event loop. Socket ids are unique, and a socket's
    handlers run only while it is connected. *)
Definition step (st : ServerState) (i : Input) (o : Oracle) : ServerState * list Output :=
  match i with
  | Connection sid => if connected st sid then (st, []) else on_connection st sid o
  | FromSocket sid r => if connected st sid then handle st sid r o else (st, [])
  | DesktopTelemetry d => desktop_telemetry st d o
  | Timer t => run_task st t o
  end.

(** A run of the event loop, with the outputs of all steps in order. *)
Fixpoint run (st : ServerState) (trace : list (Input * Oracle))
    : ServerState * list Output :=
  match trace with
  | [] => (st, [])
  | (i, o) :: rest =>
      let '(st1, out1) := step st i o in
      let '(st2, out2) := run st1 rest in
      (st2, out1 ++ out2)
  end.

End Hub.

(* ===================================================================== *)
(** ** Vocabulary of the statements                                        *)
(* ===================================================================== *)

Module Props.
Import Hub.

(** The registry maps, and the metric stores, are the same in two states. *)
Definition same_registry (st st' : ServerState) : Prop :=
  clients st' = clients st ∧ onlineDevices st' = onlineDevices st
  ∧ desktopClients st' = desktopClients st.

Definition same_metrics (st st' : ServerState) : Prop :=
  batteryByDevice st' = batteryByDevice st
  ∧ telemetryByDevice st' = telemetryByDevice st
  ∧ qualityByDevice st' = qualityByDevice st
  ∧ telemetryHist st' = telemetryHist st
  ∧ qualityHist st' = qualityHist st.

(** Within one handler run the clock does not go backwards. *)
Definition monotone_clock (o : Oracle) : Prop :=
  ∀ i j : nat, (i ≤ j)%nat → clock o i ≤ clock o j.

(** [timed T trace T']: along the run the clock never goes backwards; it
    reads at least [T] at the start and at most [T'] at the end. *)
Inductive timed : Z → list (Input * Oracle) → Z → Prop :=
| timed_nil T : timed T [] T
| timed_cons T T' T'' i o rest :
    monotone_clock o →
    (∀ k, T ≤ clock o k ≤ T') →
    timed T' rest T'' →
    timed T ((i, o) :: rest) T''.

(** A telemetry series in arrival order: timestamps never decrease and
    none is later than [T]. *)
Definition ordered_upto (T : Z) (arr : list TelemetrySample) : Prop :=
  StronglySorted (λ a b, th_ts a ≤ th_ts b) arr ∧ Forall (λ e, th_ts e ≤ T) arr.

Definition hist_ordered_upto (T : Z) (st : ServerState) : Prop :=
  ∀ x, ordered_upto T (Metrics.series (telemetryHist st) x).

(** No entry is older than the window that ends at [now]. *)
Definition within_window (now : Z) (arr : list TelemetrySample) : Prop :=
  Forall (λ e, now - Metrics.METRIC_WINDOW_MS ≤ th_ts e) arr.

(** Input [i] is a telemetry ingest for identity [x]: a [telemetry] event
    on a connected socket, or a POST to /desktop-telemetry. *)
Definition ingests (st : ServerState) (i : Input) (x : string) : Prop :=
  x ≠ ""%string ∧
  match i with
  | FromSocket sid (Telemetry (Object d)) =>
      connected st sid = true ∧ id_or_socket st sid (tp_xrId d) = Some x
  | DesktopTelemetry d => tp_xrId d = Some x
  | _ => False
  end.

(** The outputs that turn a connection away. *)
Definition is_rejection (out : Output) : bool :=
  match out with
  | Emit _ (duplicate_id _ _) | Emit _ (error _) | Closed _ => true
  | _ => false
  end.

(** The outputs that relay a signaling envelope. *)
Definition is_signal (out : Output) : bool :=
  match out with
  | Emit _ (signal _ _ _) => true
  | _ => false
  end.

(** The outputs that tell a room that a peer has left. *)
Definition is_peer_left (out : Output) : bool :=
  match out with
  | Emit _ (peer_left _ _) => true
  | _ => false
  end.

(** The cluster-wide fetch gives nothing by the time the guard fires: it is
    fulfilled only later (with [remote], the sockets the cluster holds), it
    is rejected, or it never settles. *)
Definition misses_guard (g : GlobalFetch) (remote : list SocketSnap) : Prop :=
  match g with
  | Resolves t l => GUARD_MS < t ∧ l = remote
  | Rejects _ | NeverSettles => True
  end.

(** The same handler run with another outcome for its first fetch. *)
Definition with_first_fetch (env : FetchEnv) (o : Oracle) : Oracle :=
  mkOracle (λ k, match k with O => env | S _ => fetch o k end) (clock o).

End Props.

(** ** Sample inputs used to exercise the statements *)

Module Samples.
Import Hub.

(** A single-process environment whose clock reads [t] throughout one
    handler run. *)
Definition at_ms (t : Z) : Oracle :=
  mkOracle (λ _, mkFetch false NeverSettles) (λ _, t).

Definition net0 : NetFields Js.Val :=
  mkNet (Js.Num (-60)) (Js.Num 300) (Js.Num 4) Js.Undefined Js.Undefined
        (Js.Num 80) (Js.Num 20) (Js.Num 35) (Js.Num 900) (Js.Num 4000) Js.NaN.

Definition ping (xrId : string) : TelemetryPayload :=
  mkTelemetryPayload (Some xrId) (Some "wifi"%string) net0.

Definition two_days : Z := 2 * Metrics.METRIC_WINDOW_MS.

Definition local_only : FetchEnv := mkFetch false NeverSettles.

(** The headset and the operator desktop identify one after the other;
    the second identify auto-pairs them. *)
Definition headset_then_desktop : list (Input * Oracle) :=
  [(Connection "s1", at_ms 1000);
   (FromSocket "s1" (Identify (Some "Glass") (Some "XR-1234")), at_ms 1000);
   (Connection "s2", at_ms 4000);
   (FromSocket "s2" (Identify (Some "Desktop") (Some "XR-1238")), at_ms 4000)]%string.

Definition paired : ServerState := (run initial headset_then_desktop).1.

Definition pair_room : string := "pair:XR-1234:XR-1238".

(** A cluster fan-out that is fulfilled after [ms] milliseconds. *)
Definition fanout (ms : Z) (remote : list SocketSnap) : Oracle :=
  mkOracle (λ _, mkFetch true (Resolves ms remote)) (λ _, 5000).

(** The headset as another process sees it. *)
Definition remote_headset : SocketSnap :=
  mkSnap "r1" (mkData (Some "XR-1234") (Some "Glass") (Some 1000) None)%string.

(** A quality sample, and a quality envelope that names no device. *)
Definition q0 : QualityIn :=
  mkQualityIn (Some 4500) (Js.Num 12) (Js.Num 80) (Js.Num 1) (Js.Num 2500).

Definition quality_without_device : SignalMsg :=
  mkSignal (Some "webrtc_quality_update") None None None None (Some [q0])%string.

Definition quality_for (deviceId : string) : SignalMsg :=
  mkSignal (Some "webrtc_quality_update") None None None (Some deviceId) (Some [q0])%string.

(** An offer whose [from] names somebody else. *)
Definition spoofed_offer : SignalMsg :=
  mkSignal (Some "offer") (Some "XR-9999") (Some "XR-1238") (Some "sdp") None None%string.

(** Two connections of one process announce the same identity with [join]
    (as SignalingClient does before it identifies); the first one to
    identify is turned away, the other one being the holder then. *)
Definition racing_joins : list (Input * Oracle) :=
  [(Connection "s1", at_ms 1000);
   (Connection "s2", at_ms 1000);
   (FromSocket "s2" (Join "XR-1234"), at_ms 1000);
   (FromSocket "s1" (Join "XR-1234"), at_ms 1000)]%string.

Definition late_identify : Input :=
  FromSocket "s2" (Identify (Some "Glass-2") (Some "XR-1234"))%string.

(** The headset is identified; a second client then connects with the same
    identity and runs SignalingClient's announcement: join, then identify. *)
Definition headset_identified : list (Input * Oracle) :=
  [(Connection "s1", at_ms 1000);
   (FromSocket "s1" (Identify (Some "Glass") (Some "XR-1234")), at_ms 1000)]%string.

Definition second_client : list (Input * Oracle) :=
  [(Connection "s2", at_ms 4000);
   (FromSocket "s2" (Join "XR-1234"), at_ms 4000);
   (FromSocket "s2" (Identify (Some "Glass-2") (Some "XR-1234")), at_ms 4000)]%string.

(** A third connection joins under the headset's identity and asks to pair
    with the desktop while the pair room is occupied. *)
Definition third_wheel : list (Input * Oracle) :=
  [(Connection "s3", at_ms 6000);
   (FromSocket "s3" (Join "XR-1234"), at_ms 6000);
   (FromSocket "s3" (PairWith (Some "XR-1238")), at_ms 6000)]%string.

(** One fresh connection on this process. *)
Definition one_socket : ServerState := (step initial (Connection "s2") (at_ms 4000)).1.

(** The paired headset announces itself again with an empty identity
    ([join('')]): it stays in the pair room, and its [socket.data.xrId] is
    now the empty string. *)
Definition nameless_member : ServerState :=
  (step paired (FromSocket "s1" (Join "")) (at_ms 5000)).1.

(** A cluster fan-out that never settles, and one that is rejected. *)
Definition fanout_hangs : Oracle :=
  mkOracle (λ _, mkFetch true NeverSettles) (λ _, 5000).

Definition fanout_fails (ms : Z) : Oracle :=
  mkOracle (λ _, mkFetch true (Rejects ms)) (λ _, 5000).

End Samples.

(* ===================================================================== *)
(** ** The rest of SignalingClient: lifecycle and presence                 *)
(* ===================================================================== *)

Module ClientOps.
Import Client.

Section Lifecycle.
Variable Payload : Type.

(** The state the constructor leaves. *)
Definition fresh (deviceName xrId : string) : SignalingClient Payload :=
  mkClient deviceName xrId false false false [] [].

(** [disconnect(reason)]: the socket object is kept. *)
Definition disconnect (c : SignalingClient Payload) : SignalingClient Payload :=
  if socket c
  then mkClient (deviceName c) (xrId c) (socket c) false true (_outbox c) (wire c)
  else c.

(** [close()]: listeners removed, socket dropped. *)
Definition close (c : SignalingClient Payload) : SignalingClient Payload :=
  if socket c
  then mkClient (deviceName c) (xrId c) false false true (_outbox c) (wire c)
  else c.

(** What every client state reached from the constructor satisfies. *)
Definition sane (c : SignalingClient Payload) : Prop :=
  (length (_outbox c) ≤ _OUTBOX_MAX)%nat
  ∧ (socket c = false → isConnected c = false)
  ∧ (socket c && isConnected c = true → _outbox c = []).

(** What can happen to a client: calls of its API, and the transport events
    its listeners are bound to. *)
Inductive Op :=
| Send (it : Item Payload)
| Connect
| Disconnect
| Close
| OnConnect
| OnDisconnect
| OnConnectError.

(** Transport events reach the client only through the listeners that
    [connect()] attaches to the socket and [close()] removes. *)
Definition apply (c : SignalingClient Payload) (op : Op) : SignalingClient Payload :=
  match op with
  | Send it => _send c it
  | Connect => connect c
  | Disconnect => disconnect c
  | Close => close c
  | OnConnect => if socket c then _onConnect c else c
  | OnDisconnect | OnConnectError => if socket c then _onDisconnect c else c
  end.

Definition run (c : SignalingClient Payload) (ops : list Op) : SignalingClient Payload :=
  foldl apply c ops.

(** The items passed to [_send], in call order. *)
Definition sends (ops : list Op) : list (Item Payload) :=
  flat_map (λ op, match op with Send it => [it] | _ => [] end) ops.

(** The application emits that reached the transport, in order. *)
Definition delivered (c : SignalingClient Payload) : list (Item Payload) :=
  flat_map (λ e, match e with EmitApp it => [it] | _ => [] end) (wire c).

End Lifecycle.

Arguments fresh {Payload}.
Arguments sane {Payload}.
Arguments disconnect {Payload}.
Arguments close {Payload}.
Arguments Send {Payload}.
Arguments Connect {Payload}.
Arguments Disconnect {Payload}.
Arguments Close {Payload}.
Arguments OnConnect {Payload}.
Arguments OnDisconnect {Payload}.
Arguments OnConnectError {Payload}.
Arguments apply {Payload}.
Arguments run {Payload}.
Arguments sends {Payload}.
Arguments delivered {Payload}.

End ClientOps.

Module Presence.

(** ASCII [toUpperCase]. *)
Definition upper_ascii (c : Ascii.ascii) : Ascii.ascii :=
  let n := Ascii.nat_of_ascii c in
  if ((97 <=? n) && (n <=? 122))%nat then Ascii.ascii_of_nat (n - 32) else c.

Fixpoint toUpperCase (s : string) : string :=
  match s with
  | EmptyString => EmptyString
  | String c r => String (upper_ascii c) (toUpperCase r)
  end.

(** One element of a [device_list] payload, as the client reads it. *)
Record DeviceInfo := mkInfo {
  o_xrId : option string;
  o_deviceName : option string;
  o_name : option string
}.

(** The presence fields of SignalingClient. *)
Record State := mkPresence {
  xrId : string;
  DESKTOP_ID : string;
  currentDesktopId : option string;
  _wasDesktopOnline : bool
}.

(** Calls made on the listener. *)
Inductive Callback :=
| desktop_disconnected (xrId : string)       (* onServerMessage('desktop_disconnected', ...) *)
| peer_left (xrId : string)                  (* onServerMessage('peer_left', obj) *)
| onDeviceListUpdated (list : list (string * string)).

(** [o?.deviceName || o?.name || 'Unknown']. *)
Definition display_name (o : DeviceInfo) : string :=
  Js.or_else (o_deviceName o) (Js.or_else (o_name o) "Unknown").

Definition is_desktop_id (p : State) (id : string) : bool :=
  String.eqb (toUpperCase id) (DESKTOP_ID p).

(** The [[name, xrId]] pairs of the devices other than this one. *)
Definition others (p : State) (arr : list DeviceInfo) : list (string * string) :=
  flat_map (λ o, if Js.truthy (o_xrId o) && negb (String.eqb (Js.or_else (o_xrId o) "") (xrId p))
                 then [(display_name o, Js.or_else (o_xrId o) "")] else [])
           arr.

Definition desktop_listed (p : State) (arr : list DeviceInfo) : bool :=
  existsb (λ o, Js.truthy (o_xrId o) && is_desktop_id p (Js.or_else (o_xrId o) "")) arr.

(** [(preferred?.[1]) || (list[0]?.[1]) || null]. *)
Definition preferred_desktop (p : State) (list : list (string * string)) : option string :=
  match List.find (λ '(_, id), is_desktop_id p id) list with
  | Some (_, id) => Some id
  | None => match list with
            | (_, id) :: _ => Some id
            | [] => None
            end
  end.

(** [_onDeviceList(arr)]; [None] is a payload that is not an array. *)
Definition _onDeviceList (p : State) (arr : option (list DeviceInfo))
    : State * list Callback :=
  match arr with
  | None => (p, [])
  | Some arr =>
      let list := others p arr in
      let desktopOnline := desktop_listed p arr in
      (mkPresence (xrId p) (DESKTOP_ID p) (preferred_desktop p list) desktopOnline,
       (if _wasDesktopOnline p && negb desktopOnline
        then [desktop_disconnected (DESKTOP_ID p)] else [])
       ++ [onDeviceListUpdated list])
  end.

(** [_onPeerLeft(obj)]. *)
Definition _onPeerLeft (p : State) (peer : option string) : State * list Callback :=
  if Js.truthy peer && is_desktop_id p (Js.or_else peer "")
  then (mkPresence (xrId p) (DESKTOP_ID p) (currentDesktopId p) false,
        [peer_left (Js.or_else peer "")])
  else (p, []).

End Presence.

(** ** Medication name normalisation (server.js, normalizeTerm) *)

Module Drug.

(** The characters of the class [[ \-\/\.,'()]]. *)
Definition removable (c : Ascii.ascii) : bool :=
  existsb (Ascii.eqb c) [" "; "-"; "/"; "."; ","; "'"; "("; ")"]%char.

Fixpoint strip (s : string) : string :=
  match s with
  | EmptyString => EmptyString
  | String c r => if removable c then strip r else String c (strip r)
  end.

(** [String(s || '').toLowerCase().replace(/[ \-\/\.,'()]/g, '')] on ASCII
    strings. *)
Definition normalizeTerm (s : option string) : string :=
  strip (Js.toLowerCase (Js.or_else s "")).

End Drug.

(** ** The environment check at start-up (config/env-loader.js) *)

Module Env.

(** A value of [process.env]: a JavaScript string, as the sequence of its
    UTF-16 code units. *)
Definition Text := list N.

(** The code units that [trim()] removes: ECMAScript's WhiteSpace (tab,
    vertical tab, form feed, U+FEFF and the space separators U+0020, U+00A0,
    U+1680, U+2000 to U+200A, U+202F, U+205F, U+3000) and LineTerminator
    (line feed, carriage return, U+2028, U+2029). *)
Definition is_space (c : N) : bool :=
  existsb (N.eqb c)
    [9; 10; 11; 12; 13; 32; 160; 5760;
     8192; 8193; 8194; 8195; 8196; 8197; 8198; 8199; 8200; 8201; 8202;
     8232; 8233; 8239; 8287; 12288; 65279]%N.

(** [v.trim().length > 0]: some code unit is not white space. *)
Fixpoint has_text (v : Text) : bool :=
  match v with
  | [] => false
  | c :: r => negb (is_space c) || has_text r
  end.

(** [process.env]. *)
Definition Environment := gmap string Text.

(** [!!process.env.K]: set, and not the empty string. *)
Definition is_set (env : Environment) (k : string) : bool :=
  match env !! k with
  | Some (_ :: _) => true
  | _ => false
  end.

(** [!!process.env.K && process.env.K.trim().length > 0]. *)
Definition set_and_not_blank (env : Environment) (k : string) : bool :=
  is_set env k && has_text (default [] (env !! k)).

(** [checks], in the order of the object's keys. *)
Definition checks (env : Environment) : list (string * bool) :=
  [("SESSION_SECRET", set_and_not_blank env "SESSION_SECRET");
   ("SUPERADMIN_EMAIL", set_and_not_blank env "SUPERADMIN_EMAIL");
   ("SUPERADMIN_PASSWORD_BCRYPT", set_and_not_blank env "SUPERADMIN_PASSWORD_BCRYPT");
   ("DB_SERVER", is_set env "DB_SERVER");
   ("DB_NAME", is_set env "DB_NAME")]%string.

Definition required : list string :=
  ["SESSION_SECRET"; "SUPERADMIN_EMAIL"; "SUPERADMIN_PASSWORD_BCRYPT"]%string.

(** [missing] of [validateEnv]. *)
Definition missing (env : Environment) : list string :=
  map fst (filter (λ kv, negb kv.2 && bool_decide (kv.1 ∈ required)) (checks env)).

Definition status (env : Environment) (k : string) : bool :=
  default false (Js.map_get k (checks env)).

(** The exported [isReady]. *)
Definition isReady (env : Environment) : bool :=
  status env "SESSION_SECRET" && status env "SUPERADMIN_EMAIL"
  && status env "SUPERADMIN_PASSWORD_BCRYPT".

(** The candidate paths of the .env file: whether the file exists and
    whether dotenv reads it without error. *)
Record Candidate := mkCandidate {
  envPath : string;
  existsSync : bool;
  loads : bool
}.

(** The loop that sets [loadedFrom]. *)
Fixpoint loadedFrom (envCandidates : list Candidate) : option string :=
  match envCandidates with
  | [] => None
  | c :: rest =>
      if existsSync c then
        if loads c then Some (envPath c) else loadedFrom rest
      else loadedFrom rest
  end.

End Env.

(** ** Vocabulary of the further statements *)

Module Facts.
Import Hub.

(** A chat message as [addToMessageHistory] stores it. *)
Definition stored_chat (m : Message) : Prop :=
  m_type m = "message"%string ∧ is_Some (m_id m) ∧ ∃ t, m_timestamp m = ServerStamp t.

(** The latest-quality table has one row per identity, filed under it. *)
Definition quality_table_ok (st : ServerState) : Prop :=
  NoDup (map fst (qualityByDevice st))
  ∧ Forall (λ kv, qs_xrId kv.2 = kv.1) (qualityByDevice st).

(** The character that separates the two identities of a pair key. *)
Fixpoint has_bar (s : string) : bool :=
  match s with
  | EmptyString => false
  | String c r => Ascii.eqb c "|"%char || has_bar r
  end.

End Facts.

(* ===================================================================== *)
(** * Properties                                                           *)
(* ===================================================================== *)

(** ** The client outbox *)

Section OutboxFacts.
Import Client.
Context {P : Type}.
Implicit Types (c : SignalingClient P) (o l : list (Item P)) (it : Item P).

Lemma lastn_all {A} (n : nat) (l : list A) :
  (length l ≤ n)%nat → lastn n l = l.
Proof.
  intros H. unfold lastn. replace (length l - n)%nat with 0%nat by lia. reflexivity.
Qed.

Lemma length_lastn {A} (n : nat) (l : list A) :
  length (lastn n l) = Nat.min n (length l).
Proof. unfold lastn. rewrite length_drop. lia. Qed.

(** Dropping the oldest entries early or late gives the same queue. *)
Lemma lastn_app_lastn {A} (n : nat) (l l' : list A) :
  lastn n (lastn n l ++ l') = lastn n (l ++ l').
Proof.
  unfold lastn.
  rewrite <- (drop_app_le l l' (length l - n)) by lia.
  rewrite drop_drop. f_equal.
  rewrite length_drop, !length_app. lia.
Qed.

Lemma lastn_app_full {A} (n : nat) (l l' : list A) :
  (n ≤ length l')%nat → lastn n (l ++ l') = lastn n l'.
Proof.
  intros H. unfold lastn. rewrite length_app.
  rewrite drop_app_ge by lia. f_equal. lia.
Qed.

Lemma enqueue_lastn o it :
  (length o ≤ _OUTBOX_MAX)%nat → enqueue o it = lastn _OUTBOX_MAX (o ++ [it]).
Proof.
  intros Hlen. unfold enqueue, lastn. rewrite length_app. simpl length.
  destruct (Nat.ltb_spec (length o) _OUTBOX_MAX) as [Hlt | Hge].
  - replace (length o + 1 - _OUTBOX_MAX)%nat with 0%nat by lia. reflexivity.
  - replace (length o + 1 - _OUTBOX_MAX)%nat with 1%nat by lia.
    destruct o as [| x o']; [unfold _OUTBOX_MAX in Hge; simpl in Hge; lia | reflexivity].
Qed.

Lemma enqueue_length o it :
  (length o ≤ _OUTBOX_MAX)%nat → (length (enqueue o it) ≤ _OUTBOX_MAX)%nat.
Proof.
  intros H. rewrite enqueue_lastn by exact H. rewrite length_lastn. lia.
Qed.

Lemma enqueue_all o l :
  (length o ≤ _OUTBOX_MAX)%nat →
  foldl enqueue o l = lastn _OUTBOX_MAX (o ++ l).
Proof.
  revert o. induction l as [| a l IH]; intros o Hlen; simpl.
  - rewrite app_nil_r. symmetry. apply lastn_all, Hlen.
  - rewrite IH by (apply enqueue_length, Hlen).
    rewrite enqueue_lastn by exact Hlen.
    rewrite lastn_app_lastn, <- app_assoc. reflexivity.
Qed.

(** While not connected, [_send] only touches the outbox. *)
Lemma sendAll_offline c l :
  socket c && isConnected c = false →
  sendAll c l = set_outbox P c (foldl enqueue (_outbox c) l).
Proof.
  revert c. induction l as [| a l IH]; intros c Hoff.
  - destruct c; reflexivity.
  - unfold sendAll in *. simpl. unfold _send at 2. rewrite Hoff.
    rewrite IH by exact Hoff. reflexivity.
Qed.

(** While connected, [_send] emits at once. *)
Lemma sendAll_online c l :
  socket c && isConnected c = true →
  sendAll c l = emit P c (map EmitApp l).
Proof.
  revert c. induction l as [| a l IH]; intros c Hon.
  - destruct c; unfold sendAll, emit; simpl. rewrite app_nil_r. reflexivity.
  - unfold sendAll in *. simpl. unfold _send at 2. rewrite Hon.
    rewrite IH by exact Hon. unfold emit; simpl. rewrite <- app_assoc. reflexivity.
Qed.

(** The cap is an invariant of every operation of the class. *)
Lemma _send_cap c it :
  (length (_outbox c) ≤ _OUTBOX_MAX)%nat → (length (_outbox (_send c it)) ≤ _OUTBOX_MAX)%nat.
Proof.
  intros H. unfold _send. destruct (socket c && isConnected c); simpl.
  - exact H.
  - apply enqueue_length, H.
Qed.

(** C6. A client that is not connected and issues N > 200 sends keeps
    exactly the last 200 of them, in the order they were issued (the oldest
    are dropped); when the transport then connects, [_onConnect] emits the
    re-announcement followed by those 200 queued sends in FIFO order and
    empties the outbox, and every later send goes out after them. *)
Theorem outbox_keeps_latest_and_flushes_fifo c (sends more : list (Item P)) :
  socket c && isConnected c = false →
  (length (_outbox c) ≤ _OUTBOX_MAX)%nat →
  (_OUTBOX_MAX < length sends)%nat →
  let queued := sendAll c sends in
  let after := sendAll (_onConnect (connect queued)) more in
  _outbox queued = lastn _OUTBOX_MAX sends
  ∧ length (_outbox queued) = _OUTBOX_MAX
  ∧ wire queued = wire c
  ∧ _outbox (_onConnect (connect queued)) = []
  ∧ wire after =
      wire c
      ++ [EmitJoin (xrId c); EmitIdentify (deviceName c) (xrId c); EmitRequestDeviceList]
      ++ map EmitApp (lastn _OUTBOX_MAX sends)
      ++ map EmitApp more
  ∧ _outbox after = [].
Proof.
  intros Hoff Hcap Hmany queued after.
  assert (Hq : queued = set_outbox P c (lastn _OUTBOX_MAX sends)).
  { unfold queued. rewrite sendAll_offline by exact Hoff.
    rewrite enqueue_all by exact Hcap.
    rewrite lastn_app_full by lia. reflexivity. }
  assert (Hon : socket (_onConnect (connect queued))
                && isConnected (_onConnect (connect queued)) = true).
  { unfold _onConnect, connect. destruct (socket queued) eqn:E; simpl; rewrite ?E; reflexivity. }
  assert (Hafter : after = emit P (_onConnect (connect queued)) (map EmitApp more)).
  { unfold after. apply sendAll_online, Hon. }
  rewrite Hafter. clear Hafter after Hon.
  rewrite Hq. clear Hq queued.
  split_and!.
  - reflexivity.
  - simpl. rewrite length_lastn. lia.
  - reflexivity.
  - unfold connect, set_outbox; simpl. destruct (socket c); reflexivity.
  - unfold emit, _onConnect, connect, set_outbox; cbn.
    destruct (socket c); cbn; rewrite <- !app_assoc; reflexivity.
  - unfold emit, _onConnect, connect, set_outbox; simpl.
    destruct (socket c); reflexivity.
Qed.

End OutboxFacts.

(** C6 on a concrete burst: 201 sends queued by a fresh client, then a
    connect and one more send. *)
Lemma outbox_keeps_latest_and_flushes_fifo_witness :
  let c := Client.mkClient "Glass" "XR-1234" false false false [] [] in
  let sends := map (Client.mkItem "signal") (seq 0 201) in
  let queued := Client.sendAll c sends in
  Client._outbox queued = lastn 200 sends
  ∧ Client.wire (Client.sendAll (Client._onConnect (Client.connect queued))
                                [Client.mkItem "message" 999%nat])
    = [Client.EmitJoin "XR-1234"; Client.EmitIdentify "Glass" "XR-1234";
       Client.EmitRequestDeviceList]
      ++ map Client.EmitApp (lastn 200 sends)
      ++ [Client.EmitApp (Client.mkItem "message" 999%nat)].
Proof.
  intros c sends queued.
  destruct (outbox_keeps_latest_and_flushes_fifo c sends [Client.mkItem "message" 999%nat])
    as (H1 & _ & _ & _ & H5 & _).
  - reflexivity.
  - simpl. unfold Client._OUTBOX_MAX. lia.
  - unfold sends, Client._OUTBOX_MAX. rewrite length_map, length_seq. lia.
  - split; [exact H1 | exact H5].
Defined.

(** ** Which handlers write which store *)

Section Frames.
Import Hub Props.

Lemma tryAutoPair_stores st deviceId :
  let st' := (tryAutoPair st deviceId).1.1 in
  same_registry st st' ∧ same_metrics st st'
  ∧ messageHistory st' = messageHistory st.
Proof.
  unfold tryAutoPair, same_registry, same_metrics.
  repeat case_match; cbn; auto 10.
Qed.

Lemma close_stores st sid env :
  let st' := (close st sid env).1 in
  same_metrics st st' ∧ messageHistory st' = messageHistory st.
Proof.
  unfold close, on_disconnect, unregister, same_metrics.
  repeat case_match; cbn; auto 10.
Qed.

(** Only the chat path of the message handler writes [messageHistory]. *)
Lemma step_messageHistory st i o :
  messageHistory (step st i o).1 = messageHistory st
  ∨ ∃ msg id stamp,
      messageHistory (step st i o).1
      = addToMessageHistory (messageHistory st) msg id stamp.
Proof.
  destruct i as [sid | sid r | d | t]; cbn.
  - case_match; cbn; auto.
  - case_match; [| cbn; auto]. destruct r; cbn.
    + auto.
    + unfold on_identify, reject, accept.
      pose proof (close_stores st sid (fetch o 0%nat)) as [_ Hc0].
      pose proof (close_stores st sid (fetch o 1%nat)) as [_ Hc1].
      repeat case_match; cbn in *; simplify_eq; auto.
      all: match goal with
           | H : tryAutoPair ?s ?x = _ |- _ =>
               pose proof (tryAutoPair_stores s x) as (_ & _ & Ht);
               rewrite H in Ht; cbn in Ht; rewrite Ht; auto
           end.
    + unfold on_metrics_subscribe; case_match; cbn; auto.
    + unfold on_metrics_unsubscribe; case_match; cbn; auto.
    + auto.
    + unfold on_pair_with; repeat case_match; cbn; auto.
    + unfold on_signal, intercept_quality; repeat case_match; cbn; auto.
    + unfold on_control; repeat case_match; cbn; auto.
    + unfold on_message; repeat case_match; cbn; eauto.
    + unfold on_battery; repeat case_match; cbn; auto.
    + unfold on_telemetry; repeat case_match; cbn; auto.
    + unfold on_webrtc_quality; repeat case_match; cbn; auto.
    + auto.
    + left. exact (proj2 (close_stores st sid (fetch o 0%nat))).
  - unfold desktop_telemetry; case_match; cbn; auto.
  - destruct t; cbn; auto.
Qed.

End Frames.

(** ** Runs of the event loop *)

Section Runs.
Import Hub.

Lemma run_cons st i o rest :
  run st ((i, o) :: rest)
  = ((run (step st i o).1 rest).1, (step st i o).2 ++ (run (step st i o).1 rest).2).
Proof.
  cbn. destruct (step st i o) as [st1 out1]; cbn.
  destruct (run st1 rest) as [st2 out2]; reflexivity.
Qed.

Lemma run_app st t1 t2 :
  run st (t1 ++ t2)
  = ((run (run st t1).1 t2).1, (run st t1).2 ++ (run (run st t1).1 t2).2).
Proof.
  revert st. induction t1 as [| [i o] t1 IH]; intros st.
  - cbn. destruct (run st t2); reflexivity.
  - rewrite <- app_comm_cons, !run_cons, IH. cbn. rewrite app_assoc. reflexivity.
Qed.

(** An invariant of [step] holds after every run that starts in it. *)
Lemma run_invariant (Inv : ServerState → Prop) :
  (∀ st i o, Inv st → Inv (step st i o).1) →
  ∀ trace st, Inv st → Inv (run st trace).1.
Proof.
  intros Hstep trace. induction trace as [| [i o] rest IH]; intros st Hst.
  - exact Hst.
  - rewrite run_cons. cbn. apply IH, Hstep, Hst.
Qed.

End Runs.

(** ** The chat history buffer *)

Section ChatHistory.
Import Hub.

Lemma addToMessageHistory_lastn history msg id stamp :
  (length history ≤ MESSAGE_HISTORY_MAX)%nat →
  addToMessageHistory history msg id stamp
  = lastn MESSAGE_HISTORY_MAX (history ++ [stamp_message msg id stamp]).
Proof.
  intros Hlen. unfold addToMessageHistory, lastn. cbn zeta.
  rewrite length_app. simpl length.
  destruct (Nat.ltb_spec MESSAGE_HISTORY_MAX (length history + 1)) as [Hlt | Hge].
  - replace (length history + 1 - MESSAGE_HISTORY_MAX)%nat with 1%nat by lia.
    destruct history; reflexivity.
  - replace (length history + 1 - MESSAGE_HISTORY_MAX)%nat with 0%nat by lia.
    reflexivity.
Qed.

Lemma addToMessageHistory_length history msg id stamp :
  (length history ≤ MESSAGE_HISTORY_MAX)%nat →
  (length (addToMessageHistory history msg id stamp) ≤ MESSAGE_HISTORY_MAX)%nat.
Proof.
  intros Hlen. rewrite addToMessageHistory_lastn by exact Hlen.
  rewrite length_lastn. lia.
Qed.

Lemma step_history_bound st i o :
  (length (messageHistory st) ≤ MESSAGE_HISTORY_MAX)%nat →
  (length (messageHistory (step st i o).1) ≤ MESSAGE_HISTORY_MAX)%nat.
Proof.
  intros Hlen.
  destruct (step_messageHistory st i o) as [-> | (msg & id & stamp & ->)].
  - exact Hlen.
  - apply addToMessageHistory_length, Hlen.
Qed.

Lemma recent_lastn history : recent history = lastn 10 history.
Proof. reflexivity. Qed.

(** C10. In every state the server reaches from its initial state, the chat
    buffer holds at most 100 messages; a further message is appended and,
    past 100, the oldest one is dropped, so the buffer is the last 100
    messages in order; a connecting client is replayed, through one
    [message_history] emit, the last 10 messages of the buffer at most (no
    emit at all when the buffer is empty). *)
Theorem chat_history_bounded_and_replayed
    (trace : list (Input * Oracle)) (sid : string) (o : Oracle)
    (msg : Message) (id stamp : Z) :
  let st := (run initial trace).1 in
  let history := messageHistory st in
  (length history ≤ 100)%nat
  ∧ addToMessageHistory history msg id stamp
    = lastn 100 (history ++ [stamp_message msg id stamp])
  ∧ (on_connection st sid o).2
    = match history with
      | [] => []
      | _ => [Emit (ToSocket sid) (message_history (lastn 10 history))]
      end
      ++ [Emit (ToSocket sid)
               (device_list (buildDeviceListGlobal (on_connection st sid o).1 (fetch o 0%nat)));
          Emit (ToSocket sid) (room_update (collectPairs (on_connection st sid o).1))]
  ∧ (length (lastn 10 history) ≤ 10)%nat
  ∧ lastn 10 history `suffix_of` history.
Proof.
  intros st history.
  assert (Hbound : (length history ≤ MESSAGE_HISTORY_MAX)%nat).
  { unfold history, st.
    apply (run_invariant (λ s, (length (messageHistory s) ≤ MESSAGE_HISTORY_MAX)%nat)).
    - intros s i o' Hs. apply step_history_bound, Hs.
    - cbn. lia. }
  split_and!.
  - exact Hbound.
  - apply addToMessageHistory_lastn, Hbound.
  - reflexivity.
  - rewrite length_lastn. lia.
  - apply suffix_drop.
Qed.

End ChatHistory.

(** ** The telemetry history and its 24 h window *)

Section TelemetryWindow.
Import Hub Props Metrics.

Local Abbreviation by_ts := (λ a b : TelemetrySample, th_ts a ≤ th_ts b).

(** The eviction loop removes a prefix. *)
Lemma evict_suffix {A} (ts_of : A → option Z) cutoff (arr : list A) :
  evict ts_of cutoff arr `suffix_of` arr.
Proof.
  induction arr as [| a r IH]; simpl.
  - reflexivity.
  - destruct (expired ts_of cutoff a).
    + apply suffix_cons_r, IH.
    + reflexivity.
Qed.

(** It stops at the first entry that is not expired. *)
Lemma evict_head_fresh cutoff (a : TelemetrySample) r :
  cutoff ≤ th_ts a → evict th_ts_of cutoff (a :: r) = a :: r.
Proof.
  intros H. simpl. unfold expired, th_ts_of.
  destruct (Z.ltb_spec (th_ts a) cutoff); [lia | reflexivity].
Qed.

(** On a series in timestamp order, front eviction removes every expired
    entry. *)
Lemma evict_sorted_fresh cutoff (arr : list TelemetrySample) :
  StronglySorted by_ts arr →
  Forall (λ e, cutoff ≤ th_ts e) (evict th_ts_of cutoff arr).
Proof.
  induction arr as [| a r IH]; intros Hs; simpl.
  - constructor.
  - apply StronglySorted_cons in Hs as [Hle Hr].
    unfold expired, th_ts_of. destruct (Z.ltb_spec (th_ts a) cutoff) as [Hlt | Hge].
    + apply IH, Hr.
    + constructor; [exact Hge |].
      eapply Forall_impl; [exact Hle |]. cbn. intros; lia.
Qed.

Lemma ordered_upto_nil T : ordered_upto T [].
Proof. split; constructor. Qed.

Lemma ordered_upto_mono T T' arr :
  T ≤ T' → ordered_upto T arr → ordered_upto T' arr.
Proof.
  intros HT [Hs Hb]. split; [exact Hs |].
  eapply Forall_impl; [exact Hb |]. cbn. intros; lia.
Qed.

Lemma ordered_upto_suffix T arr arr' :
  arr' `suffix_of` arr → ordered_upto T arr → ordered_upto T arr'.
Proof.
  intros [pre ->] [Hs Hb]. split.
  - eapply StronglySorted_app_1_r, Hs.
  - apply Forall_app in Hb as [_ Hb]. exact Hb.
Qed.

Lemma ordered_upto_push T T' arr (s : TelemetrySample) :
  ordered_upto T arr → T ≤ th_ts s → th_ts s ≤ T' → ordered_upto T' (arr ++ [s]).
Proof.
  intros [Hs Hb] Hlo Hhi. split.
  - apply StronglySorted_app_2.
    + intros x1 x2 Hx1 Hx2. apply list_elem_of_singleton in Hx2 as ->.
      rewrite Forall_forall in Hb. specialize (Hb x1 Hx1). cbn in Hb. lia.
    + exact Hs.
    + repeat constructor.
  - apply Forall_app. split.
    + eapply Forall_impl; [exact Hb |]. cbn. intros; lia.
    + repeat constructor. exact Hhi.
Qed.

Lemma series_pushHist {A} (ts_of : A → option Z) map x (s : A) now :
  series (pushHist ts_of map x s now) x
  = evict ts_of (now - METRIC_WINDOW_MS) (series map x ++ [s]).
Proof. unfold series, pushHist. rewrite lookup_insert_eq. reflexivity. Qed.

Lemma series_pushHist_ne {A} (ts_of : A → option Z) map x y (s : A) now :
  x ≠ y → series (pushHist ts_of map x s now) y = series map y.
Proof. intros H. unfold series, pushHist. rewrite lookup_insert_ne by exact H. reflexivity. Qed.

(** [pushHist] keeps a telemetry history ordered when the sample is stamped
    no earlier than everything stored. *)
Lemma pushHist_ordered T T' map x (s : TelemetrySample) now :
  (∀ y, ordered_upto T (series map y)) →
  T ≤ th_ts s → th_ts s ≤ T' →
  ∀ y, ordered_upto T' (series (pushHist th_ts_of map x s now) y).
Proof.
  intros Hmap Hlo Hhi y. destruct (decide (x = y)) as [<- | Hne].
  - rewrite series_pushHist.
    eapply ordered_upto_suffix; [apply evict_suffix |].
    eapply ordered_upto_push; eauto.
  - rewrite series_pushHist_ne by exact Hne.
    eapply ordered_upto_mono; [| apply Hmap]. lia.
Qed.

Lemma th_ts_telemetry_sample st rec : th_ts (telemetry_sample st rec) = tr_ts rec.
Proof. reflexivity. Qed.

(** Only the two telemetry paths write [telemetryHist], both through
    [ingest_telemetry] with the first two clock readings. *)
Lemma step_telemetryHist st i o :
  telemetryHist (step st i o).1 = telemetryHist st
  ∨ ∃ rec, tr_ts rec = clock o 0%nat
           ∧ telemetryHist (step st i o).1
             = telemetryHist (ingest_telemetry st rec (clock o 1%nat)).
Proof.
  destruct i as [sid | sid r | d | t]; unfold step.
  - case_match; cbn; auto.
  - case_match; [| cbn; auto]. destruct r; unfold handle.
    + cbn; auto.
    + unfold on_identify, reject, accept.
      pose proof (close_stores st sid (fetch o 0%nat)) as [(_ & _ & _ & Hc0 & _) _].
      pose proof (close_stores st sid (fetch o 1%nat)) as [(_ & _ & _ & Hc1 & _) _].
      repeat case_match; cbn in *; simplify_eq; auto.
      all: match goal with
           | H : tryAutoPair ?s ?x = _ |- _ =>
               pose proof (tryAutoPair_stores s x) as (_ & (_ & _ & _ & Ht & _) & _);
               rewrite H in Ht; cbn in Ht; rewrite Ht; auto
           end.
    + unfold on_metrics_subscribe; case_match; cbn; auto.
    + unfold on_metrics_unsubscribe; case_match; cbn; auto.
    + cbn; auto.
    + unfold on_pair_with; repeat case_match; cbn; auto.
    + unfold on_signal, intercept_quality; repeat case_match; cbn; auto.
    + unfold on_control; repeat case_match; cbn; auto.
    + unfold on_message; repeat case_match; cbn; auto.
    + unfold on_battery; repeat case_match; cbn; auto.
    + unfold on_telemetry. destruct payload as [| d]; [left; reflexivity |].
      case_match; [left; reflexivity |].
      right. eexists (telemetry_rec _ d "none" (clock o 0%nat)). split; reflexivity.
    + unfold on_webrtc_quality; repeat case_match; cbn; auto.
    + cbn; auto.
    + left. pose proof (close_stores st sid (fetch o 0%nat)) as [(_ & _ & _ & Hc & _) _].
      exact Hc.
  - unfold desktop_telemetry. case_match; [left; reflexivity |].
    right. eexists (telemetry_rec _ d "other" (clock o 0%nat)). split; reflexivity.
  - destruct t; cbn; auto.
Qed.

Lemma step_hist_ordered T T' st i o :
  monotone_clock o → (∀ k, T ≤ clock o k ≤ T') →
  hist_ordered_upto T st → hist_ordered_upto T' (step st i o).1.
Proof.
  intros Hmono Hbetween Hst.
  destruct (step_telemetryHist st i o) as [Heq | (rec & Hts & Heq)];
    unfold hist_ordered_upto; rewrite Heq.
  - intros x. eapply ordered_upto_mono; [| apply Hst].
    specialize (Hbetween 0%nat). lia.
  - cbn. apply (pushHist_ordered T T'); [exact Hst | |].
    all: rewrite th_ts_telemetry_sample, Hts; apply Hbetween.
Qed.

Lemma run_hist_ordered T T' trace :
  timed T trace T' →
  ∀ st, hist_ordered_upto T st → hist_ordered_upto T' (run st trace).1.
Proof.
  induction 1 as [T | T T' T'' i o rest Hmono Hbetween _ IH]; intros st Hst.
  - exact Hst.
  - rewrite run_cons. cbn. apply IH. eapply step_hist_ordered; eauto.
Qed.

Lemma initial_hist_ordered T : hist_ordered_upto T initial.
Proof. intros x. apply ordered_upto_nil. Qed.

Lemma truthy_Some x : x ≠ ""%string → Js.truthy (Some x) = true.
Proof.
  intros H. cbn. destruct (String.eqb_spec x ""); [contradiction | reflexivity].
Qed.

Lemma or_else_Some x d : x ≠ ""%string → Js.or_else (Some x) d = x.
Proof.
  intros H. cbn. destruct (String.eqb_spec x ""); [contradiction | reflexivity].
Qed.

(** What an ingest for [x] does to the history. *)
Lemma ingest_step st i o x :
  ingests st i x →
  ∃ rec, tr_xrId rec = x ∧ tr_ts rec = clock o 0%nat
         ∧ telemetryHist (step st i o).1
           = pushHist th_ts_of (telemetryHist st) x (telemetry_sample st rec)
                      (clock o 1%nat).
Proof.
  intros [Hx Hi]. destruct i as [sid | sid [] | d | t]; try contradiction.
  - destruct payload as [| d]; [contradiction |]. destruct Hi as [Hconn Hid].
    unfold step. rewrite Hconn. unfold handle, on_telemetry. rewrite Hid.
    rewrite truthy_Some, or_else_Some by exact Hx. cbn [negb].
    eexists (telemetry_rec x d "none" (clock o 0%nat)). split_and!; reflexivity.
  - unfold step, desktop_telemetry. cbn in Hi. rewrite Hi.
    rewrite truthy_Some, or_else_Some by exact Hx. cbn [negb].
    eexists (telemetry_rec x d "other" (clock o 0%nat)). split_and!; reflexivity.
Qed.

(** C5. Along any run of the server whose clock never goes backwards,
    right after a telemetry ingest for an identity (over the socket or over
    HTTP) that identity's series holds no entry older than 24 h before the
    ingest's clock reading, however long the run and however far apart its
    ingests are. Retention has no entry count: when nothing in the series
    is older than the window, the ingest keeps every entry and adds one. *)
Theorem telemetry_series_within_window
    (trace : list (Input * Oracle)) (T0 T : Z) (i : Input) (o : Oracle) (x : string) :
  timed T0 trace T →
  monotone_clock o →
  (∀ k, T ≤ clock o k) →
  let st := (run initial trace).1 in
  ingests st i x →
  let st' := (step st i o).1 in
  let now := clock o 1%nat in
  within_window now (series (telemetryHist st') x)
  ∧ (within_window now (series (telemetryHist st) x) →
     now - METRIC_WINDOW_MS ≤ clock o 0%nat →
     length (series (telemetryHist st') x) = S (length (series (telemetryHist st) x))
     ∧ series (telemetryHist st) x `prefix_of` series (telemetryHist st') x).
Proof.
  intros Htimed Hmono Hlate st Hingest st' now. unfold now. clear now.
  destruct (ingest_step st i o x Hingest) as (rec & Hid & Hts & Hhist).
  assert (Hord : ordered_upto (clock o 0%nat)
                   (series (telemetryHist st) x ++ [telemetry_sample st rec])).
  { eapply ordered_upto_push.
    - apply (run_hist_ordered T0 T trace Htimed initial (initial_hist_ordered T0)).
    - rewrite th_ts_telemetry_sample, Hts. apply Hlate.
    - rewrite th_ts_telemetry_sample, Hts. lia. }
  unfold st'. rewrite Hhist, series_pushHist. split.
  - apply evict_sorted_fresh, Hord.
  - intros Hfresh Hsample.
    assert (Hkeep : evict th_ts_of (clock o 1%nat - METRIC_WINDOW_MS)
                      (series (telemetryHist st) x ++ [telemetry_sample st rec])
                    = series (telemetryHist st) x ++ [telemetry_sample st rec]).
    { destruct (series (telemetryHist st) x) as [| a r] eqn:E.
      - apply evict_head_fresh. rewrite th_ts_telemetry_sample, Hts. exact Hsample.
      - apply evict_head_fresh. inversion Hfresh; assumption. }
    rewrite Hkeep. split.
    + rewrite length_app. simpl. lia.
    + apply prefix_app_r. reflexivity.
Qed.

End TelemetryWindow.

(** C5 on a device that reports once, then again two days later: the first
    entry is gone after the second ingest. *)
Lemma telemetry_series_within_window_witness :
  let trace := [(Hub.Connection "s1", Samples.at_ms 1000);
                (Hub.FromSocket "s1" (Hub.Telemetry (Hub.Object (Samples.ping "XR-1234"))),
                 Samples.at_ms 2000)] in
  let o := Samples.at_ms (2000 + Samples.two_days) in
  let i := Hub.FromSocket "s1" (Hub.Telemetry (Hub.Object (Samples.ping "XR-1234"))) in
  Props.within_window (2000 + Samples.two_days)
    (Metrics.series (Hub.telemetryHist (Hub.step (Hub.run Hub.initial trace).1 i o).1)
                    "XR-1234").
Proof.
  intros trace o i.
  refine (proj1 (telemetry_series_within_window trace 0 2000 i o "XR-1234" _ _ _ _)).
  - apply (Props.timed_cons 0 1000 2000).
    + intros a b _. cbn. lia.
    + intros k. cbn. lia.
    + apply (Props.timed_cons 1000 2000 2000).
      * intros a b _. cbn. lia.
      * intros k. cbn. lia.
      * apply Props.timed_nil.
  - intros a b _. cbn. lia.
  - intros k. cbn. unfold Samples.two_days, Metrics.METRIC_WINDOW_MS. lia.
  - split; [discriminate |]. split; vm_compute; reflexivity.
Defined.

(** ** Socket.IO's adapter tables *)

Section AdapterFacts.
Import Hub Js.

Lemma map_get_set_eq {V} k (v : V) m : map_get k (map_set k v m) = Some v.
Proof.
  induction m as [| [k' v'] m IH]; simpl.
  - rewrite String.eqb_refl. reflexivity.
  - destruct (String.eqb_spec k k') as [-> | Hne]; simpl.
    + rewrite String.eqb_refl. reflexivity.
    + destruct (String.eqb_spec k k'); [contradiction | exact IH].
Qed.

Lemma map_get_set_ne {V} k k' (v : V) m :
  k ≠ k' → map_get k (map_set k' v m) = map_get k m.
Proof.
  intros Hne. induction m as [| [k'' v''] m IH]; simpl.
  - destruct (String.eqb_spec k k'); [contradiction | reflexivity].
  - destruct (String.eqb_spec k' k'') as [-> | Hne']; simpl.
    + destruct (String.eqb_spec k k''); [contradiction | reflexivity].
    + destruct (String.eqb_spec k k''); [reflexivity | exact IH].
Qed.

Lemma map_get_delete_eq {V} k (m : list (string * V)) : map_get k (map_delete k m) = None.
Proof.
  unfold map_delete. induction m as [| [k' v'] m IH]; simpl; [reflexivity |].
  rewrite filter_cons. simpl. destruct (decide (k' ≠ k)) as [Hne | Heq]; simpl.
  - destruct (String.eqb_spec k k'); [congruence | exact IH].
  - exact IH.
Qed.

Lemma map_get_delete_ne {V} k k' (m : list (string * V)) :
  k ≠ k' → map_get k (map_delete k' m) = map_get k m.
Proof.
  intros Hne. unfold map_delete. induction m as [| [k'' v''] m IH]; simpl; [reflexivity |].
  rewrite filter_cons. simpl. destruct (decide (k'' ≠ k')) as [Hne' | Heq]; simpl.
  - destruct (String.eqb_spec k k''); [reflexivity | exact IH].
  - apply dec_stable in Heq. subst k''.
    destruct (String.eqb_spec k k'); [contradiction | exact IH].
Qed.

Lemma elem_of_set_delete x y (l : list string) :
  y ∈ set_delete x l ↔ y ∈ l ∧ y ≠ x.
Proof. unfold set_delete. rewrite list_elem_of_filter. tauto. Qed.

Lemma elem_of_set_add x y (l : list string) :
  y ∈ set_add x l ↔ y ∈ l ∨ y = x.
Proof.
  unfold set_add. case_bool_decide as Hin.
  - split; [auto | intros [H | ->]; assumption].
  - rewrite elem_of_app, list_elem_of_singleton. tauto.
Qed.

Local Abbreviation members rooms r := (default [] (map_get r rooms)).

(** [_del(room, id)] removes [id] from [room] and nothing else. *)
Lemma members_adapter_del rooms r r' sid y :
  y ∈ members (adapter_del r' sid rooms) r
  ↔ y ∈ members rooms r ∧ (r = r' → y ≠ sid).
Proof.
  unfold adapter_del. destruct (map_get r' rooms) as [mem |] eqn:Hget.
  - destruct (decide (r = r')) as [-> | Hne].
    + rewrite Hget. simpl.
      destruct (set_delete sid mem) as [| z zs] eqn:Hdel.
      * rewrite map_get_delete_eq. simpl.
        assert (Hiff := elem_of_set_delete sid y mem). rewrite Hdel in Hiff.
        split; [intros H; inversion H | intros [H1 H2]; apply Hiff; auto].
      * rewrite map_get_set_eq. simpl. rewrite <- Hdel, elem_of_set_delete. tauto.
    + destruct (set_delete sid mem).
      * rewrite map_get_delete_ne by exact Hne. tauto.
      * rewrite map_get_set_ne by exact Hne. tauto.
  - destruct (decide (r = r')) as [-> | Hne]; [| tauto].
    rewrite Hget. simpl. split; [intros H; inversion H | intros [H _]; inversion H].
Qed.

Lemma members_adapter_del_all rs rooms r sid y :
  y ∈ members (foldl (λ acc r', adapter_del r' sid acc) rooms rs) r
  ↔ y ∈ members rooms r ∧ (r ∈ rs → y ≠ sid).
Proof.
  revert rooms. induction rs as [| r' rs IH]; intros rooms; simpl.
  - split; [intros H; split; [exact H | intros Hin; inversion Hin] | tauto].
  - rewrite IH, members_adapter_del, elem_of_cons. tauto.
Qed.

(** After [delAll], a socket is in none of the rooms it had joined, and the
    membership of every other socket is what it was. *)
Lemma room_members_leaveAll st sid r y :
  y ∈ room_members (leaveAll sid st) r
  ↔ y ∈ room_members st r ∧ (r ∈ rooms_of st sid → y ≠ sid).
Proof. unfold room_members, leaveAll. cbn. apply members_adapter_del_all. Qed.

Lemma room_members_close st sid env r :
  room_members (close st sid env).1 r = room_members (leaveAll sid st) r.
Proof.
  unfold close, on_disconnect, unregister, room_members.
  repeat case_match; reflexivity.
Qed.

Lemma rooms_of_leaveAll_ne st sid y :
  y ≠ sid → rooms_of (leaveAll sid st) y = rooms_of st y.
Proof.
  intros Hne. unfold rooms_of, leaveAll. cbn. rewrite map_get_delete_ne by exact Hne.
  reflexivity.
Qed.

End AdapterFacts.

(** ** Closing a connection: the peer is told first *)

Section PeerLeft.
Import Hub Js.

Lemma data_of_connected st sid x :
  d_xrId (data_of st sid) = Some x → connected st sid = true.
Proof.
  unfold data_of, connected. destruct (get_socket st sid); [intros _ | discriminate].
  apply bool_decide_eq_true. eauto.
Qed.

Lemma on_disconnecting_notifies st sid x roomId :
  d_xrId (data_of st sid) = Some x → x ≠ ""%string →
  roomId ∈ rooms_of st sid → String.prefix "pair:" roomId = true →
  ∃ l1 l2, on_disconnecting st sid
           = l1 ++ [Emit (ToRoomExcept roomId sid) (peer_left x roomId)] ++ l2.
Proof.
  intros Hx Hne Hin Hpair. unfold on_disconnecting. rewrite Hx.
  rewrite truthy_Some, or_else_Some by exact Hne. cbn [negb].
  apply list_elem_of_split in Hin as (r1 & r2 & ->).
  rewrite flat_map_app. simpl. rewrite Hpair. eauto.
Qed.

Lemma leave_notifications_notifies st sid roomId :
  roomId ∈ rooms_of st sid → sid ∈ room_members st roomId →
  ∃ l1 l2, leave_notifications st sid = l1 ++ [LeaveRoom roomId sid] ++ l2.
Proof.
  intros Hin Hmem. unfold leave_notifications.
  assert (H : roomId ∈ filter (λ r, sid ∈ room_members st r) (rooms_of st sid)).
  { apply list_elem_of_filter. auto. }
  apply list_elem_of_split in H as (r1 & r2 & ->).
  rewrite map_app. simpl. eauto.
Qed.

Lemma close_without_identity_silent st sid env :
  truthy (d_xrId (data_of st sid)) = false →
  forallb (λ e, negb (Props.is_peer_left e)) (close st sid env).2 = true.
Proof.
  intros Hx. unfold close.
  destruct (on_disconnect (remove_socket sid (leaveAll sid st)) sid (data_of st sid) env)
    as [st2 out] eqn:E.
  cbn [snd]. unfold on_disconnecting. rewrite Hx. cbn [negb app].
  unfold on_disconnect in E. injection E as _ <-.
  rewrite !forallb_app. unfold leave_notifications, broadcastDeviceList. cbn [forallb].
  rewrite andb_true_r. apply forallb_forall. intros e He.
  apply in_map_iff in He as (r & <- & _). reflexivity.
Qed.

(** C3 (as the code has it). A connected peer shares a pair room with a
    connection that closes. The closing connection is removed from the room
    and the peer stays. When the closing connection carries a non-empty
    identity, the trace of the closing sequence has the [peer_left] emit for
    that room, addressed to the room minus the closing socket and carrying
    the identity and the room id, strictly before the adapter's removal of
    the closing socket from that room; the emit is issued in the state in
    which the socket is still a member, so the peer is among its recipients.
    When the closing connection carries no identity (unset or empty), the
    closing sequence emits no [peer_left] at all. *)
Theorem peer_left_precedes_room_removal
    (st : ServerState) (sid : string) (env : FetchEnv) (roomId peer : string) :
  roomId ∈ rooms_of st sid → String.prefix "pair:" roomId = true →
  sid ∈ room_members st roomId →
  peer ∈ room_members st roomId → peer ≠ sid → connected st peer = true →
  (sid ∉ room_members (close st sid env).1 roomId)
  ∧ (peer ∈ room_members (close st sid env).1 roomId)
  ∧ (peer ∈ deliver st (ToRoomExcept roomId sid))
  ∧ (∀ x, d_xrId (data_of st sid) = Some x → x ≠ ""%string →
       ∃ before between after,
         (close st sid env).2
         = before ++ [Emit (ToRoomExcept roomId sid) (peer_left x roomId)]
           ++ between ++ [LeaveRoom roomId sid] ++ after
         ∧ (LeaveRoom roomId sid ∉ before))
  ∧ (truthy (d_xrId (data_of st sid)) = false →
     forallb (λ e, negb (Props.is_peer_left e)) (close st sid env).2 = true
     ∧ LeaveRoom roomId sid ∈ (close st sid env).2).
Proof.
  intros Hin Hpair Hmem Hpeer Hdiff Hconn.
  destruct (leave_notifications_notifies st sid roomId Hin Hmem) as (k1 & k2 & Hl).
  split_and!.
  - rewrite room_members_close, room_members_leaveAll. tauto.
  - rewrite room_members_close, room_members_leaveAll. auto.
  - cbn. apply list_elem_of_filter. auto.
  - intros x Hx Hne.
    destruct (on_disconnecting_notifies st sid x roomId Hx Hne Hin Hpair) as (l1 & l2 & Hn).
    exists l1, (l2 ++ k1),
      (k2 ++ [Closed sid] ++ (on_disconnect (remove_socket sid (leaveAll sid st)) sid
                                            (data_of st sid) env).2).
    split.
    + unfold close.
      destruct (on_disconnect (remove_socket sid (leaveAll sid st)) sid (data_of st sid) env)
        as [st2 out] eqn:E.
      cbn [snd]. rewrite Hn, Hl. rewrite <- !app_assoc. reflexivity.
    + intros Hbad.
      assert (Hall : Forall (λ e, ∃ r, e = Emit (ToRoomExcept r sid)
                                            (peer_left (or_else (d_xrId (data_of st sid)) "") r))
                            (on_disconnecting st sid)).
      { unfold on_disconnecting. case_match; [constructor |].
        apply Forall_flat_map, Forall_forall. intros r _.
        case_match; repeat constructor. eauto. }
      rewrite Hn in Hall. apply Forall_app in Hall as [Hall _].
      rewrite Forall_forall in Hall. destruct (Hall _ Hbad) as [r Hr]. discriminate.
  - intros Hnone. split; [apply close_without_identity_silent, Hnone |].
    unfold close.
    destruct (on_disconnect (remove_socket sid (leaveAll sid st)) sid (data_of st sid) env)
      as [st2 out] eqn:E.
    cbn [snd]. rewrite Hl, !elem_of_app. right. left. right. left. left.
Qed.

End PeerLeft.

(** C3 on the paired headset closing: the desktop is told before the headset
    leaves the pair room. *)
Lemma peer_left_precedes_room_removal_witness :
  ∃ before between after,
    (Hub.close Samples.paired "s1" Samples.local_only).2
    = before
      ++ [Hub.Emit (Hub.ToRoomExcept Samples.pair_room "s1")
                   (Hub.peer_left "XR-1234" Samples.pair_room)]
      ++ between ++ [Hub.LeaveRoom Samples.pair_room "s1"] ++ after
    ∧ (Hub.LeaveRoom Samples.pair_room "s1" ∉ before)
    ∧ ("s2" ∈ Hub.deliver Samples.paired (Hub.ToRoomExcept Samples.pair_room "s1"))
    ∧ ("s1" ∉ Hub.room_members (Hub.close Samples.paired "s1" Samples.local_only).1
                               Samples.pair_room)
    ∧ ("s2" ∈ Hub.room_members (Hub.close Samples.paired "s1" Samples.local_only).1
                               Samples.pair_room).
Proof.
  destruct (peer_left_precedes_room_removal Samples.paired "s1" Samples.local_only
              Samples.pair_room "s2") as (Hgone & Hstays & Hrecv & Hsome & _).
  - vm_compute. repeat constructor.
  - vm_compute. reflexivity.
  - vm_compute. repeat constructor.
  - vm_compute. repeat constructor.
  - discriminate.
  - vm_compute. reflexivity.
  - destruct (Hsome "XR-1234"%string) as (before & between & after & Heq & Hnot).
    + vm_compute. reflexivity.
    + discriminate.
    + exists before, between, after. split_and!; assumption.
Defined.

(** C3, against the claim as worded: a room member whose connection carries
    no identity when it closes (here the paired headset after [join('')])
    is removed from the pair room without any [peer_left]: the
    "disconnecting" handler returns at [if (!xrId) return], although the
    desktop is connected and in the room. *)
Lemma room_member_without_identity_leaves_unannounced :
  let closing := Hub.close Samples.nameless_member "s1" Samples.local_only in
  Hub.room_members Samples.nameless_member Samples.pair_room = ["s2"; "s1"]%string
  ∧ Hub.connected Samples.nameless_member "s2" = true
  ∧ Hub.d_xrId (Hub.data_of Samples.nameless_member "s1") = Some ""%string
  ∧ Hub.on_disconnecting Samples.nameless_member "s1" = []
  ∧ forallb (λ e, negb (Props.is_peer_left e)) closing.2 = true
  ∧ Hub.LeaveRoom Samples.pair_room "s1" ∈ closing.2
  ∧ Hub.room_members closing.1 Samples.pair_room = ["s2"%string].
Proof.
  cbv zeta. split_and!; try (vm_compute; reflexivity).
  vm_compute. do 1 right. left.
Qed.

(** ** The duplicate guard under a fan-out timeout *)

Section FanoutTimeout.
Import Hub Props Js.

Lemma get_socket_update_data st s' f sid :
  get_socket (update_data s' f st) sid
  = (λ sk, if String.eqb (s_id sk) s' then mkSocket (s_id sk) (f (s_data sk)) else sk)
    <$> get_socket st sid.
Proof.
  unfold get_socket, update_data. cbn. induction (sockets st) as [| a l IH]; [reflexivity |].
  cbn [map List.find].
  destruct (String.eqb (s_id a) s') eqn:E1; cbn [s_id];
    destruct (String.eqb (s_id a) sid) eqn:E2; cbn [fmap option_fmap option_map];
    rewrite ?E1; auto.
Qed.

Lemma data_of_update_data st s' f sid :
  data_of (update_data s' f st) sid
  = if String.eqb sid s' && connected st sid then f (data_of st sid) else data_of st sid.
Proof.
  unfold data_of, connected. rewrite get_socket_update_data.
  destruct (get_socket st sid) as [sk |] eqn:E; cbn.
  - assert (Hid : s_id sk = sid).
    { unfold get_socket in E. apply List.find_some in E as [_ E].
      apply String.eqb_eq in E. exact E. }
    rewrite Hid. destruct (String.eqb sid s'); reflexivity.
  - destruct (String.eqb sid s'); reflexivity.
Qed.

Lemma d_xrId_update_data st s' f sid :
  (∀ d, d_xrId (f d) = d_xrId d) →
  d_xrId (data_of (update_data s' f st) sid) = d_xrId (data_of st sid).
Proof.
  intros Hf. rewrite data_of_update_data. case_match; [apply Hf | reflexivity].
Qed.

Lemma tryAutoPair_xrId st deviceId sid :
  d_xrId (data_of (tryAutoPair st deviceId).1.1 sid) = d_xrId (data_of st sid).
Proof.
  unfold tryAutoPair. repeat case_match; cbn [fst]; try reflexivity.
  rewrite !d_xrId_update_data by reflexivity. reflexivity.
Qed.

(** A fetch that is fulfilled after the guard is ignored. *)
Lemma safeFetchSockets_late st env t remote :
  outcome env = Resolves t remote → GUARD_MS < t →
  safeFetchSockets st env = local_sockets st.
Proof.
  intros Hout Hlate. unfold safeFetchSockets, race. rewrite Hout.
  destruct (Z.ltb_spec t GUARD_MS); [lia |]. destruct (supportsGlobal env); reflexivity.
Qed.

Lemma safeFetchSockets_in_time st env t remote :
  supportsGlobal env = true → outcome env = Resolves t remote → t < GUARD_MS →
  safeFetchSockets st env = merge_by_id (local_sockets st) remote.
Proof.
  intros Hsup Hout Hin. unfold safeFetchSockets, race. rewrite Hsup, Hout. cbn.
  destruct (Z.ltb_spec t GUARD_MS); [reflexivity | lia].
Qed.

Local Abbreviation ins := (λ (byId : list (string * SocketSnap)) s, map_set (snap_id s) s byId).

Lemma merge_untouched k l acc :
  (∀ s, s ∈ l → snap_id s ≠ k) → map_get k (foldl ins acc l) = map_get k acc.
Proof.
  revert acc. induction l as [| a l IH]; intros acc Hl; [reflexivity |].
  cbn. rewrite IH.
  - apply map_get_set_ne. intros ->. apply (Hl a); [left | reflexivity].
  - intros s Hs. apply Hl. right. exact Hs.
Qed.

Lemma merge_keeps_unique s l acc :
  s ∈ l → (∀ s', s' ∈ l → snap_id s' = snap_id s → s' = s) →
  map_get (snap_id s) (foldl ins acc l) = Some s.
Proof.
  revert acc. induction l as [| a l IH]; intros acc Hin Huniq; [inversion Hin |].
  cbn. destruct (decide (snap_id s ∈ map snap_id l)) as [Hl | Hnl].
  - apply list_elem_of_fmap in Hl as (s' & Heq & Hs').
    assert (s' = s) as -> by (apply Huniq; [right; exact Hs' | symmetry; exact Heq]).
    apply IH; [exact Hs' |]. intros s'' Hs''. apply Huniq. right. exact Hs''.
  - assert (Hfresh : ∀ s', s' ∈ l → snap_id s' ≠ snap_id s).
    { intros s' Hs' Heq. apply Hnl. rewrite <- Heq. apply list_elem_of_fmap. eauto. }
    apply elem_of_cons in Hin as [-> | Hin].
    + rewrite merge_untouched by exact Hfresh. apply map_get_set_eq.
    + exfalso. apply (Hfresh s Hin). reflexivity.
Qed.

Lemma map_get_elem {V} k (v : V) m : map_get k m = Some v → v ∈ map snd m.
Proof.
  induction m as [| [k' v'] m IH]; cbn; [discriminate |].
  destruct (String.eqb k k').
  - intros [= ->]. left.
  - intros H. right. apply IH, H.
Qed.

Lemma find_holder_found all sid x dup :
  dup ∈ all → snap_id dup ≠ sid → d_xrId (snap_data dup) = Some x →
  ∃ h, find_holder all sid x = Some h
       ∧ snap_id h ≠ sid ∧ d_xrId (snap_data h) = Some x.
Proof.
  intros Hin Hid Hx. unfold find_holder.
  destruct (List.find _ all) as [h |] eqn:E.
  - exists h. apply List.find_some in E as [_ E].
    apply andb_true_iff in E as [E1 E2]. apply bool_decide_eq_true in E2.
    split_and!; [reflexivity | | exact E2].
    intros Heq. rewrite Heq, String.eqb_refl in E1. discriminate.
  - apply list_elem_of_In in Hin. eapply List.find_none in E; [| exact Hin].
    apply andb_false_iff in E as [E | E].
    + apply negb_false_iff, String.eqb_eq in E. contradiction.
    + apply bool_decide_eq_false in E. contradiction.
Qed.

Lemma tryAutoPair_quiet st deviceId :
  forallb (λ e, negb (is_rejection e)) (tryAutoPair st deviceId).1.2 = true.
Proof. unfold tryAutoPair. repeat case_match; reflexivity. Qed.

(** What acceptance leaves behind. *)
Lemma accept_registered st sid deviceName x o :
  connected st sid = true →
  let result := accept st sid deviceName x o in
  d_xrId (data_of result.1 sid) = Some x
  ∧ clients result.1 !! x = Some sid
  ∧ onlineDevices result.1 !! x = Some sid
  ∧ forallb (λ e, negb (is_rejection e)) result.2 = true.
Proof.
  intros Hconn. unfold accept.
  set (f := λ d, mkData (Some x) (Some (or_else deviceName "Unknown"))
                        (Some (clock o 0%nat)) (d_roomId d)).
  set (st1 := update_data sid f st).
  set (st2 := socket_join sid (roomOf x) st1).
  set (st3 := set_registry _ _ _ st2).
  assert (Hdata : d_xrId (data_of st3 sid) = Some x).
  { change (data_of st3 sid) with (data_of st1 sid). unfold st1.
    rewrite data_of_update_data, String.eqb_refl, Hconn. reflexivity. }
  assert (Hc : clients st3 !! x = Some sid) by apply lookup_insert_eq.
  assert (Ho : onlineDevices st3 !! x = Some sid) by apply lookup_insert_eq.
  destruct (truthy (d_roomId (data_of st3 sid))).
  - cbn [fst snd]. split_and!; auto.
  - pose proof (tryAutoPair_xrId st3 x sid) as Hx.
    pose proof (tryAutoPair_stores st3 x) as ((Hc' & Ho' & _) & _).
    pose proof (tryAutoPair_quiet st3 x) as Hq.
    destruct (tryAutoPair st3 x) as [[st4 out] b]. cbn [fst snd] in *.
    split_and!; [congruence | congruence | congruence |].
    rewrite forallb_app. cbn [forallb]. rewrite Hq. reflexivity.
Qed.

Lemma safeFetchSockets_missed st env remote :
  misses_guard (outcome env) remote → safeFetchSockets st env = local_sockets st.
Proof.
  intros Hmiss. unfold safeFetchSockets, race.
  destruct (outcome env) as [t l | t |]; cbn in Hmiss.
  - destruct Hmiss as [Hlate _].
    destruct (Z.ltb_spec t GUARD_MS); [lia |]. destruct (supportsGlobal env); reflexivity.
  - destruct (supportsGlobal env); reflexivity.
  - destruct (supportsGlobal env); reflexivity.
Qed.

Lemma find_holder_none all sid x :
  (∀ s, s ∈ all → snap_id s ≠ sid → d_xrId (snap_data s) ≠ Some x) →
  find_holder all sid x = None.
Proof.
  unfold find_holder. induction all as [| a l IH]; intros H; cbn [List.find]; [reflexivity |].
  destruct (String.eqb_spec (snap_id a) sid) as [Heq | Hne]; cbn [negb andb].
  - apply IH. intros s Hs. apply H. right. exact Hs.
  - rewrite bool_decide_eq_false_2 by (apply H; [left | exact Hne]).
    apply IH. intros s Hs. apply H. right. exact Hs.
Qed.

(** C4. When the cluster-wide fetch has not been fulfilled by the time the
    750 ms guard fires (it is fulfilled later, is rejected, or never
    settles), [safeFetchSockets] returns this process's sockets and nothing
    else: one snapshot, id and data, for every socket connected to this
    process, in connection order, so the holder connected to another process
    is not in it. An identify whose identity no other local socket carries
    is then accepted and registered, without any rejection output, although
    that remote socket holds the identity: the very same identify is
    rejected (against that holder) as soon as the fetch is fulfilled within
    the guard. *)
Theorem identify_succeeds_on_local_view_after_timeout
    (st : ServerState) (sid : string) (deviceName : option string) (x : string)
    (o : Oracle) (remote : list SocketSnap) (dup : SocketSnap) :
  connected st sid = true → x ≠ ""%string →
  supportsGlobal (fetch o 0%nat) = true →
  misses_guard (outcome (fetch o 0%nat)) remote →
  dup ∈ remote → snap_id dup ≠ sid → d_xrId (snap_data dup) = Some x →
  (∀ s', s' ∈ local_sockets st ++ remote → snap_id s' = snap_id dup → s' = dup) →
  (∀ s, s ∈ sockets st → s_id s ≠ sid → d_xrId (s_data s) ≠ Some x) →
  let result := on_identify st sid deviceName (Some x) o in
  let view := safeFetchSockets st (fetch o 0%nat) in
  view = map (λ s, mkSnap (s_id s) (s_data s)) (sockets st)
  ∧ view = local_sockets st
  ∧ ¬ (dup ∈ view)
  ∧ result = accept st sid deviceName x o
  ∧ d_xrId (data_of result.1 sid) = Some x
  ∧ clients result.1 !! x = Some sid
  ∧ onlineDevices result.1 !! x = Some sid
  ∧ forallb (λ e, negb (is_rejection e)) result.2 = true
  ∧ ∀ t', t' < GUARD_MS →
      let o' := with_first_fetch (mkFetch true (Resolves t' remote)) o in
      ∃ holder, d_xrId (snap_data holder) = Some x ∧ snap_id holder ≠ sid
                ∧ on_identify st sid deviceName (Some x) o' = reject st sid x holder o'.
Proof.
  intros Hconn Hx Hsup Hmiss Hdup Hid Hholds Huniq Hnolocal result view.
  assert (Hfetch : view = local_sockets st)
    by (eapply safeFetchSockets_missed; eauto).
  assert (Hlocal : find_holder (local_sockets st) sid x = None).
  { apply find_holder_none. intros s (s0 & -> & Hs0)%list_elem_of_fmap. cbn.
    apply Hnolocal, Hs0. }
  assert (Hres : result = accept st sid deviceName x o).
  { unfold result, on_identify. rewrite truthy_Some, or_else_Some by exact Hx. cbn [negb].
    fold view. rewrite Hfetch, Hlocal. reflexivity. }
  split; [rewrite Hfetch; reflexivity |]. split; [exact Hfetch |].
  split.
  { rewrite Hfetch. intros (s0 & Heq & Hs0)%list_elem_of_fmap.
    apply (Hnolocal s0 Hs0).
    - rewrite Heq in Hid. exact Hid.
    - rewrite Heq in Hholds. exact Hholds. }
  split; [exact Hres |].
  rewrite Hres.
  destruct (accept_registered st sid deviceName x o Hconn) as (H1 & H2 & H3 & H4).
  split_and!; [exact H1 | exact H2 | exact H3 | exact H4 |].
  intros t' Hin o'.
  assert (Hall : safeFetchSockets st (fetch o' 0%nat) = merge_by_id (local_sockets st) remote)
    by (eapply safeFetchSockets_in_time; [reflexivity | reflexivity | exact Hin]).
  assert (Hmerged : dup ∈ merge_by_id (local_sockets st) remote).
  { unfold merge_by_id. eapply map_get_elem, merge_keeps_unique; [| exact Huniq].
    apply elem_of_app. right. exact Hdup. }
  destruct (find_holder_found _ sid x dup Hmerged Hid Hholds) as (h & Hfind & Hh1 & Hh2).
  exists h. split_and!; [exact Hh2 | exact Hh1 |].
  unfold on_identify. rewrite truthy_Some, or_else_Some by exact Hx. cbn [negb].
  rewrite Hall, Hfind. reflexivity.
Qed.

End FanoutTimeout.

(** C4 on a desktop of this process that claims XR-1234 while the headset
    that holds it is connected to another process: the fan-out takes
    900 ms, or never answers. In both cases the view is the one local
    socket and the claim is registered. *)
Lemma identify_succeeds_on_local_view_after_timeout_witness :
  let late := Hub.on_identify Samples.one_socket "s2" (Some "Desktop") (Some "XR-1234")
                              (Samples.fanout 900 [Samples.remote_headset]) in
  let never := Hub.on_identify Samples.one_socket "s2" (Some "Desktop") (Some "XR-1234")
                               Samples.fanout_hangs in
  (Hub.safeFetchSockets Samples.one_socket
     (Hub.fetch (Samples.fanout 900 [Samples.remote_headset]) 0%nat)
   = [Hub.mkSnap "s2" Hub.noData]
   ∧ Hub.d_xrId (Hub.data_of late.1 "s2") = Some "XR-1234"
   ∧ Hub.clients late.1 !! "XR-1234" = Some "s2"
   ∧ forallb (λ e, negb (Props.is_rejection e)) late.2 = true)
  ∧ (Hub.safeFetchSockets Samples.one_socket (Hub.fetch Samples.fanout_hangs 0%nat)
     = [Hub.mkSnap "s2" Hub.noData]
     ∧ Hub.d_xrId (Hub.data_of never.1 "s2") = Some "XR-1234"
     ∧ Hub.clients never.1 !! "XR-1234" = Some "s2"
     ∧ forallb (λ e, negb (Props.is_rejection e)) never.2 = true).
Proof.
  intros late never.
  assert (Huniq : ∀ s', s' ∈ Hub.local_sockets Samples.one_socket ++ [Samples.remote_headset] →
                        Hub.snap_id s' = Hub.snap_id Samples.remote_headset →
                        s' = Samples.remote_headset).
  { intros s' Hs' Heq. vm_compute in Hs'.
    apply elem_of_cons in Hs' as [-> | Hs'].
    - discriminate Heq.
    - apply elem_of_cons in Hs' as [-> | Hs']; [reflexivity | inversion Hs']. }
  assert (Hnolocal : ∀ s, s ∈ Hub.sockets Samples.one_socket → Hub.s_id s ≠ "s2"%string →
                          Hub.d_xrId (Hub.s_data s) ≠ Some "XR-1234"%string).
  { intros s Hs _. vm_compute in Hs.
    apply elem_of_cons in Hs as [-> | Hs]; [discriminate | inversion Hs]. }
  split.
  - destruct (identify_succeeds_on_local_view_after_timeout Samples.one_socket "s2"
                (Some "Desktop") "XR-1234" (Samples.fanout 900 [Samples.remote_headset])
                [Samples.remote_headset] Samples.remote_headset)
      as (H1 & _ & _ & _ & H3 & H4 & _ & H6 & _); try exact Huniq; try exact Hnolocal.
    + vm_compute. reflexivity.
    + discriminate.
    + reflexivity.
    + split; [unfold Hub.GUARD_MS; lia | reflexivity].
    + left.
    + discriminate.
    + reflexivity.
    + split_and!; [exact H1 | exact H3 | exact H4 | exact H6].
  - destruct (identify_succeeds_on_local_view_after_timeout Samples.one_socket "s2"
                (Some "Desktop") "XR-1234" Samples.fanout_hangs
                [Samples.remote_headset] Samples.remote_headset)
      as (H1 & _ & _ & _ & H3 & H4 & _ & H6 & _); try exact Huniq; try exact Hnolocal.
    + vm_compute. reflexivity.
    + discriminate.
    + reflexivity.
    + exact I.
    + left.
    + discriminate.
    + reflexivity.
    + split_and!; [exact H1 | exact H3 | exact H4 | exact H6].
Defined.

(** ** The signal handler *)

Section Signals.
Import Hub Props Js Metrics.

Lemma store_quality_other hist deviceId samples o k y :
  deviceId ≠ y →
  series (store_quality hist deviceId samples o k) y = series hist y.
Proof.
  intros Hne. revert hist k. induction samples as [| s rest IH]; intros hist k; cbn.
  - reflexivity.
  - rewrite IH. apply series_pushHist_ne, Hne.
Qed.

(** The loop appends the samples in order; eviction only ever removes from
    the front. *)
Lemma store_quality_suffix hist deviceId samples o k :
  series (store_quality hist deviceId samples o k) deviceId
  `suffix_of` series hist deviceId ++ map stored_quality samples.
Proof.
  revert hist k. induction samples as [| s rest IH]; intros hist k; cbn.
  - rewrite app_nil_r. reflexivity.
  - etransitivity; [apply IH |].
    rewrite series_pushHist.
    replace (series hist deviceId ++ stored_quality s :: map stored_quality rest)
      with ((series hist deviceId ++ [stored_quality s]) ++ map stored_quality rest)
      by (rewrite <- app_assoc; reflexivity).
    apply suffix_app, evict_suffix.
Qed.

(** C7 (as the code has it). A quality-sample envelope on the signal channel
    never reaches the generic routing: nothing is relayed as a [signal], and
    sockets, rooms and registry are untouched. When the envelope names a
    device and carries at least one sample, the samples are pushed in order
    onto that device's quality history (each push followed by the front
    eviction of [pushHist]), the raw samples are emitted to the device's
    metrics room and to all dashboards; otherwise the envelope is dropped
    without any effect. *)
Theorem quality_envelope_intercepted
    (st : ServerState) (sid : string) (msg : SignalMsg) (o : Oracle) :
  sg_type msg = Some "webrtc_quality_update"%string →
  let samples := default [] (sg_samples msg) in
  let deviceId := or_else (sg_deviceId msg) "" in
  let result := on_signal st sid (Object msg) o in
  forallb (λ e, negb (is_signal e)) result.2 = true
  ∧ sockets result.1 = sockets st
  ∧ adapterRooms result.1 = adapterRooms st
  ∧ same_registry st result.1
  ∧ if truthy (sg_deviceId msg) && (0 <? length samples)%nat
    then qualityHist result.1 = store_quality (qualityHist st) deviceId samples o 0
         ∧ series (qualityHist result.1) deviceId
           `suffix_of` series (qualityHist st) deviceId ++ map stored_quality samples
         ∧ (∀ y, deviceId ≠ y → series (qualityHist result.1) y = series (qualityHist st) y)
         ∧ result.2 = [Emit (ToRoom (metricsRoom deviceId))
                            (metrics_update_quality_raw deviceId samples);
                       Emit ToAll (webrtc_quality_update_for deviceId samples)]
    else result = (st, []).
Proof.
  intros Htype samples deviceId result.
  unfold result, on_signal. rewrite Htype.
  rewrite bool_decide_eq_true_2 by reflexivity.
  unfold intercept_quality. fold samples. fold deviceId.
  destruct (truthy (sg_deviceId msg) && (0 <? length samples)%nat); cbn.
  - unfold same_registry. split_and!; try reflexivity.
    + apply store_quality_suffix.
    + intros y Hy. apply store_quality_other, Hy.
  - unfold same_registry. split_and!; reflexivity.
Qed.

(** C8 (as the code has it). For an envelope that is not a quality update
    the handler changes no state, and whatever it relays is the envelope's
    own [type], [from] and [data]: the [from] that recipients see is the
    value the client put in the payload, not the identity registered for the
    sending connection. An envelope with a target or from a socket that has
    a room is relayed exactly once. *)
Theorem signal_relays_payload_from
    (st : ServerState) (sid : string) (msg : SignalMsg) (o : Oracle) :
  sg_type msg ≠ Some "webrtc_quality_update"%string →
  let result := on_signal st sid (Object msg) o in
  let relayed := signal (sg_type msg) (sg_from msg) (DataRaw (sg_data msg)) in
  result.1 = st
  ∧ Forall (λ e, e = Emit (ToSocket sid) signal_error ∨ ∃ target, e = Emit target relayed)
           result.2
  ∧ (truthy (sg_to msg) || truthy (d_roomId (data_of st sid)) = true →
     ∃ target, result.2 = [Emit target relayed]).
Proof.
  intros Htype result relayed.
  unfold result, on_signal. rewrite bool_decide_eq_false_2 by exact Htype.
  cbn [fst snd]. unfold route_signal. fold relayed.
  destruct (truthy (sg_to msg)); [| destruct (truthy (d_roomId (data_of st sid)))]; cbn.
  - split_and!; [reflexivity | | eauto].
    constructor; [right; eexists; reflexivity | constructor].
  - split_and!; [reflexivity | | eauto].
    constructor; [right; eexists; reflexivity | constructor].
  - split_and!; [reflexivity | | discriminate].
    constructor; [left; reflexivity | constructor].
Qed.

(** The control and chat handlers relay the payload's [from] in the same
    way: no handler stamps the sender's identity. *)
Lemma control_relays_payload_from st sid p :
  (on_control st sid (Object p)).1 = st
  ∧ ∃ target cmd, (on_control st sid (Object p)).2
                  = [Emit target (control cmd (cp_from p) (cp_message p))].
Proof.
  unfold on_control. repeat case_match; cbn; eauto.
Qed.

Lemma message_relays_payload_from st sid data o :
  or_else (c_type data) "message" ≠ "transcript"%string →
  ∃ target m, (on_message st sid (Object data) o).2 = [Emit target (message m)]
              ∧ m_from m = c_from data ∧ m_xrId m = c_from data.
Proof.
  intros Htype. unfold on_message.
  destruct (String.eqb_spec (or_else (c_type data) "message") "transcript");
    [contradiction |].
  cbn. eauto.
Qed.

End Signals.

(** C7 on a quality envelope for the headset, sent by the desktop. *)
Lemma quality_envelope_intercepted_witness :
  let result := Hub.on_signal Samples.paired "s2"
                  (Hub.Object (Samples.quality_for "XR-1234")) (Samples.at_ms 5000) in
  forallb (λ e, negb (Props.is_signal e)) result.2 = true
  ∧ Metrics.series (Hub.qualityHist result.1) "XR-1234" = [Hub.stored_quality Samples.q0].
Proof.
  intros result.
  destruct (quality_envelope_intercepted Samples.paired "s2" (Samples.quality_for "XR-1234")
              (Samples.at_ms 5000)) as (H1 & _).
  - reflexivity.
  - split; [exact H1 | vm_compute; reflexivity].
Defined.

(** C7, against the claim as worded: a quality envelope that carries a
    sample but names no device is neither stored nor broadcast. *)
Lemma quality_envelope_without_device_dropped :
  Hub.on_signal Samples.one_socket "s2" (Hub.Object Samples.quality_without_device)
                (Samples.at_ms 5000)
  = (Samples.one_socket, [])
  ∧ Hub.sg_samples Samples.quality_without_device = Some [Samples.q0].
Proof. split; reflexivity. Qed.

(** C8 on an offer that the headset sends with somebody else's identity. *)
Lemma signal_relays_payload_from_witness :
  (Hub.on_signal Samples.paired "s1" (Hub.Object Samples.spoofed_offer)
                 (Samples.at_ms 5000)).1 = Samples.paired.
Proof.
  apply (signal_relays_payload_from Samples.paired "s1" Samples.spoofed_offer
           (Samples.at_ms 5000)).
  discriminate.
Defined.

(** C8, against the claim as worded: the recipients see [from = XR-9999]
    although the sending connection is registered as XR-1234. *)
Lemma signal_from_not_server_stamped :
  Hub.d_xrId (Hub.data_of Samples.paired "s1") = Some "XR-1234"%string
  ∧ (Hub.on_signal Samples.paired "s1" (Hub.Object Samples.spoofed_offer)
                   (Samples.at_ms 5000)).2
    = [Hub.Emit (Hub.ToRoom "xr:XR-1238")
                (Hub.signal (Some "offer") (Some "XR-9999") (Hub.DataRaw (Some "sdp")))]%string.
Proof. split; vm_compute; reflexivity. Qed.

(** ** The connection registry and the duplicate guard *)

Section Registry.
Import Hub Props Js.

(** The cleanup of the disconnect handler is idempotent. *)
Lemma unregister_idempotent sid d st :
  unregister sid d (unregister sid d st) = unregister sid d st.
Proof.
  unfold unregister. destruct (truthy (d_xrId d)); [| reflexivity].
  unfold set_registry.
  cbn [clients onlineDevices desktopClients sockets adapterRooms adapterSids
       batteryByDevice telemetryByDevice qualityByDevice telemetryHist qualityHist
       messageHistory].
  rewrite !delete_delete_eq.
  destruct (bool_decide (desktopClients st !! or_else (d_xrId d) "" = Some sid)) eqn:Hown.
  - rewrite lookup_delete_eq. rewrite bool_decide_eq_false_2 by discriminate. reflexivity.
  - rewrite Hown. reflexivity.
Qed.

(** [join] never fails: it binds the identity to the joining socket,
    whatever was registered. *)
Lemma join_always_registers st sid x o :
  forallb (λ e, negb (is_rejection e)) (on_join st sid x o).2 = true
  ∧ clients (on_join st sid x o).1 !! x = Some sid
  ∧ onlineDevices (on_join st sid x o).1 !! x = Some sid.
Proof.
  unfold on_join. cbn. split_and!; [reflexivity | apply lookup_insert_eq..].
Qed.

(** The capacity guard of auto-pairing: at two members it returns false
    without joining or emitting. *)
Lemma tryAutoPair_full st deviceId partnerId :
  map_get deviceId PAIRINGS_MAP = Some partnerId →
  (2 ≤ length (room_members st (getRoomIdForPair deviceId partnerId)))%nat →
  tryAutoPair st deviceId = (st, [], false).
Proof.
  intros Hpartner Hfull. unfold tryAutoPair. rewrite Hpartner.
  repeat case_match; try reflexivity.
  match goal with H : (2 <=? _)%nat = false |- _ => apply Nat.leb_gt in H; lia end.
Qed.

Lemma get_socket_remove_ne st sid y :
  y ≠ sid → get_socket (remove_socket sid st) y = get_socket st y.
Proof.
  intros Hne. unfold get_socket, remove_socket. cbn.
  induction (sockets st) as [| a l IH]; [reflexivity |].
  rewrite filter_cons. destruct (decide (s_id a ≠ sid)) as [Ha | Ha]; cbn.
  - destruct (String.eqb (s_id a) y); [reflexivity | exact IH].
  - apply dec_stable in Ha. destruct (String.eqb_spec (s_id a) y); [congruence | exact IH].
Qed.

Lemma get_socket_close st sid env y :
  y ≠ sid → get_socket (close st sid env).1 y = get_socket st y.
Proof.
  intros Hne. unfold close, on_disconnect, unregister.
  transitivity (get_socket (remove_socket sid (leaveAll sid st)) y).
  - repeat case_match; reflexivity.
  - rewrite get_socket_remove_ne by exact Hne. reflexivity.
Qed.

Lemma clients_close st sid env k :
  d_xrId (data_of st sid) ≠ Some k →
  clients (close st sid env).1 !! k = clients st !! k
  ∧ onlineDevices (close st sid env).1 !! k = onlineDevices st !! k
  ∧ desktopClients (close st sid env).1 !! k = desktopClients st !! k.
Proof.
  intros Hk. unfold close, on_disconnect, unregister. cbn.
  destruct (d_xrId (data_of st sid)) as [x |] eqn:E; cbn; [| auto].
  destruct (String.eqb_spec x ""); cbn; [auto |].
  assert (x ≠ k) by congruence.
  rewrite !lookup_delete_ne by assumption.
  case_bool_decide; rewrite ?lookup_delete_ne by assumption; auto.
Qed.

(** X23. What the duplicate guard does when it finds a holder: the blackout, the
    deferred re-broadcast, [duplicate_id] with the holder's info to the
    claimant, then the claimant's closing sequence. Every other socket keeps
    its data and its rooms, and the registry keeps every entry except the
    one keyed by the identity the claimant's own connection carried. *)
Lemma duplicate_claim_rejected st sid deviceName x o holder :
  x ≠ ""%string →
  find_holder (safeFetchSockets st (fetch o 0%nat)) sid x = Some holder →
  let result := on_identify st sid deviceName (Some x) o in
  result.2 = [Emit ToAll (device_list []);
              Defer 1200 TaskBroadcastDeviceList;
              Emit (ToSocket sid) (duplicate_id x (holder_info x holder))]
             ++ (close st sid (fetch o 1%nat)).2
  ∧ Closed sid ∈ result.2
  ∧ (∀ y, y ≠ sid → get_socket result.1 y = get_socket st y)
  ∧ (∀ y r, y ≠ sid → y ∈ room_members result.1 r ↔ y ∈ room_members st r)
  ∧ (∀ k, d_xrId (data_of st sid) ≠ Some k →
          clients result.1 !! k = clients st !! k
          ∧ onlineDevices result.1 !! k = onlineDevices st !! k
          ∧ desktopClients result.1 !! k = desktopClients st !! k).
Proof.
  intros Hx Hfind result.
  assert (Hres : result = ((close st sid (fetch o 1%nat)).1,
                           [Emit ToAll (device_list []);
                            Defer 1200 TaskBroadcastDeviceList;
                            Emit (ToSocket sid) (duplicate_id x (holder_info x holder))]
                           ++ (close st sid (fetch o 1%nat)).2)).
  { unfold result, on_identify. rewrite truthy_Some, or_else_Some by exact Hx. cbn [negb].
    rewrite Hfind. unfold reject. destruct (close st sid (fetch o 1%nat)); reflexivity. }
  rewrite Hres. cbn [fst snd]. split_and!.
  - reflexivity.
  - apply elem_of_app. right. unfold close.
    destruct (on_disconnect _ _ _ _) as [st2 out]. cbn [snd].
    rewrite !elem_of_app. right. right. left. left.
  - intros y Hy. apply get_socket_close, Hy.
  - intros y r Hy. rewrite room_members_close, room_members_leaveAll. tauto.
  - intros k Hk. apply clients_close, Hk.
Qed.

(** C1 (failing input). Two connections of one process join under XR-1234,
    "s2" first and "s1" after it, so the registry entry belongs to "s1";
    "s2" then identifies. The guard finds "s1" and turns "s2" away with
    [duplicate_id] naming "s1", and "s1" stays connected under its identity;
    but the cleanup run for the rejected "s2" deletes the registry entries of
    XR-1234, which were the holder's. The same loss follows when the holder
    has identified and a second client then sends SignalingClient's usual
    join and identify. *)
Theorem rejected_claimant_unregisters_holder :
  let before := (run initial Samples.racing_joins).1 in
  let result := step before Samples.late_identify (Samples.at_ms 2000) in
  let held := (run initial Samples.headset_identified).1 in
  let after := run held Samples.second_client in
  clients before !! "XR-1234" = Some "s1"%string
  ∧ onlineDevices before !! "XR-1234" = Some "s1"%string
  ∧ result.2 = [Emit ToAll (device_list []);
                Defer 1200 TaskBroadcastDeviceList;
                Emit (ToSocket "s2")
                     (duplicate_id "XR-1234" (mkHolderInfo "XR-1234" "Unknown" None "s1"))]
               ++ (close before "s2" Samples.local_only).2
  ∧ d_xrId (data_of result.1 "s1") = Some "XR-1234"%string
  ∧ connected result.1 "s1" = true
  ∧ clients result.1 !! "XR-1234" = None
  ∧ onlineDevices result.1 !! "XR-1234" = None
  ∧ clients held !! "XR-1234" = Some "s1"%string
  ∧ Emit (ToSocket "s2")
         (duplicate_id "XR-1234" (mkHolderInfo "XR-1234" "Glass" (Some 1000) "s1"))
    ∈ after.2
  ∧ d_xrId (data_of after.1 "s1") = Some "XR-1234"%string
  ∧ connected after.1 "s1" = true
  ∧ clients after.1 !! "XR-1234" = None.
Proof.
  cbv zeta. split_and!; try (vm_compute; reflexivity).
  vm_compute. repeat constructor.
Qed.

(** C9 (failing input). "s1" has joined as XR-1234; "s2" then joins under
    the same identity on the same process. The second join emits no error
    and closes nothing: it replaces the registration, although "s1" is still
    connected under XR-1234. *)
Theorem second_join_replaces_registration :
  let before := (run initial [(Connection "s1", Samples.at_ms 1000);
                              (FromSocket "s1" (Join "XR-1234"), Samples.at_ms 1000);
                              (Connection "s2", Samples.at_ms 4000)]).1 in
  let result := step before (FromSocket "s2" (Join "XR-1234")) (Samples.at_ms 4000) in
  clients before !! "XR-1234" = Some "s1"%string
  ∧ forallb (λ e, negb (is_rejection e)) result.2 = true
  ∧ clients result.1 !! "XR-1234" = Some "s2"%string
  ∧ onlineDevices result.1 !! "XR-1234" = Some "s2"%string
  ∧ d_xrId (data_of result.1 "s1") = Some "XR-1234"%string
  ∧ connected result.1 "s1" = true.
Proof. cbv zeta. split_and!; vm_compute; reflexivity. Qed.

(** C2 (failing input). With the headset and the desktop paired, a third
    connection joins under the headset's identity and sends [pair_with] for
    the desktop: the handler adds it to the pair room, which then has three
    members, and announces the three of them; auto-pairing in the same
    state is refused by its capacity guard. *)
Theorem pair_with_overfills_room :
  let result := run Samples.paired Samples.third_wheel in
  room_members Samples.paired Samples.pair_room = ["s2"; "s1"]%string
  ∧ tryAutoPair Samples.paired "XR-1234" = (Samples.paired, [], false)
  ∧ room_members result.1 Samples.pair_room = ["s2"; "s1"; "s3"]%string
  ∧ Emit (ToRoom Samples.pair_room)
         (room_joined Samples.pair_room ["XR-1238"; "XR-1234"; "XR-1234"])
    ∈ result.2.
Proof.
  cbv zeta. split_and!.
  - vm_compute. reflexivity.
  - apply (tryAutoPair_full Samples.paired "XR-1234" "XR-1238"); [reflexivity |].
    vm_compute. lia.
  - vm_compute. reflexivity.
  - vm_compute. repeat constructor.
Qed.

End Registry.

(* ===================================================================== *)
(** * Further properties of the client                                     *)
(* ===================================================================== *)

Section ClientLifecycle.
Import Client ClientOps.
Context {P : Type}.
Implicit Types (c : SignalingClient P) (ops : list (Op P)).

Lemma run_snoc c ops op : run c (ops ++ [op]) = apply (run c ops) op.
Proof. unfold run. rewrite foldl_app. reflexivity. Qed.

Lemma sends_snoc ops op :
  sends (ops ++ [op]) = sends ops ++ match op with Send it => [it] | _ => [] end.
Proof. unfold sends. rewrite flat_map_app. cbn. rewrite app_nil_r. reflexivity. Qed.

Lemma apply_sane c op : sane c → sane (apply c op).
Proof.
  unfold sane. destruct c as [dn x sk ic mc ob w]. cbn. intros (Hcap & Hsock & Hempty).
  destruct sk, ic; try (specialize (Hsock eq_refl); discriminate);
    destruct op; cbn;
    (split_and!; [first [exact Hcap | apply enqueue_length, Hcap | cbn; lia]
                 | first [reflexivity | discriminate | auto]
                 | first [reflexivity | discriminate | auto]]).
Qed.

Lemma run_sane c ops : sane c → sane (run c ops).
Proof.
  intros Hc. induction ops as [| op ops IH] using rev_ind; [exact Hc |].
  rewrite run_snoc. apply apply_sane, IH.
Qed.

(** X1. Whatever the application calls and whatever the transport reports,
    starting from the constructor's state: the outbox never holds more than
    200 items, a client without a socket is never marked connected, and
    while the client is connected the outbox is empty. *)
Theorem client_outbox_invariants (deviceName xrId : string) ops :
  let c := run (fresh deviceName xrId) ops in
  (length (_outbox c) ≤ 200)%nat
  ∧ (socket c = false → isConnected c = false)
  ∧ (socket c && isConnected c = true → _outbox c = []).
Proof.
  apply run_sane. unfold sane. cbn. split_and!; [lia | reflexivity | discriminate].
Qed.

Lemma delivered_emit c es :
  delivered (emit P c es)
  = delivered c ++ flat_map (λ e, match e with EmitApp it => [it] | _ => [] end) es.
Proof. unfold delivered, emit. cbn. apply flat_map_app. Qed.

Lemma delivered_flush (o : list (Item P)) :
  flat_map (λ e, match e with EmitApp it => [it] | _ => [] end) (map EmitApp o) = o.
Proof. induction o as [| a o IH]; cbn; [reflexivity | rewrite IH; reflexivity]. Qed.

(** How one operation moves items between "sent", "queued" and "emitted". *)
Lemma apply_accounting c op :
  sane c →
  ∃ kept, kept `sublist_of` _outbox c
          ∧ (match op with
             | Send _ => (length (_outbox c) < _OUTBOX_MAX)%nat
             | _ => True
             end → kept = _outbox c)
          ∧ delivered (apply c op) ++ _outbox (apply c op)
            = delivered c ++ kept ++ match op with Send it => [it] | _ => [] end.
Proof.
  unfold sane, delivered. destruct c as [dn x sk ic mc ob w]. cbn.
  intros (Hcap & Hsock & Hempty).
  destruct op; cbn.
  - unfold _send. cbn. destruct sk, ic; cbn.
    + rewrite (Hempty eq_refl). exists []. split_and!; [reflexivity | reflexivity |].
      rewrite flat_map_app. cbn. rewrite !app_nil_r. reflexivity.
    + unfold enqueue. destruct (Nat.ltb_spec (length ob) _OUTBOX_MAX).
      * exists ob. split_and!; [reflexivity | reflexivity | reflexivity].
      * exists (tail ob). split_and!; [| lia | reflexivity].
        destruct ob; [reflexivity | apply sublist_cons, reflexivity].
    + unfold enqueue. destruct (Nat.ltb_spec (length ob) _OUTBOX_MAX).
      * exists ob. split_and!; [reflexivity | reflexivity | reflexivity].
      * exists (tail ob). split_and!; [| lia | reflexivity].
        destruct ob; [reflexivity | apply sublist_cons, reflexivity].
    + unfold enqueue. destruct (Nat.ltb_spec (length ob) _OUTBOX_MAX).
      * exists ob. split_and!; [reflexivity | reflexivity | reflexivity].
      * exists (tail ob). split_and!; [| lia | reflexivity].
        destruct ob; [reflexivity | apply sublist_cons, reflexivity].
  - exists ob. rewrite !app_nil_r. split_and!; [reflexivity | reflexivity |].
    unfold connect. destruct sk; reflexivity.
  - exists ob. rewrite !app_nil_r. split_and!; [reflexivity | reflexivity |].
    unfold disconnect. destruct sk; reflexivity.
  - exists ob. rewrite !app_nil_r. split_and!; [reflexivity | reflexivity |].
    unfold close. destruct sk; reflexivity.
  - exists ob. rewrite !app_nil_r. split_and!; [reflexivity | reflexivity |].
    destruct sk; [| reflexivity]. cbn. rewrite app_nil_r, flat_map_app. cbn.
    rewrite delivered_flush. reflexivity.
  - exists ob. rewrite !app_nil_r. split_and!; [reflexivity | reflexivity |].
    destruct sk; reflexivity.
  - exists ob. rewrite !app_nil_r. split_and!; [reflexivity | reflexivity |].
    destruct sk; reflexivity.
Qed.

(** X2. Across any number of disconnects and reconnects, the application
    items that reached the transport, followed by the items still queued,
    are a subsequence of the items passed to [_send], in call order: no send
    is emitted twice, none is reordered, and a reconnect resends nothing. *)
Theorem client_sends_at_most_once_in_order (deviceName xrId : string) ops :
  let c := run (fresh deviceName xrId) ops in
  delivered c ++ _outbox c `sublist_of` sends ops.
Proof.
  cbv zeta. induction ops as [| op ops IH] using rev_ind; [reflexivity |].
  rewrite run_snoc, sends_snoc.
  assert (Hsane : sane (run (fresh deviceName xrId) ops)).
  { apply run_sane. unfold sane. cbn. split_and!; [lia | reflexivity | discriminate]. }
  destruct (apply_accounting _ op Hsane) as (kept & Hkept & _ & ->).
  rewrite app_assoc. apply sublist_app; [| reflexivity].
  etransitivity; [| exact IH]. apply sublist_app; [reflexivity | exact Hkept].
Qed.

Lemma length_sends_outbox (deviceName xrId : string) ops :
  (length (_outbox (run (fresh deviceName xrId) ops)) ≤ length (sends ops))%nat.
Proof.
  pose proof (client_sends_at_most_once_in_order deviceName xrId ops) as H.
  apply sublist_length in H. rewrite length_app in H. lia.
Qed.

(** X3. As long as the application has issued at most 200 sends in all,
    nothing is lost: the emitted items followed by the queued ones are
    exactly the sends, in call order; in particular a client that is
    connected at that point has emitted every one of them. *)
Theorem client_sends_not_lost (deviceName xrId : string) ops :
  (length (sends ops) ≤ 200)%nat →
  let c := run (fresh deviceName xrId) ops in
  delivered c ++ _outbox c = sends ops
  ∧ (socket c && isConnected c = true → delivered c = sends ops).
Proof.
  intros Hfew c.
  assert (Hall : delivered c ++ _outbox c = sends ops).
  { unfold c. clear c. induction ops as [| op ops IH] using rev_ind; [reflexivity |].
    rewrite run_snoc, sends_snoc. rewrite sends_snoc, length_app in Hfew.
    assert (Hsane : sane (run (fresh deviceName xrId) ops)).
    { apply run_sane. unfold sane. cbn. split_and!; [lia | reflexivity | discriminate]. }
    destruct (apply_accounting _ op Hsane) as (kept & _ & Hkeep & ->).
    pose proof (length_sends_outbox deviceName xrId ops) as Hlen.
    rewrite Hkeep.
    - rewrite app_assoc, IH by lia. reflexivity.
    - destruct op; [| exact I..]. cbn in Hfew. unfold _OUTBOX_MAX. lia. }
  split; [exact Hall |].
  intros Hon. rewrite <- Hall.
  destruct (client_outbox_invariants deviceName xrId ops) as (_ & _ & Hempty).
  fold c in Hempty. rewrite (Hempty Hon), app_nil_r. reflexivity.
Qed.

End ClientLifecycle.

(** Three sends while offline, a connect, one more send. *)
Lemma client_sends_not_lost_witness :
  let ops := [ClientOps.Send (Client.mkItem "signal" 1%nat);
              ClientOps.Send (Client.mkItem "signal" 2%nat);
              ClientOps.Send (Client.mkItem "message" 3%nat);
              ClientOps.Connect; ClientOps.OnConnect;
              ClientOps.Send (Client.mkItem "control" 4%nat)] in
  ClientOps.delivered (ClientOps.run (ClientOps.fresh "Glass" "XR-1234") ops)
  = ClientOps.sends ops.
Proof.
  intros ops.
  destruct (client_sends_not_lost "Glass" "XR-1234" ops) as [_ H].
  - cbn. lia.
  - apply H. reflexivity.
Defined.

Section ClientPresence.
Import Presence.
Implicit Types (p : State) (arr : list DeviceInfo).

Lemma elem_of_others p arr n id :
  (n, id) ∈ others p arr
  ↔ ∃ o, o ∈ arr ∧ o_xrId o = Some id ∧ id ≠ ""%string ∧ id ≠ xrId p
         ∧ n = display_name o.
Proof.
  unfold others. rewrite list_elem_of_In, in_flat_map. split.
  - intros (o & Ho & Hin). exists o. apply list_elem_of_In in Ho.
    destruct (o_xrId o) as [x |] eqn:Ex; cbn in Hin; [| contradiction].
    destruct (String.eqb_spec x ""); cbn in Hin; [contradiction |].
    destruct (String.eqb_spec x (xrId p)); cbn in Hin; [contradiction |].
    destruct Hin as [[= <- <-] | []]. auto.
  - intros (o & Ho & Hx & Hne & Hown & ->). exists o. split; [apply list_elem_of_In, Ho |].
    rewrite Hx. cbn.
    destruct (String.eqb_spec id ""); [contradiction |]. cbn.
    destruct (String.eqb_spec id (xrId p)); [contradiction |]. cbn. left. reflexivity.
Qed.

(** X4. The list a client hands to its listener on [device_list] holds
    exactly the announced devices that have a non-empty identity other than
    the client's own, under the display name [deviceName || name ||
    'Unknown']; the client never lists itself, and a payload that is not an
    array is ignored altogether. *)
Theorem device_list_excludes_self p arr :
  _onDeviceList p None = (p, [])
  ∧ last (_onDeviceList p (Some arr)).2 = Some (onDeviceListUpdated (others p arr))
  ∧ ∀ n id, (n, id) ∈ others p arr
            ↔ ∃ o, o ∈ arr ∧ o_xrId o = Some id ∧ id ≠ ""%string ∧ id ≠ xrId p
                   ∧ n = display_name o.
Proof.
  split_and!.
  - reflexivity.
  - cbn. destruct (_wasDesktopOnline p && negb (desktop_listed p arr)); reflexivity.
  - apply elem_of_others.
Qed.

Lemma preferred_desktop_spec p (l : list (string * string)) :
  match preferred_desktop p l with
  | None => l = []
  | Some id => ∃ n, (n, id) ∈ l
  end
  ∧ ((∃ n id, (n, id) ∈ l ∧ is_desktop_id p id = true) →
     ∃ id, preferred_desktop p l = Some id ∧ is_desktop_id p id = true).
Proof.
  unfold preferred_desktop.
  destruct (List.find _ l) as [[n id] |] eqn:E.
  - apply List.find_some in E as [Hin Hd]. apply list_elem_of_In in Hin. eauto 6.
  - split.
    + destruct l as [| [n id] l']; [reflexivity |]. exists n. left.
    + intros (n & id & Hin & Hd). apply list_elem_of_In in Hin.
      eapply List.find_none in E; [| exact Hin]. cbn in E. congruence.
Qed.

Lemma preferred_desktop_first p before n id after :
  is_desktop_id p id = true →
  Forall (λ e, is_desktop_id p e.2 = false) before →
  preferred_desktop p (before ++ (n, id) :: after) = Some id.
Proof.
  intros Hid Hbefore. unfold preferred_desktop.
  assert (Hfind : List.find (λ '(_, id0), is_desktop_id p id0) (before ++ (n, id) :: after)
                  = Some (n, id)).
  { induction Hbefore as [| [n' id'] l Hhd _ IH]; cbn [app List.find].
    - rewrite Hid. reflexivity.
    - cbn [snd] in Hhd. rewrite Hhd. exact IH. }
  rewrite Hfind. reflexivity.
Qed.

Lemma preferred_desktop_fallback p (l : list (string * string)) :
  Forall (λ e, is_desktop_id p e.2 = false) l →
  preferred_desktop p l = snd <$> head l.
Proof.
  intros Hall. unfold preferred_desktop.
  assert (Hfind : List.find (λ '(_, id0), is_desktop_id p id0) l = None).
  { induction Hall as [| [n' id'] l' Hhd _ IH]; cbn [List.find]; [reflexivity |].
    cbn [snd] in Hhd. rewrite Hhd. exact IH. }
  rewrite Hfind. destruct l as [| [n id] l']; reflexivity.
Qed.

(** X5. After a [device_list] the preferred desktop is never the client
    itself and always one of the announced devices. It is the first listed
    device other than the client whose identity is DESKTOP_ID up to letter
    case, when there is one; otherwise it is the first listed device other
    than the client; and it is unset exactly when no other device is
    announced. *)
Theorem device_list_selects_desktop p arr :
  let p' := (_onDeviceList p (Some arr)).1 in
  let is_desktop (e : string * string) := toUpperCase e.2 = DESKTOP_ID p in
  (currentDesktopId p' = None ↔ others p arr = [])
  ∧ (∀ id, currentDesktopId p' = Some id →
           id ≠ xrId p ∧ id ≠ ""%string ∧ ∃ o, o ∈ arr ∧ o_xrId o = Some id)
  ∧ ((∃ o, o ∈ arr ∧ ∃ id, o_xrId o = Some id ∧ id ≠ ""%string ∧ id ≠ xrId p
                            ∧ toUpperCase id = DESKTOP_ID p) →
     ∃ id, currentDesktopId p' = Some id ∧ toUpperCase id = DESKTOP_ID p)
  ∧ (∀ before n id after,
       others p arr = before ++ (n, id) :: after →
       is_desktop (n, id) → Forall (λ e, ¬ is_desktop e) before →
       currentDesktopId p' = Some id)
  ∧ (Forall (λ e, ¬ is_desktop e) (others p arr) →
     currentDesktopId p' = snd <$> head (others p arr)).
Proof.
  cbv beta zeta. cbn [_onDeviceList fst currentDesktopId].
  destruct (preferred_desktop_spec p (others p arr)) as [Hsel Hpref].
  assert (Hnot : ∀ l : list (string * string),
            Forall (λ e, ¬ toUpperCase e.2 = DESKTOP_ID p) l →
            Forall (λ e, is_desktop_id p e.2 = false) l).
  { intros l Hl. eapply Forall_impl; [exact Hl |]. intros e He. cbv beta in He.
    unfold is_desktop_id.
    destruct (String.eqb_spec (toUpperCase e.2) (DESKTOP_ID p)); [contradiction | reflexivity]. }
  split_and!.
  - destruct (preferred_desktop p (others p arr)) as [id |].
    + destruct Hsel as [n Hin]. split; [discriminate |].
      intros Hnil. rewrite Hnil in Hin. inversion Hin.
    + split; [intros _; exact Hsel | reflexivity].
  - intros id Hid. rewrite Hid in Hsel. destruct Hsel as [n Hin].
    apply elem_of_others in Hin as (o & Ho & Hx & Hne & Hown & _). eauto 6.
  - intros (o & Ho & id & Hx & Hne & Hown & Hup).
    destruct Hpref as (id' & Hsel' & Hd').
    + exists (display_name o), id. split.
      * apply elem_of_others. eauto 8.
      * unfold is_desktop_id. rewrite Hup. apply String.eqb_refl.
    + exists id'. split; [exact Hsel' |]. apply String.eqb_eq. exact Hd'.
  - intros before n id after Heq Hid Hbefore. rewrite Heq.
    apply preferred_desktop_first; [| apply Hnot, Hbefore].
    unfold is_desktop_id. cbn [snd] in Hid. rewrite Hid. apply String.eqb_refl.
  - intros Hall. apply preferred_desktop_fallback, Hnot, Hall.
Qed.

Lemma others_ext p q arr : xrId p = xrId q → others p arr = others q arr.
Proof. intros H. unfold others. rewrite H. reflexivity. Qed.

Lemma desktop_listed_ext p q arr :
  DESKTOP_ID p = DESKTOP_ID q → desktop_listed p arr = desktop_listed q arr.
Proof. intros H. unfold desktop_listed, is_desktop_id. rewrite H. reflexivity. Qed.

(** X6. The [desktop_disconnected] notice is edge-triggered: a device list
    raises it exactly when the desktop was listed before and is missing now.
    Once the desktop is known to be gone, because a list did not contain it
    or because [peer_left] reported it, the next list raises no such notice,
    whatever it contains. *)
Theorem desktop_disconnected_fires_once p arr :
  (desktop_disconnected (DESKTOP_ID p) ∈ (_onDeviceList p (Some arr)).2
   ↔ _wasDesktopOnline p = true ∧ desktop_listed p arr = false)
  ∧ (∀ arr', desktop_listed p arr = false →
       (_onDeviceList (_onDeviceList p (Some arr)).1 (Some arr')).2
       = [onDeviceListUpdated (others p arr')])
  ∧ (∀ peer, toUpperCase peer = DESKTOP_ID p → peer ≠ ""%string →
       (_onPeerLeft p (Some peer)).2 = [peer_left peer]
       ∧ (_onDeviceList (_onPeerLeft p (Some peer)).1 (Some arr)).2
         = [onDeviceListUpdated (others p arr)]).
Proof.
  split_and!.
  - cbn. destruct (_wasDesktopOnline p), (desktop_listed p arr); cbn; split.
    all: try (intros H; apply elem_of_cons in H as [H | H];
              [discriminate | inversion H]).
    all: try (intros [? ?]; discriminate).
    + intros H. apply elem_of_cons in H as [H | H]; [auto | ].
      apply elem_of_cons in H as [H | H]; [discriminate | inversion H].
    + intros _. left.
  - intros arr' H1. unfold _onDeviceList. cbn [fst snd _wasDesktopOnline].
    rewrite H1. cbn [andb app].
    rewrite (others_ext _ p) by reflexivity. reflexivity.
  - intros peer Hup Hne. unfold _onPeerLeft.
    rewrite truthy_Some by exact Hne. rewrite or_else_Some by exact Hne.
    unfold is_desktop_id. rewrite Hup, String.eqb_refl. cbn [andb fst snd].
    split; [reflexivity |].
    unfold _onDeviceList. cbn [fst snd _wasDesktopOnline andb app].
    rewrite (others_ext _ p) by reflexivity. reflexivity.
Qed.

End ClientPresence.

(** ** Pair keys, pair rooms and the pairing handlers *)

Section Pairing.
Import Js Hub.

Lemma sort2_comm a b : sort2 a b = sort2 b a.
Proof.
  unfold sort2, String.ltb. rewrite (String.compare_antisym a b).
  destruct (String.compare b a) eqn:E; cbn; try reflexivity.
  apply String.compare_eq_iff in E. subst. reflexivity.
Qed.

(** X7. The pair key, the pair room and the pairing permission do not
    depend on the order in which the two identities are given. *)
Theorem pair_key_symmetric a b :
  normalizePair a b = normalizePair b a
  ∧ getRoomIdForPair a b = getRoomIdForPair b a
  ∧ isPairAllowed a b = isPairAllowed b a.
Proof.
  unfold isPairAllowed, normalizePair, getRoomIdForPair.
  rewrite (sort2_comm a b). auto.
Qed.

Lemma pair_key_split one two :
  (one +:+ "|" +:+ two)%string = "XR-1234|XR-1238"%string →
  one = "XR-1234"%string ∧ two = "XR-1238"%string.
Proof.
  intros H.
  do 15 (destruct one as [| ? one]; cbn in H;
         [try discriminate; injection H as H; subst; auto | injection H as -> H]).
  destruct one; discriminate.
Qed.

Lemma isPairAllowed_iff a b :
  isPairAllowed a b = true
  ↔ (a = "XR-1234" ∧ b = "XR-1238")%string ∨ (a = "XR-1238" ∧ b = "XR-1234")%string.
Proof.
  split.
  - unfold isPairAllowed. intros H. apply bool_decide_eq_true in H.
    apply list_elem_of_singleton in H. unfold normalizePair in H at 1.
    destruct (sort2 a b) as [one two] eqn:E.
    change (normalizePair "XR-1234" "XR-1238") with "XR-1234|XR-1238"%string in H.
    apply pair_key_split in H as [-> ->]. unfold sort2 in E.
    destruct (String.ltb b a); injection E as -> ->; auto.
  - intros [[-> ->] | [-> ->]]; reflexivity.
Qed.

(** X8. Pairing is allowed for exactly one pair of identities, XR-1234 with
    XR-1238, in either order; in particular never for an identity with
    itself. *)
Theorem only_configured_pair_allowed a b :
  (isPairAllowed a b = true
   ↔ (a = "XR-1234" ∧ b = "XR-1238")%string ∨ (a = "XR-1238" ∧ b = "XR-1234")%string)
  ∧ isPairAllowed a a = false.
Proof.
  split; [apply isPairAllowed_iff |].
  destruct (isPairAllowed a a) eqn:E; [| reflexivity].
  apply isPairAllowed_iff in E as [[-> [=]] | [-> [=]]].
Qed.

Lemma room_members_socket_join st sid r r' :
  room_members (socket_join sid r st) r'
  = if String.eqb r' r && connected st sid
    then set_add sid (room_members st r) else room_members st r'.
Proof.
  unfold room_members at 1. unfold socket_join. cbn [adapterRooms set_adapter].
  destruct (connected st sid); [| rewrite andb_false_r; reflexivity].
  rewrite andb_true_r. destruct (String.eqb_spec r' r) as [-> | Hne].
  - rewrite map_get_set_eq. reflexivity.
  - rewrite map_get_set_ne by exact Hne. reflexivity.
Qed.

Lemma connected_socket_join st sid r y :
  connected (socket_join sid r st) y = connected st y.
Proof. reflexivity. Qed.

Lemma tryAutoPair_cases st deviceId :
  tryAutoPair st deviceId = (st, [], false)
  ∨ ∃ partnerId me partner,
      isPairAllowed deviceId partnerId = true
      ∧ clients st !! deviceId = Some me ∧ clients st !! partnerId = Some partner
      ∧ (length (room_members st (getRoomIdForPair deviceId partnerId)) < 2)%nat
      ∧ let roomId := getRoomIdForPair deviceId partnerId in
        let st' := update_data partner (set_roomId roomId)
                     (update_data me (set_roomId roomId)
                        (socket_join partner roomId (socket_join me roomId st))) in
        tryAutoPair st deviceId
        = (st', [Emit (ToRoom roomId) (room_joined roomId (listRoomMembers st' roomId));
                 Emit ToAll (room_update (collectPairs st'))], true).
Proof.
  unfold tryAutoPair.
  destruct (map_get deviceId PAIRINGS_MAP) as [partnerId |]; [| auto].
  destruct (clients st !! deviceId) as [me |] eqn:Hme; [| auto].
  destruct (clients st !! partnerId) as [partner |] eqn:Hp; [| auto].
  destruct (isPairAllowed deviceId partnerId) eqn:Hal; cbn [negb]; [| auto].
  destruct (2 <=? _)%nat eqn:Hcount; [auto |].
  right. exists partnerId, me, partner. apply Nat.leb_gt in Hcount.
  split_and!; auto.
Qed.

(** X9. Auto-pairing either does nothing at all (it returns false, leaves
    the state as it is and emits nothing) or it returns true, and then: the
    identity is one of the configured pair, both partners are registered,
    the pair room pair:XR-1234:XR-1238 had fewer than two members, each of
    the two registered sockets that is still open has been added to it (a
    registered socket that has closed is not: its join does nothing), and
    [room_joined] went to the room followed by [room_update] to everyone. *)
Theorem auto_pair_outcomes st deviceId :
  let result := tryAutoPair st deviceId in
  let room := "pair:XR-1234:XR-1238"%string in
  (result.2 = false → result.1 = (st, []))
  ∧ (result.2 = true →
     ∃ partnerId me partner,
       isPairAllowed deviceId partnerId = true
       ∧ clients st !! deviceId = Some me ∧ clients st !! partnerId = Some partner
       ∧ (length (room_members st room) < 2)%nat
       ∧ room_members result.1.1 room
         = (if connected st partner then set_add partner else id)
             ((if connected st me then set_add me else id) (room_members st room))
       ∧ (∀ y, y ∈ room_members result.1.1 room → connected st y = false →
               y ∈ room_members st room)
       ∧ result.1.2 = [Emit (ToRoom room)
                            (room_joined room (listRoomMembers result.1.1 room));
                       Emit ToAll (room_update (collectPairs result.1.1))]).
Proof.
  cbv zeta.
  destruct (tryAutoPair_cases st deviceId)
    as [-> | (partnerId & me & partner & Hal & Hme & Hp & Hcount & ->)];
    cbn [fst snd]; (split; [| intros [=]]); try (intros [=]; fail); try reflexivity.
  exists partnerId, me, partner.
  assert (Hroom : getRoomIdForPair deviceId partnerId = "pair:XR-1234:XR-1238"%string).
  { apply isPairAllowed_iff in Hal as [[-> ->] | [-> ->]]; reflexivity. }
  rewrite Hroom in *.
  assert (Hmem : room_members
                   (update_data partner (set_roomId "pair:XR-1234:XR-1238")
                      (update_data me (set_roomId "pair:XR-1234:XR-1238")
                         (socket_join partner "pair:XR-1234:XR-1238"
                            (socket_join me "pair:XR-1234:XR-1238" st))))
                   "pair:XR-1234:XR-1238"
                 = (if connected st partner then set_add partner else id)
                     ((if connected st me then set_add me else id)
                        (room_members st "pair:XR-1234:XR-1238"))).
  { change (room_members (update_data _ _ (update_data _ _ ?s)) ?r) with (room_members s r).
    rewrite !room_members_socket_join, !String.eqb_refl, connected_socket_join.
    cbn [andb]. destruct (connected st me), (connected st partner); reflexivity. }
  split_and!; auto.
  intros y. rewrite Hmem.
  destruct (connected st partner) eqn:Cp, (connected st me) eqn:Cm;
    unfold id; rewrite ?elem_of_set_add; intros Hy Hclosed.
  all: repeat (destruct Hy as [Hy | ->]; [| congruence]); exact Hy.
Qed.

(** X10. [pair_with] changes something only when the requesting socket's
    identity and the requested peer are the configured pair: the socket is
    then added to the pair room (no other room and no registry entry
    changes) and the room is told [room_joined]. In every other case,
    including a socket without identity, a missing peer and a peer equal to
    the requester, the state is untouched and the requester alone receives
    one [pair_error]. *)
Theorem pair_with_joins_only_configured_pair st sid peerId :
  let me := d_xrId (data_of st sid) in
  let result := on_pair_with st sid peerId in
  let room := "pair:XR-1234:XR-1238"%string in
  let configured :=
    (me = Some "XR-1234" ∧ peerId = Some "XR-1238")%string
    ∨ (me = Some "XR-1238" ∧ peerId = Some "XR-1234")%string in
  (configured →
     room_members result.1 room = set_add sid (room_members st room)
     ∧ (∀ r, r ≠ room → room_members result.1 r = room_members st r)
     ∧ Props.same_registry st result.1
     ∧ result.2 = [Emit (ToRoom room) (room_joined room (listRoomMembers result.1 room));
                   Emit ToAll (room_update (collectPairs result.1))])
  ∧ (¬ configured →
     result.1 = st ∧ ∃ msg, result.2 = [Emit (ToSocket sid) (pair_error msg)]).
Proof.
  cbv zeta. unfold on_pair_with. split.
  - intros Hconf.
    assert (Hal : ∃ a b, d_xrId (data_of st sid) = Some a ∧ peerId = Some b
                         ∧ isPairAllowed a b = true
                         ∧ getRoomIdForPair a b = "pair:XR-1234:XR-1238"%string
                         ∧ a ≠ ""%string ∧ b ≠ ""%string).
    { destruct Hconf as [[-> ->] | [-> ->]]; do 2 eexists; split_and!; done. }
    destruct Hal as (a & b & Hme & -> & Hal & Hroom & Ha & Hb).
    pose proof (data_of_connected st sid a Hme) as Hopen. rewrite Hme.
    rewrite !truthy_Some, !or_else_Some, Hal, Hroom by assumption.
    cbn [negb orb fst snd].
    change (room_members (update_data ?x ?f ?s)) with (room_members s).
    split_and!.
    + rewrite room_members_socket_join, String.eqb_refl, Hopen. reflexivity.
    + intros r Hr. rewrite room_members_socket_join.
      destruct (String.eqb_spec r "pair:XR-1234:XR-1238"); [contradiction | reflexivity].
    + unfold Props.same_registry. auto.
    + reflexivity.
  - intros Hnot.
    destruct (truthy (d_xrId (data_of st sid))) eqn:Hme; cbn [negb orb]; [| eauto].
    destruct (truthy peerId) eqn:Hpeer; cbn [negb]; [| eauto].
    destruct (isPairAllowed _ _) eqn:Hal; cbn [negb]; [| eauto].
    exfalso. apply Hnot.
    destruct (d_xrId (data_of st sid)) as [a |]; [| discriminate].
    destruct peerId as [b |]; [| discriminate].
    cbn in Hme, Hpeer, Hal.
    destruct (String.eqb_spec a ""); [discriminate |].
    destruct (String.eqb_spec b ""); [discriminate |].
    apply isPairAllowed_iff in Hal as [[-> ->] | [-> ->]]; auto.
Qed.

End Pairing.

(** ** The registry maps over whole runs *)

Section RegistryMirror.
Import Js Hub Props.

Lemma close_mirror st sid env :
  onlineDevices st = clients st →
  onlineDevices (close st sid env).1 = clients (close st sid env).1.
Proof.
  intros H. unfold close, on_disconnect. cbn [fst].
  set (st1 := remove_socket sid (leaveAll sid st)).
  change (onlineDevices st = clients st) with (onlineDevices st1 = clients st1) in H.
  unfold unregister. destruct (truthy _); [| exact H].
  unfold set_registry. cbn [onlineDevices clients]. rewrite H. reflexivity.
Qed.

Lemma accept_mirror st sid deviceName x o :
  onlineDevices st = clients st →
  onlineDevices (accept st sid deviceName x o).1 = clients (accept st sid deviceName x o).1.
Proof.
  intros H. unfold accept.
  set (st3 := set_registry _ _ _ _).
  assert (H3 : onlineDevices st3 = clients st3).
  { unfold st3, set_registry.
    cbn [onlineDevices clients socket_join set_adapter update_data set_sockets].
    rewrite H. reflexivity. }
  pose proof (tryAutoPair_stores st3 x) as ((Hc & Ho & _) & _).
  destruct (truthy (d_roomId (data_of st3 sid))); [exact H3 |].
  destruct (tryAutoPair st3 x) as [[st4 out] b]. cbn [fst] in *. congruence.
Qed.

Lemma step_mirror st i o :
  onlineDevices st = clients st →
  onlineDevices (step st i o).1 = clients (step st i o).1.
Proof.
  intros H. destruct i as [sid | sid r | d | t]; cbn.
  - case_match; cbn; auto.
  - case_match; [| cbn; auto]. destruct r; cbn.
    + congruence.
    + unfold on_identify, reject.
      pose proof (close_mirror st sid (fetch o 0%nat) H).
      pose proof (close_mirror st sid (fetch o 1%nat) H).
      pose proof (accept_mirror st sid deviceName (or_else xrId "") o H).
      repeat case_match; cbn in *; simplify_eq; auto.
    + unfold on_metrics_subscribe; case_match; cbn; auto.
    + unfold on_metrics_unsubscribe; case_match; cbn; auto.
    + auto.
    + unfold on_pair_with; repeat case_match; cbn; auto.
    + unfold on_signal, intercept_quality; repeat case_match; cbn; auto.
    + unfold on_control; repeat case_match; cbn; auto.
    + unfold on_message; repeat case_match; cbn; auto.
    + unfold on_battery; repeat case_match; cbn; auto.
    + unfold on_telemetry; repeat case_match; cbn; auto.
    + unfold on_webrtc_quality; repeat case_match; cbn; auto.
    + auto.
    + exact (close_mirror st sid (fetch o 0%nat) H).
  - unfold desktop_telemetry; case_match; cbn; auto.
  - destruct t; cbn; auto.
Qed.

(** X11. Whatever the clients do, [onlineDevices] is at every moment an
    exact copy of [clients]: every handler that writes one of the two maps
    writes the other with the same key and socket. *)
Theorem onlineDevices_mirrors_clients trace :
  onlineDevices (run initial trace).1 = clients (run initial trace).1.
Proof.
  apply (run_invariant (λ st, onlineDevices st = clients st)).
  - intros st i o. apply step_mirror.
  - reflexivity.
Qed.

End RegistryMirror.

(** ** The eviction loop of pushHist *)

Section PushHistFacts.
Import Metrics.
Context {A : Type} (ts_of : A → option Z).

Lemma evict_split cutoff (arr : list A) :
  ∃ dropped, arr = dropped ++ evict ts_of cutoff arr
             ∧ Forall (λ a, ∃ t, ts_of a = Some t ∧ t < cutoff) dropped.
Proof.
  induction arr as [| a r (dropped & Heq & Hall)]; cbn [evict].
  - exists []. split; [reflexivity | constructor].
  - unfold expired. destruct (ts_of a) as [t |] eqn:Et.
    + destruct (Z.ltb_spec t cutoff) as [Hlt | Hge].
      * exists (a :: dropped). split; [cbn; congruence |]. constructor; eauto.
      * exists []. split; [reflexivity | constructor].
    + exists []. split; [reflexivity | constructor].
Qed.

Lemma evict_head cutoff (arr : list A) a t :
  head (evict ts_of cutoff arr) = Some a → ts_of a = Some t → cutoff ≤ t.
Proof.
  induction arr as [| b r IH]; cbn [evict]; [discriminate |].
  unfold expired. destruct (ts_of b) as [tb |] eqn:Eb.
  - destruct (Z.ltb_spec tb cutoff); [exact IH |].
    cbn. intros [= ->] Ht. rewrite Ht in Eb. injection Eb as ->. lia.
  - cbn. intros [= ->] Ht. congruence.
Qed.

(** X12. [pushHist] appends the sample to the identity's series and then
    removes from the front the longest run of entries whose [ts] is earlier
    than 24 hours before now: everything removed is such an entry, the
    entry left at the front is not, the order of what is kept is unchanged,
    and no other identity's series is touched. An entry at the front that
    carries no [ts] is never removed, and then nothing behind it is. *)
Theorem pushHist_drops_expired_prefix map x (s : A) now :
  let cutoff := now - METRIC_WINDOW_MS in
  let kept := series (pushHist ts_of map x s now) x in
  (∃ dropped, series map x ++ [s] = dropped ++ kept
              ∧ Forall (λ a, ∃ t, ts_of a = Some t ∧ t < cutoff) dropped)
  ∧ (∀ a t, head kept = Some a → ts_of a = Some t → cutoff ≤ t)
  ∧ (∀ a r, series map x = a :: r → ts_of a = None → kept = a :: r ++ [s])
  ∧ (∀ y, y ≠ x → series (pushHist ts_of map x s now) y = series map y).
Proof.
  cbv zeta. rewrite series_pushHist. split_and!.
  - apply evict_split.
  - intros a t. apply evict_head.
  - intros a r -> Hts. cbn [app evict]. unfold expired. rewrite Hts. reflexivity.
  - intros y Hy. apply series_pushHist_ne. congruence.
Qed.

End PushHistFacts.

(** ** Maps filled in a loop: fetchSockets' merge and the device list *)

Section FilledMaps.
Import Js.
Context {A V : Type}.
(** The loop body either files [v] under [k] or skips the element. *)
Variable f : A → option (string * V).
Variable g : list (string * V) → A → list (string * V).
Hypothesis g_spec : ∀ m a, g m a = match f a with
                                    | Some (k, v) => map_set k v m
                                    | None => m
                                    end.

Lemma map_set_keys k (v : V) m :
  map fst (map_set k v m)
  = if bool_decide (k ∈ map fst m) then map fst m else map fst m ++ [k].
Proof.
  induction m as [| [k' v'] m IH]; cbn [map_set map fst app].
  - rewrite bool_decide_eq_false_2 by apply not_elem_of_nil. reflexivity.
  - destruct (String.eqb_spec k k') as [-> | Hne]; cbn [map fst].
    + rewrite bool_decide_eq_true_2 by left. reflexivity.
    + rewrite IH. case_bool_decide as Hin.
      * rewrite bool_decide_eq_true_2 by (right; exact Hin). reflexivity.
      * rewrite bool_decide_eq_false_2; [reflexivity |].
        intros [? | ?]%elem_of_cons; [contradiction | contradiction].
Qed.

Lemma map_set_NoDup k (v : V) m : NoDup (map fst m) → NoDup (map fst (map_set k v m)).
Proof.
  intros H. rewrite map_set_keys. case_bool_decide as Hin; [exact H |].
  apply NoDup_app. split_and!; [exact H | | apply NoDup_singleton].
  intros x Hx ->%list_elem_of_singleton. contradiction.
Qed.

Lemma elem_of_map_set k k' (v v' : V) m :
  (k, v) ∈ map_set k' v' m → (k, v) ∈ m ∨ (k = k' ∧ v = v').
Proof.
  induction m as [| [k'' v''] m IH]; cbn [map_set].
  - intros [= -> ->]%list_elem_of_singleton. auto.
  - destruct (String.eqb_spec k' k'') as [-> | Hne].
    + intros [[= -> ->] | H]%elem_of_cons; [auto |]. left. right. exact H.
    + intros [[= -> ->] | H]%elem_of_cons; [left; left |].
      destruct (IH H) as [? | ?]; [left; right; assumption | auto].
Qed.

Lemma map_get_elem_NoDup k (v : V) m :
  NoDup (map fst m) → (k, v) ∈ m → map_get k m = Some v.
Proof.
  induction m as [| [k' v'] m IH]; cbn [map fst map_get].
  - intros _ H. inversion H.
  - intros [Hk Hnd]%NoDup_cons [[= -> ->] | H]%elem_of_cons.
    + rewrite String.eqb_refl. reflexivity.
    + destruct (String.eqb_spec k k') as [-> | Hne]; [| auto].
      exfalso. apply Hk. apply list_elem_of_fmap. exists (k', v). auto.
Qed.

Lemma filled_NoDup l acc :
  NoDup (map fst acc) → NoDup (map fst (foldl g acc l)).
Proof.
  revert acc. induction l as [| a l IH]; intros acc H; cbn [foldl]; [exact H |].
  apply IH. rewrite g_spec. destruct (f a) as [[k v] |]; [apply map_set_NoDup, H | exact H].
Qed.

Lemma filled_origin l acc k v :
  (k, v) ∈ foldl g acc l → (k, v) ∈ acc ∨ ∃ a, a ∈ l ∧ f a = Some (k, v).
Proof.
  revert acc. induction l as [| a l IH]; intros acc H; cbn [foldl] in H; [auto |].
  destruct (IH _ H) as [Hacc | (b & Hb & Hf)].
  - rewrite g_spec in Hacc. destruct (f a) as [[k' v'] |] eqn:Ef; [| auto].
    apply elem_of_map_set in Hacc as [? | [-> ->]]; [auto |].
    right. exists a. split; [left | exact Ef].
  - right. exists b. split; [right; exact Hb | exact Hf].
Qed.

Lemma filled_keeps_key l acc k :
  k ∈ map fst acc → k ∈ map fst (foldl g acc l).
Proof.
  revert acc. induction l as [| a l IH]; intros acc H; cbn [foldl]; [exact H |].
  apply IH. rewrite g_spec. destruct (f a) as [[k' v'] |]; [| exact H].
  rewrite map_set_keys. case_bool_decide; [exact H | apply elem_of_app; auto].
Qed.

Lemma filled_covers l acc a k v :
  a ∈ l → f a = Some (k, v) → k ∈ map fst (foldl g acc l).
Proof.
  revert acc. induction l as [| b l IH]; intros acc Ha Hf; [inversion Ha |].
  cbn [foldl]. apply elem_of_cons in Ha as [-> | Ha]; [| eauto].
  apply filled_keeps_key. rewrite g_spec, Hf, map_set_keys.
  case_bool_decide; [assumption |]. apply elem_of_app. right. left.
Qed.

(** The value filed under [k] is the one of the last element filed there. *)
Lemma filled_latest l acc k :
  map_get k (foldl g acc l)
  = match last (omap (λ a, match f a with
                           | Some (k', v) => if String.eqb k k' then Some v else None
                           | None => None
                           end) l) with
    | Some v => Some v
    | None => map_get k acc
    end.
Proof.
  induction l as [| a l IH] using rev_ind; [reflexivity |].
  rewrite foldl_app, omap_app. cbn [foldl omap list_omap]. rewrite g_spec.
  destruct (f a) as [[k' v] |].
  - destruct (String.eqb k k') eqn:E.
    + apply String.eqb_eq in E as ->. rewrite map_get_set_eq, last_snoc. reflexivity.
    + apply String.eqb_neq in E. rewrite map_get_set_ne by exact E.
      rewrite app_nil_r. exact IH.
  - rewrite app_nil_r. exact IH.
Qed.

End FilledMaps.

Section DeviceLists.
Import Js Hub.

Lemma keys_of_values {V} (key : V → string) (m : list (string * V)) :
  (∀ k v, (k, v) ∈ m → key v = k) → map key (map snd m) = map fst m.
Proof.
  induction m as [| [k v] m IH]; intros H; cbn [map fst snd]; [reflexivity |].
  rewrite (H k v) by left. rewrite IH; [reflexivity |].
  intros k' v' Hin. apply H. right. exact Hin.
Qed.

Lemma elem_of_values {V} (v : V) (m : list (string * V)) :
  v ∈ map snd m → ∃ k, (k, v) ∈ m.
Proof.
  intros ([k v'] & -> & Hin)%list_elem_of_fmap. exists k. exact Hin.
Qed.

Local Abbreviation by_id := (λ s : SocketSnap, Some (snap_id s, s)).
Local Abbreviation set_by_id :=
  (λ (byId : list (string * SocketSnap)) (s : SocketSnap), map_set (snap_id s) s byId).

Lemma set_by_id_spec m a :
  set_by_id m a = match by_id a with Some (k, v) => map_set k v m | None => m end.
Proof. reflexivity. Qed.

Lemma merge_by_id_spec (local gl : list SocketSnap) :
  let r := merge_by_id local gl in
  NoDup (map snap_id r)
  ∧ (∀ id, id ∈ map snap_id r ↔ id ∈ map snap_id local ∨ id ∈ map snap_id gl)
  ∧ (∀ s, s ∈ r → if bool_decide (snap_id s ∈ map snap_id gl)
                   then s ∈ gl else s ∈ local).
Proof.
  cbv zeta. unfold merge_by_id.
  set (m := foldl _ [] (local ++ gl)).
  assert (Hnd : NoDup (map fst m)).
  { apply (filled_NoDup by_id set_by_id set_by_id_spec). constructor. }
  assert (Hkey : ∀ k v, (k, v) ∈ m → snap_id v = k ∧ v ∈ local ++ gl).
  { intros k v Hin.
    apply (filled_origin by_id set_by_id set_by_id_spec) in Hin as [Hin | (a & Ha & [= <- <-])].
    - inversion Hin.
    - auto. }
  assert (Hkeys : map snap_id (map snd m) = map fst m).
  { apply keys_of_values. intros k v Hin. apply Hkey, Hin. }
  split_and!.
  - rewrite Hkeys. exact Hnd.
  - intros id. rewrite Hkeys, <- elem_of_app, <- map_app. split.
    + intros ([k v] & -> & Hin)%list_elem_of_fmap. cbn [fst].
      destruct (Hkey k v Hin) as [<- Hv]. apply list_elem_of_fmap. eauto.
    + intros (s & -> & Hs)%list_elem_of_fmap.
      apply (filled_covers by_id set_by_id set_by_id_spec _ _ s _ s); auto.
  - intros s (k & Hin)%elem_of_values.
    destruct (Hkey k s Hin) as [<- Hs].
    apply (map_get_elem_NoDup _ _ _ Hnd) in Hin. unfold m in Hin.
    rewrite (filled_latest by_id set_by_id set_by_id_spec) in Hin.
    rewrite omap_app, last_app in Hin.
    case_bool_decide as Hgl.
    + destruct (last (omap _ gl)) as [v |] eqn:Elast.
      * injection Hin as ->. apply last_Some_elem_of in Elast.
        apply list_elem_of_omap in Elast as (a & Ha & Heq).
        destruct (String.eqb _ _); [injection Heq as -> | discriminate]. exact Ha.
      * exfalso. apply list_elem_of_fmap in Hgl as (a & Heq & Ha).
        apply last_None in Elast.
        assert (Hin' : a ∈ omap (λ a0, if String.eqb (snap_id s) (snap_id a0)
                                       then Some a0 else None) gl).
        { apply list_elem_of_omap. exists a. split; [exact Ha |].
          rewrite Heq, String.eqb_refl. reflexivity. }
        rewrite Elast in Hin'. inversion Hin'.
    + apply elem_of_app in Hs as [Hs | Hs]; [exact Hs |].
      exfalso. apply Hgl. apply list_elem_of_fmap. eauto.
Qed.

(** X13. The socket snapshot that feeds the duplicate guard and the device
    list never loses a socket of this process. Without cluster support, or
    when the cluster-wide fetch fails or is not fulfilled within 750 ms, it
    is exactly the local sockets. Otherwise it is the merge of both views by
    socket id: no id twice, every local and every fetched id present, and
    for an id the fetch reported the fetched snapshot is the one kept. *)
Theorem fetched_sockets_merge_local_and_global st env :
  let r := safeFetchSockets st env in
  (∀ s, s ∈ sockets st → s_id s ∈ map snap_id r)
  ∧ (supportsGlobal env = false ∨ race (outcome env) = None → r = local_sockets st)
  ∧ (∀ gl, race (outcome env) = Some gl
           ↔ ∃ t, outcome env = Resolves t gl ∧ t < 750)
  ∧ (∀ gl, supportsGlobal env = true → race (outcome env) = Some gl →
       NoDup (map snap_id r)
       ∧ (∀ id, id ∈ map snap_id r ↔ id ∈ map s_id (sockets st) ∨ id ∈ map snap_id gl)
       ∧ (∀ s, s ∈ r → if bool_decide (snap_id s ∈ map snap_id gl)
                        then s ∈ gl else s ∈ local_sockets st)).
Proof.
  cbv zeta.
  assert (Hloc : map snap_id (local_sockets st) = map s_id (sockets st)).
  { unfold local_sockets. rewrite map_map. reflexivity. }
  split_and!.
  - intros s Hs. unfold safeFetchSockets.
    assert (Hl : s_id s ∈ map snap_id (local_sockets st)).
    { rewrite Hloc. apply list_elem_of_fmap. eauto. }
    destruct (supportsGlobal env); cbn [negb]; [| exact Hl].
    destruct (race (outcome env)) as [gl |]; [| exact Hl].
    apply (merge_by_id_spec (local_sockets st) gl). auto.
  - unfold safeFetchSockets. intros [-> | ->]; [reflexivity |].
    destruct (supportsGlobal env); reflexivity.
  - intros gl. unfold race, GUARD_MS. split.
    + destruct (outcome env) as [t l | t |]; try discriminate.
      destruct (Z.ltb_spec t 750); [| discriminate]. intros [= ->]. eauto.
    + intros (t & -> & Ht). destruct (Z.ltb_spec t 750); [reflexivity | lia].
  - intros gl Hsup Hrace. unfold safeFetchSockets. rewrite Hsup, Hrace. cbn [negb].
    rewrite <- Hloc. apply merge_by_id_spec.
Qed.

Local Abbreviation device_of st :=
  (λ s : SocketSnap,
     if truthy (d_xrId (snap_data s))
     then Some (or_else (d_xrId (snap_data s)) "",
                device_entry st (or_else (d_xrId (snap_data s)) "") s)
     else None).
Local Abbreviation set_device st :=
  (λ (byId : list (string * DeviceEntry)) (s : SocketSnap),
     if truthy (d_xrId (snap_data s))
     then let id := or_else (d_xrId (snap_data s)) "" in
          map_set id (device_entry st id s) byId
     else byId).

Lemma set_device_spec st m a :
  set_device st m a
  = match device_of st a with Some (k, v) => map_set k v m | None => m end.
Proof. cbv beta zeta. destruct (truthy _); reflexivity. Qed.

Lemma truthy_inv (x : option string) :
  truthy x = true → ∃ s, x = Some s ∧ s ≠ ""%string ∧ or_else x "" = s.
Proof.
  destruct x as [s |]; cbn; [| discriminate].
  destruct (String.eqb_spec s ""); [discriminate |]. eauto.
Qed.

(** X14. The device list has exactly one entry per non-empty identity
    carried by a fetched socket, however many sockets carry it, and none for
    a socket without identity. Each entry is filed under that identity,
    takes its name from a socket carrying it ('Unknown' when that socket
    has none) and shows the battery and telemetry records stored for the
    identity at that moment. *)
Theorem device_list_one_entry_per_identity st env :
  let list := buildDeviceListGlobal st env in
  NoDup (map de_xrId list)
  ∧ (∀ x, x ∈ map de_xrId list
          ↔ x ≠ ""%string
            ∧ ∃ s, s ∈ safeFetchSockets st env ∧ d_xrId (snap_data s) = Some x)
  ∧ (∀ e, e ∈ list →
       de_battery e = batteryByDevice st !! de_xrId e
       ∧ de_telemetry e = telemetryByDevice st !! de_xrId e
       ∧ ∃ s, s ∈ safeFetchSockets st env
              ∧ d_xrId (snap_data s) = Some (de_xrId e)
              ∧ de_deviceName e = or_else (d_deviceName (snap_data s)) "Unknown").
Proof.
  cbv zeta. unfold buildDeviceListGlobal.
  set (m := foldl _ [] (safeFetchSockets st env)).
  assert (Hnd : NoDup (map fst m)).
  { apply (filled_NoDup (device_of st) (set_device st) (set_device_spec st)). constructor. }
  assert (Hkey : ∀ k e, (k, e) ∈ m →
            de_xrId e = k ∧ k ≠ ""%string
            ∧ de_battery e = batteryByDevice st !! k
            ∧ de_telemetry e = telemetryByDevice st !! k
            ∧ ∃ s, s ∈ safeFetchSockets st env
                   ∧ d_xrId (snap_data s) = Some k
                   ∧ de_deviceName e = or_else (d_deviceName (snap_data s)) "Unknown").
  { intros k e Hin.
    apply (filled_origin (device_of st) (set_device st) (set_device_spec st))
      in Hin as [Hin | (a & Ha & Hf)]; [inversion Hin |].
    cbv beta in Hf. destruct (truthy (d_xrId (snap_data a))) eqn:Ht; [| discriminate].
    apply truthy_inv in Ht as (x & Hx & Hne & Hor). rewrite Hor in Hf.
    injection Hf as <- <-. cbn. split_and!; eauto. }
  assert (Hkeys : map de_xrId (map snd m) = map fst m).
  { apply keys_of_values. intros k v Hin. apply Hkey, Hin. }
  split_and!.
  - rewrite Hkeys. exact Hnd.
  - intros x. rewrite Hkeys. split.
    + intros ([k e] & -> & Hin)%list_elem_of_fmap. cbn [fst].
      destruct (Hkey k e Hin) as (_ & Hne & _ & _ & s & Hs & Hx & _). eauto.
    + intros (Hne & s & Hs & Hx).
      apply (filled_covers (device_of st) (set_device st) (set_device_spec st)
               _ _ s x (device_entry st x s)); [exact Hs |].
      cbv beta. rewrite Hx, truthy_Some, or_else_Some by exact Hne. reflexivity.
  - intros e (k & Hin)%elem_of_values.
    destruct (Hkey k e Hin) as (<- & _ & Hb & Ht & s & Hs & Hx & Hn). eauto 8.
Qed.

End DeviceLists.

(** ** What the chat history holds *)

Section ChatCopies.
Import Js Hub Props Facts.

Lemma addToMessageHistory_last history msg id stamp :
  last (addToMessageHistory history msg id stamp) = Some (stamp_message msg id stamp).
Proof.
  unfold addToMessageHistory. case_match; [| apply last_snoc].
  destruct history as [| m h]; [discriminate |]. cbn [app tail].
  apply last_snoc.
Qed.

Lemma addToMessageHistory_stored history msg id stamp :
  m_type msg = "message"%string →
  Forall stored_chat history →
  Forall stored_chat (addToMessageHistory history msg id stamp).
Proof.
  intros Hty Hall.
  assert (Hpushed : Forall stored_chat (history ++ [stamp_message msg id stamp])).
  { apply Forall_app. split; [exact Hall |]. constructor; [| constructor].
    unfold stored_chat. cbn. split_and!; eauto. }
  unfold addToMessageHistory. case_match; [| exact Hpushed].
  destruct (history ++ [stamp_message msg id stamp]); [constructor |].
  apply Forall_cons in Hpushed as [_ Htail]. exact Htail.
Qed.

Lemma on_message_writes st sid payload o :
  messageHistory (on_message st sid payload o).1 = messageHistory st
  ∨ ∃ msg id stamp,
      m_type msg = "message"%string
      ∧ messageHistory (on_message st sid payload o).1
        = addToMessageHistory (messageHistory st) msg id stamp.
Proof.
  unfold on_message. destruct payload as [| data]; [left; reflexivity |].
  destruct (String.eqb _ "transcript"); [left; reflexivity |].
  right. cbn [fst messageHistory set_messageHistory].
  eexists (mkMessage "message" _ _ _ _ _ _ _ _), _, _. split; reflexivity.
Qed.

(** Only the chat path writes the history, and what it files is a message
    of type "message". *)
Lemma step_history_writes st i o :
  messageHistory (step st i o).1 = messageHistory st
  ∨ ∃ msg id stamp,
      m_type msg = "message"%string
      ∧ messageHistory (step st i o).1
        = addToMessageHistory (messageHistory st) msg id stamp.
Proof.
  destruct i as [sid | sid r | d | t]; cbn.
  - case_match; cbn; auto.
  - case_match; [| cbn; auto]. destruct r; cbn.
    + auto.
    + unfold on_identify, reject, accept.
      pose proof (close_stores st sid (fetch o 0%nat)) as [_ Hc0].
      pose proof (close_stores st sid (fetch o 1%nat)) as [_ Hc1].
      repeat case_match; cbn in *; simplify_eq; auto.
      all: match goal with
           | H : tryAutoPair ?s ?x = _ |- _ =>
               pose proof (tryAutoPair_stores s x) as (_ & _ & Ht);
               rewrite H in Ht; cbn in Ht; rewrite Ht; auto
           end.
    + unfold on_metrics_subscribe; case_match; cbn; auto.
    + unfold on_metrics_unsubscribe; case_match; cbn; auto.
    + auto.
    + unfold on_pair_with; repeat case_match; cbn; auto.
    + unfold on_signal, intercept_quality; repeat case_match; cbn; auto.
    + unfold on_control; repeat case_match; cbn; auto.
    + exact (on_message_writes st sid payload o).
    + unfold on_battery; repeat case_match; cbn; auto.
    + unfold on_telemetry; repeat case_match; cbn; auto.
    + unfold on_webrtc_quality; repeat case_match; cbn; auto.
    + auto.
    + left. exact (proj2 (close_stores st sid (fetch o 0%nat))).
  - unfold desktop_telemetry; case_match; cbn; auto.
  - destruct t; cbn; auto.
Qed.

(** X15. Every entry of the chat history, at any moment, is a copy filed
    by the chat path: its type is "message", it carries an id, and its
    timestamp is the server's clock reading, whatever timestamp the client
    sent. Transcripts and every other event never enter the history. *)
Theorem chat_history_holds_stamped_messages trace :
  Forall stored_chat (messageHistory (run initial trace).1).
Proof.
  apply (run_invariant (λ st, Forall stored_chat (messageHistory st))).
  - intros st i o Hall.
    destruct (step_history_writes st i o) as [-> | (msg & id & stamp & Hty & ->)];
      [exact Hall |].
    apply addToMessageHistory_stored; assumption.
  - constructor.
Qed.

(** X16. A chat message is relayed once, without id and with the client's
    timestamp when the client sent one, while the copy appended to the
    history is stamped by the server with an id and its own time: live relay
    and history replay of one message differ in exactly these fields. A
    transcript leaves the history as it is. *)
Theorem chat_relay_and_stored_copy_differ st sid data o :
  let result := on_message st sid (Object data) o in
  if String.eqb (or_else (c_type data) "message") "transcript"
  then messageHistory result.1 = messageHistory st
  else ∃ target msg,
         result.2 = [Emit target (message msg)]
         ∧ m_id msg = None
         ∧ m_timestamp msg = (if truthy (c_timestamp data)
                              then ClientStamp (or_else (c_timestamp data) "")
                              else ServerStamp (clock o 0%nat))
         ∧ last (messageHistory result.1)
           = Some (mkMessage "message" (m_from msg) (m_to msg) (m_text msg)
                             (m_urgent msg) (m_sender msg) (m_xrId msg)
                             (ServerStamp (clock o 2%nat)) (Some (clock o 1%nat))).
Proof.
  cbv zeta. unfold on_message. case_match; [reflexivity |].
  cbn [fst snd messageHistory set_messageHistory].
  do 2 eexists. split_and!; [reflexivity.. |].
  rewrite addToMessageHistory_last. reflexivity.
Qed.

End ChatCopies.

(** ** The latest-reading tables: battery and call quality *)

Section LatestTables.
Import Js Hub Props Facts Metrics.

Lemma clamp_pct_range v :
  clamp_pct v = NaN ∨ ∃ n, clamp_pct v = Num n ∧ 0 ≤ n ≤ 100.
Proof.
  unfold clamp_pct. destruct (numOrNull v) as [n |]; [| auto].
  right. exists (Z.max 0 (Z.min 100 n)). split; [reflexivity | lia].
Qed.

Local Abbreviation battery_write st st' :=
  (batteryByDevice st' = batteryByDevice st
   ∨ ∃ id v c t, id ≠ ""%string
       ∧ batteryByDevice st' = <[id := mkBattery (clamp_pct v) c t]> (batteryByDevice st)).

Local Abbreviation quality_write st st' :=
  (qualityByDevice st' = qualityByDevice st
   ∨ ∃ id snap, id ≠ ""%string ∧ qs_xrId snap = id
       ∧ qualityByDevice st' = map_set id snap (qualityByDevice st)).

Lemma on_battery_writes st sid xrId v c o :
  battery_write st (on_battery st sid xrId v c o).1
  ∧ quality_write st (on_battery st sid xrId v c o).1.
Proof.
  unfold on_battery. destruct (truthy (id_or_socket st sid xrId)) eqn:Ht; cbn [negb fst].
  - apply truthy_inv in Ht as (x & _ & Hne & ->).
    split; [right; exists x, v, c, (clock o 0%nat); split; [exact Hne | reflexivity] |].
    left. reflexivity.
  - split; left; reflexivity.
Qed.

Lemma on_webrtc_quality_writes st sid payload o :
  battery_write st (on_webrtc_quality st sid payload o).1
  ∧ quality_write st (on_webrtc_quality st sid payload o).1.
Proof.
  unfold on_webrtc_quality. destruct payload as [| q]; [split; left; reflexivity |].
  destruct (truthy (id_or_socket st sid (qp_xrId q))) eqn:Ht; cbn [negb fst].
  - apply truthy_inv in Ht as (x & _ & Hne & ->).
    split; [left; reflexivity |].
    right. do 2 eexists. split; [exact Hne |]. split; [| reflexivity]. reflexivity.
  - split; left; reflexivity.
Qed.

Lemma same_metrics_tables st st' :
  same_metrics st st' → battery_write st st' ∧ quality_write st st'.
Proof. intros (Hb & _ & Hq & _). auto. Qed.

(** Only the battery handler writes the battery table and only the
    [webrtc_quality] handler writes the quality table. *)
Lemma step_tables st i o :
  battery_write st (step st i o).1 ∧ quality_write st (step st i o).1.
Proof.
  destruct i as [sid | sid r | d | t]; cbn [step].
  - case_match; cbn; auto.
  - case_match; [| cbn; auto]. destruct r; cbn [handle].
    + cbn; auto.
    + apply same_metrics_tables. unfold on_identify, reject, accept.
      pose proof (close_stores st sid (fetch o 0%nat)) as [Hc0 _].
      pose proof (close_stores st sid (fetch o 1%nat)) as [Hc1 _].
      unfold same_metrics in *.
      repeat case_match; cbn in *; simplify_eq; auto 10.
      all: match goal with
           | H : tryAutoPair ?s ?x = _ |- _ =>
               pose proof (tryAutoPair_stores s x) as (_ & Ht & _);
               rewrite H in Ht; cbn in Ht; exact Ht
           end.
    + unfold on_metrics_subscribe; case_match; cbn; auto.
    + unfold on_metrics_unsubscribe; case_match; cbn; auto.
    + cbn; auto.
    + unfold on_pair_with; repeat case_match; cbn; auto.
    + unfold on_signal, intercept_quality; repeat case_match; cbn; auto.
    + unfold on_control; repeat case_match; cbn; auto.
    + unfold on_message; repeat case_match; cbn; auto.
    + apply on_battery_writes.
    + unfold on_telemetry; repeat case_match; cbn; auto.
    + apply on_webrtc_quality_writes.
    + cbn; auto.
    + apply same_metrics_tables. exact (proj1 (close_stores st sid (fetch o 0%nat))).
  - unfold desktop_telemetry; case_match; cbn; auto.
  - destruct t; cbn; auto.
Qed.

(** X17. A battery level that the server holds, at any moment, is filed
    under a non-empty identity and is either not a number or a number
    between 0 and 100: readings outside that range are clamped on arrival,
    and no other handler writes the table. *)
Theorem battery_levels_clamped trace x b :
  batteryByDevice (run initial trace).1 !! x = Some b →
  x ≠ ""%string ∧ (b_pct b = NaN ∨ ∃ n, b_pct b = Num n ∧ 0 ≤ n ≤ 100).
Proof.
  revert x b.
  apply (run_invariant
           (λ st, ∀ x b, batteryByDevice st !! x = Some b →
                         x ≠ ""%string ∧ (b_pct b = NaN ∨ ∃ n, b_pct b = Num n ∧ 0 ≤ n ≤ 100))).
  - intros st i o Hinv x b.
    destruct (step_tables st i o) as [[-> | (id & v & c & t & Hne & ->)] _]; [apply Hinv |].
    destruct (decide (id = x)) as [<- | Hx].
    + rewrite lookup_insert_eq. intros [= <-]. split; [exact Hne | apply clamp_pct_range].
    + rewrite lookup_insert_ne by exact Hx. apply Hinv.
  - intros x b H. cbn in H. rewrite lookup_empty in H. discriminate.
Qed.

Lemma map_set_ok id (snap : QualitySnap) m :
  qs_xrId snap = id →
  Forall (λ kv, qs_xrId kv.2 = kv.1) m →
  Forall (λ kv, qs_xrId kv.2 = kv.1) (map_set id snap m).
Proof.
  intros Hid. induction 1 as [| [k v] m Hkv Hm IH]; cbn [map_set].
  - constructor; [exact Hid | constructor].
  - destruct (String.eqb_spec id k) as [-> | Hne]; constructor; auto.
Qed.

Lemma step_quality_table st i o :
  quality_table_ok st → quality_table_ok (step st i o).1.
Proof.
  intros [Hnd Hok]. unfold quality_table_ok.
  destruct (step_tables st i o) as [_ [-> | (id & snap & Hne & Hid & ->)]]; [split; auto |].
  split; [apply map_set_NoDup, Hnd | apply map_set_ok; assumption].
Qed.

Lemma step_quality_keys st i o x :
  x ∈ map fst (qualityByDevice st) → x ∈ map fst (qualityByDevice (step st i o).1).
Proof.
  destruct (step_tables st i o) as [_ [-> | (id & snap & Hne & Hid & ->)]]; [auto |].
  intros Hx. rewrite map_set_keys. case_bool_decide; [exact Hx |]. apply elem_of_app. auto.
Qed.

(** X18. The quality table behind every [webrtc_quality_update] broadcast
    has at most one row per identity, and a row is never removed: once a
    device has reported quality it stays in the broadcast through every
    later event, its own disconnect included. *)
Theorem quality_rows_unique_and_permanent trace more :
  let st := (run initial trace).1 in
  let rows (s : ServerState) := map qs_xrId (map snd (qualityByDevice s)) in
  NoDup (rows st) ∧ ∀ x, x ∈ rows st → x ∈ rows (run st more).1.
Proof.
  cbv beta zeta.
  assert (Hok : ∀ t, quality_table_ok (run initial t).1).
  { intros t. apply (run_invariant quality_table_ok).
    - intros s i o. apply step_quality_table.
    - split; constructor. }
  assert (Hkeys : ∀ s, quality_table_ok s →
            map qs_xrId (map snd (qualityByDevice s)) = map fst (qualityByDevice s)).
  { intros s [_ Hs]. apply keys_of_values. intros k v Hin.
    rewrite Forall_forall in Hs. exact (Hs (k, v) Hin). }
  pose proof (Hok trace) as Hst.
  pose proof (Hok (trace ++ more)) as Hst'. rewrite run_app in Hst'. cbn [fst] in Hst'.
  rewrite (Hkeys _ Hst), (Hkeys _ Hst'). split; [apply Hst |].
  intros x. generalize (run initial trace).1. clear.
  induction more as [| [i o] more IH]; intros s Hx; [exact Hx |].
  rewrite run_cons. cbn [fst]. apply IH, step_quality_keys, Hx.
Qed.

End LatestTables.

(** A level far above the scale is stored as 100. *)
Lemma battery_levels_clamped_witness :
  ∃ b, Hub.batteryByDevice
         (Hub.run Hub.initial
            [(Hub.Connection "s1", Samples.at_ms 1000);
             (Hub.FromSocket "s1" (Hub.Battery (Some "XR-1234"%string) (Js.Num 250) true),
              Samples.at_ms 2000)]).1 !! "XR-1234"%string = Some b
       ∧ Hub.b_pct b = Js.Num 100.
Proof.
  exists (Hub.mkBattery (Js.Num 100) true 2000).
  split; [vm_compute; reflexivity |].
  destruct (battery_levels_clamped
              [(Hub.Connection "s1", Samples.at_ms 1000);
               (Hub.FromSocket "s1" (Hub.Battery (Some "XR-1234"%string) (Js.Num 250) true),
                Samples.at_ms 2000)]
              "XR-1234"%string
              (Hub.mkBattery (Js.Num 100) true 2000))
    as [_ H]; [vm_compute; reflexivity |].
  reflexivity.
Defined.

(** ** Subscribing to a device's metrics *)

Section MetricsRoom.
Import Js Hub Props Metrics.

Lemma room_members_socket_leave st sid r r' y :
  y ∈ room_members (socket_leave sid r st) r'
  ↔ y ∈ room_members st r' ∧ (r' = r → y ≠ sid).
Proof. unfold room_members, socket_leave. cbn [adapterRooms set_adapter]. apply members_adapter_del. Qed.

Lemma elem_of_deliver_room st r y :
  y ∈ deliver st (ToRoom r) ↔ connected st y = true ∧ y ∈ room_members st r.
Proof. cbn [deliver]. rewrite list_elem_of_filter. tauto. Qed.

(** X19. After [metrics_subscribe] for an identity, the subscribing socket
    is among the recipients of that identity's [metrics_update] room and
    has been sent the stored telemetry and quality series; after
    [metrics_unsubscribe] it no longer is. Neither step changes whether any
    other socket receives the updates, and a subscription without identity
    does nothing. *)
Theorem metrics_subscription_round_trip st sid x :
  x ≠ ""%string → connected st sid = true →
  let room := ToRoom (metricsRoom x) in
  let subscribed := on_metrics_subscribe st sid (Some x) in
  let unsubscribed := on_metrics_unsubscribe subscribed.1 sid (Some x) in
  sid ∈ deliver subscribed.1 room
  ∧ subscribed.2 = [Emit (ToSocket sid)
                         (metrics_snapshot x (series (telemetryHist st) x)
                                             (series (qualityHist st) x))]
  ∧ ¬ (sid ∈ deliver unsubscribed.1 room)
  ∧ (∀ y, y ≠ sid →
       (y ∈ deliver subscribed.1 room ↔ y ∈ deliver st room)
       ∧ (y ∈ deliver unsubscribed.1 room ↔ y ∈ deliver st room))
  ∧ on_metrics_subscribe st sid None = (st, [])
  ∧ on_metrics_unsubscribe st sid None = (st, []).
Proof.
  intros Hx Hconn. cbv zeta. unfold on_metrics_subscribe, on_metrics_unsubscribe.
  rewrite !truthy_Some, !or_else_Some by exact Hx. cbn [negb fst snd].
  set (st1 := socket_join sid (metricsRoom x) st).
  assert (Hc1 : ∀ y, connected st1 y = connected st y) by reflexivity.
  assert (Hc2 : ∀ y, connected (socket_leave sid (metricsRoom x) st1) y = connected st y)
    by reflexivity.
  assert (Hm1 : ∀ y, y ∈ room_members st1 (metricsRoom x)
                     ↔ y ∈ room_members st (metricsRoom x) ∨ y = sid).
  { intros y. unfold st1. rewrite room_members_socket_join, String.eqb_refl, Hconn.
    apply elem_of_set_add. }
  split_and!; try reflexivity.
  - apply elem_of_deliver_room. rewrite Hc1, Hm1. auto.
  - rewrite elem_of_deliver_room, room_members_socket_leave. intros (_ & _ & Hne).
    apply Hne; reflexivity.
  - intros y Hy. rewrite !elem_of_deliver_room, room_members_socket_leave, Hc1, Hc2, Hm1.
    tauto.
Qed.

End MetricsRoom.

(** A dashboard socket subscribes to the headset's metrics. *)
Lemma metrics_subscription_round_trip_witness :
  let st := (Hub.run Hub.initial [(Hub.Connection "dash", Samples.at_ms 1000)]).1 in
  "dash"%string ∈ Hub.deliver (Hub.on_metrics_subscribe st "dash" (Some "XR-1234"%string)).1
                              (Hub.ToRoom (Hub.metricsRoom "XR-1234")).
Proof.
  intros st.
  refine (proj1 (metrics_subscription_round_trip st "dash" "XR-1234" _ _)).
  - discriminate.
  - vm_compute. reflexivity.
Defined.

(** ** A telemetry sample carries the last battery level *)

Section BatteryInTelemetry.
Import Js Hub Props Metrics.

Lemma evict_keeps_last {A} (ts_of : A → option Z) cutoff (arr : list A) (s : A) :
  expired ts_of cutoff s = false → last (evict ts_of cutoff (arr ++ [s])) = Some s.
Proof.
  intros Hs. induction arr as [| a r IH]; cbn [app evict].
  - rewrite Hs. reflexivity.
  - destruct (expired ts_of cutoff a); [exact IH |].
    rewrite app_comm_cons. apply last_snoc.
Qed.

(** X20. When a device has reported a battery level and then sends
    telemetry, the history entry made for that telemetry, which is also the
    one streamed to the metrics subscribers, carries the clamped battery
    level and the time of the telemetry, and the device's latest telemetry
    record is the new one. (The clock is assumed not to jump by a whole
    window between the handler's two readings.) *)
Theorem telemetry_sample_carries_battery
    st sid x (level : Val) (charging : bool) (d : TelemetryPayload) (o o' : Oracle) :
  x ≠ ""%string → tp_xrId d = Some x →
  clock o' 1%nat - METRIC_WINDOW_MS ≤ clock o' 0%nat →
  let st1 := (on_battery st sid (Some x) level charging o).1 in
  let result := on_telemetry st1 sid (Object d) o' in
  let rec := telemetry_rec x d "none" (clock o' 0%nat) in
  ∃ sample,
    result.2 = [Emit (ToRoom (metricsRoom x)) (metrics_update_telemetry x (Some sample));
                Emit ToAll (telemetry_update rec)]
    ∧ last (series (telemetryHist result.1) x) = Some sample
    ∧ th_batteryPct sample = clamp_pct level
    ∧ th_ts sample = clock o' 0%nat
    ∧ telemetryByDevice result.1 !! x = Some rec.
Proof.
  intros Hx Hd Hclock. cbv zeta.
  unfold on_battery, on_telemetry, id_or_socket. rewrite Hd.
  rewrite !truthy_Some, !or_else_Some by exact Hx. cbn [negb fst snd].
  set (st1 := set_battery _ st).
  set (rec := telemetry_rec x d "none" (clock o' 0%nat)).
  assert (Hlast : last (series (telemetryHist (ingest_telemetry st1 rec (clock o' 1%nat))) x)
                  = Some (telemetry_sample st1 rec)).
  { unfold ingest_telemetry. cbn [telemetryHist set_telemetry].
    change (tr_xrId rec) with x. rewrite series_pushHist.
    apply evict_keeps_last. unfold expired, th_ts_of. cbn [th_ts telemetry_sample].
    change (tr_ts rec) with (clock o' 0%nat).
    destruct (Z.ltb_spec (clock o' 0%nat) (clock o' 1%nat - METRIC_WINDOW_MS)); [lia | reflexivity]. }
  exists (telemetry_sample st1 rec). rewrite Hlast. split_and!; try reflexivity.
  - unfold telemetry_sample. cbn [th_batteryPct]. change (tr_xrId rec) with x.
    unfold st1. cbn [batteryByDevice set_battery]. rewrite lookup_insert_eq. reflexivity.
  - unfold ingest_telemetry. cbn [telemetryByDevice set_telemetry].
    change (tr_xrId rec) with x. apply lookup_insert_eq.
Qed.

End BatteryInTelemetry.

(** The headset reports 57 % and then a telemetry sample. *)
Lemma telemetry_sample_carries_battery_witness :
  ∃ sample,
    (Hub.on_telemetry
       (Hub.on_battery Hub.initial "s1" (Some "XR-1234"%string) (Js.Num 57) false
                       (Samples.at_ms 1000)).1
       "s1" (Hub.Object (Hub.mkTelemetryPayload (Some "XR-1234"%string) (Some "wifi"%string)
                                                Samples.net0))
       (Samples.at_ms 2000)).2
    = [Hub.Emit (Hub.ToRoom "metrics:XR-1234")
                (Hub.metrics_update_telemetry "XR-1234" (Some sample));
       Hub.Emit Hub.ToAll
                (Hub.telemetry_update
                   (Hub.telemetry_rec "XR-1234"
                      (Hub.mkTelemetryPayload (Some "XR-1234"%string) (Some "wifi"%string)
                                              Samples.net0)
                      "none" 2000))]
    ∧ Hub.th_batteryPct sample = Js.Num 57.
Proof.
  destruct (telemetry_sample_carries_battery Hub.initial "s1" "XR-1234" (Js.Num 57) false
              (Hub.mkTelemetryPayload (Some "XR-1234"%string) (Some "wifi"%string) Samples.net0)
              (Samples.at_ms 1000) (Samples.at_ms 2000))
    as (sample & Hout & _ & Hpct & _).
  - discriminate.
  - reflexivity.
  - vm_compute. discriminate.
  - exists sample. split; [exact Hout | exact Hpct].
Defined.

(** ** Identify: turning away, and pairing on arrival *)

Section Identify.
Import Js Hub Props.

Lemma connected_update_data st s' f sid :
  connected (update_data s' f st) sid = connected st sid.
Proof.
  unfold connected. rewrite get_socket_update_data.
  destruct (get_socket st sid); reflexivity.
Qed.

Lemma get_socket_remove_eq st sid : get_socket (remove_socket sid st) sid = None.
Proof.
  unfold get_socket, remove_socket. cbn [sockets set_sockets].
  induction (sockets st) as [| a l IH]; [reflexivity |].
  rewrite filter_cons. destruct (decide (s_id a ≠ sid)) as [Ha | Ha]; [| exact IH].
  cbn [List.find]. destruct (String.eqb_spec (s_id a) sid); [contradiction | exact IH].
Qed.

Lemma connected_close st sid env : connected (close st sid env).1 sid = false.
Proof.
  unfold connected.
  assert (H : get_socket (close st sid env).1 sid = None).
  { transitivity (get_socket (remove_socket sid (leaveAll sid st)) sid).
    - unfold close, on_disconnect, unregister. repeat case_match; reflexivity.
    - apply get_socket_remove_eq. }
  rewrite H. apply bool_decide_eq_false_2. intros [? [=]].
Qed.

(** X21. An identify without a usable identity (absent, not a string, or
    empty) is answered with the error 'Missing xrId' and the connection is
    closed: the socket is gone afterwards, nothing was registered for it,
    and every other socket is left as it was. *)
Theorem identify_without_identity_closes st sid deviceName xrId o :
  truthy xrId = false →
  let result := on_identify st sid deviceName xrId o in
  result.2 = Emit (ToSocket sid) (error "Missing xrId") :: (close st sid (fetch o 0%nat)).2
  ∧ Closed sid ∈ result.2
  ∧ connected result.1 sid = false
  ∧ (∀ y, y ≠ sid → get_socket result.1 y = get_socket st y)
  ∧ (∀ k, d_xrId (data_of st sid) ≠ Some k →
          clients result.1 !! k = clients st !! k
          ∧ desktopClients result.1 !! k = desktopClients st !! k).
Proof.
  intros Hx. cbv zeta. unfold on_identify. rewrite Hx. cbn [negb].
  destruct (close st sid (fetch o 0%nat)) as [st1 closing] eqn:Hclose. cbn [fst snd].
  assert (Hst : st1 = (close st sid (fetch o 0%nat)).1) by (rewrite Hclose; reflexivity).
  assert (Hout : closing = (close st sid (fetch o 0%nat)).2) by (rewrite Hclose; reflexivity).
  split_and!.
  - reflexivity.
  - right. rewrite Hout. unfold close.
    destruct (on_disconnect _ _ _ _) as [st2 out]. cbn [snd].
    rewrite !elem_of_app. right. right. left. left.
  - rewrite Hst. apply connected_close.
  - intros y Hy. rewrite Hst. apply get_socket_close, Hy.
  - intros k Hk. rewrite Hst. destruct (clients_close st sid (fetch o 0%nat) k Hk) as (? & _ & ?).
    auto.
Qed.

Lemma accept_auto_pairs st sid deviceName x partnerId partner roomId o :
  map_get x PAIRINGS_MAP = Some partnerId →
  isPairAllowed x partnerId = true →
  getRoomIdForPair x partnerId = roomId →
  x ≠ partnerId → roomId ≠ roomOf x →
  connected st sid = true →
  truthy (d_roomId (data_of st sid)) = false →
  clients st !! partnerId = Some partner →
  connected st partner = true →
  (length (room_members st roomId) < 2)%nat →
  let result := accept st sid deviceName x o in
  room_members result.1 roomId = set_add partner (set_add sid (room_members st roomId))
  ∧ Emit (ToRoom roomId) (room_joined roomId (listRoomMembers result.1 roomId)) ∈ result.2
  ∧ d_roomId (data_of result.1 sid) = Some roomId.
Proof.
  intros Hmap Hal Hroom Hne Hroom' Hconn Hnoroom Hpartner Hpopen Hcount. cbv zeta.
  unfold accept.
  set (f := λ d, mkData (Some x) (Some (or_else deviceName "Unknown"))
                        (Some (clock o 0%nat)) (d_roomId d)).
  set (st1 := update_data sid f st).
  set (st2 := socket_join sid (roomOf x) st1).
  set (st3 := set_registry _ _ _ st2).
  assert (Hdata : data_of st3 sid = f (data_of st sid)).
  { change (data_of st3 sid) with (data_of st1 sid). unfold st1.
    rewrite data_of_update_data, String.eqb_refl, Hconn. reflexivity. }
  rewrite Hdata. cbn [f d_roomId]. rewrite Hnoroom.
  assert (Hmem : room_members st3 roomId = room_members st roomId).
  { change (room_members st3 roomId) with (room_members st2 roomId). unfold st2.
    rewrite room_members_socket_join.
    destruct (String.eqb_spec roomId (roomOf x)); [contradiction | reflexivity]. }
  assert (Hme : clients st3 !! x = Some sid) by apply lookup_insert_eq.
  assert (Hp : clients st3 !! partnerId = Some partner).
  { unfold st3. cbn [clients set_registry]. rewrite lookup_insert_ne by exact Hne.
    exact Hpartner. }
  assert (Hopen : ∀ y, connected st3 y = connected st y).
  { intros y. change (connected st3 y) with (connected st1 y). unfold st1.
    apply connected_update_data. }
  unfold tryAutoPair. rewrite Hmap, Hme, Hp, Hal, Hroom, Hmem. cbn [negb].
  destruct (Nat.leb_spec 2 (length (room_members st roomId))) as [Hfull | _]; [lia |].
  cbn [fst snd]. split_and!.
  - change (room_members (update_data _ _ (update_data _ _ ?s)) ?r) with (room_members s r).
    rewrite !room_members_socket_join, !String.eqb_refl, connected_socket_join, !Hopen.
    rewrite Hconn, Hpopen, Hmem. reflexivity.
  - apply elem_of_app. right. left.
  - rewrite data_of_update_data.
    destruct (String.eqb sid partner && _); [reflexivity |].
    rewrite data_of_update_data, String.eqb_refl.
    change (connected (socket_join _ _ (socket_join _ _ st3)) sid) with (connected st3 sid).
    rewrite Hopen, Hconn. reflexivity.
Qed.

(** X22. When a socket that is in no pair room identifies as one of the
    configured pair, no other socket holds that identity, its partner is
    registered with a socket that is still open and the pair room is not
    full, the identify ends with both in the pair room: the new socket and
    the partner's registered socket are added, [room_joined] goes to the
    room, and the new socket records the room as its own. *)
Theorem identify_auto_pairs st sid deviceName x partnerId partner o :
  (x = "XR-1234" ∧ partnerId = "XR-1238")%string
  ∨ (x = "XR-1238" ∧ partnerId = "XR-1234")%string →
  connected st sid = true →
  find_holder (safeFetchSockets st (fetch o 0%nat)) sid x = None →
  truthy (d_roomId (data_of st sid)) = false →
  clients st !! partnerId = Some partner →
  connected st partner = true →
  let room := "pair:XR-1234:XR-1238"%string in
  (length (room_members st room) < 2)%nat →
  let result := on_identify st sid deviceName (Some x) o in
  room_members result.1 room = set_add partner (set_add sid (room_members st room))
  ∧ Emit (ToRoom room) (room_joined room (listRoomMembers result.1 room)) ∈ result.2
  ∧ d_roomId (data_of result.1 sid) = Some room.
Proof.
  intros Hconf Hconn Hfree Hnoroom Hpartner Hpopen room Hcount. cbv zeta.
  assert (Hx : x ≠ ""%string) by (destruct Hconf as [[-> _] | [-> _]]; discriminate).
  unfold on_identify. rewrite truthy_Some, or_else_Some by exact Hx. cbn [negb].
  rewrite Hfree.
  apply (accept_auto_pairs st sid deviceName x partnerId partner room o); try assumption.
  all: destruct Hconf as [[-> ->] | [-> ->]]; try reflexivity; discriminate.
Qed.

End Identify.

(** A fresh connection identifies without an identity. *)
Lemma identify_without_identity_closes_witness :
  Hub.Closed "s2"
  ∈ (Hub.on_identify Samples.one_socket "s2" (Some "Glass"%string) None
                     (Samples.at_ms 5000)).2.
Proof.
  exact (proj1 (proj2 (identify_without_identity_closes
                         Samples.one_socket "s2" (Some "Glass"%string) None
                         (Samples.at_ms 5000) eq_refl))).
Defined.

(** The headset is identified and waiting; the desktop connects and
    identifies. *)
Lemma identify_auto_pairs_witness :
  let st := (Hub.run Hub.initial
               (Samples.headset_identified
                ++ [(Hub.Connection "s2", Samples.at_ms 4000)])).1 in
  Hub.d_roomId
    (Hub.data_of (Hub.on_identify st "s2" (Some "Desktop"%string) (Some "XR-1238"%string)
                                  (Samples.at_ms 4000)).1 "s2")
  = Some "pair:XR-1234:XR-1238"%string.
Proof.
  intros st.
  refine (proj2 (proj2 (identify_auto_pairs st "s2" (Some "Desktop"%string)
                          "XR-1238" "XR-1234" "s1" (Samples.at_ms 4000) _ _ _ _ _ _ _))).
  - right. split; reflexivity.
  - vm_compute. reflexivity.
  - vm_compute. reflexivity.
  - vm_compute. reflexivity.
  - vm_compute. reflexivity.
  - vm_compute. reflexivity.
  - vm_compute. lia.
Defined.

(** The headset is identified; a second connection claims its identity. *)
Lemma duplicate_claim_rejected_witness :
  let st := (Hub.run Hub.initial
               (Samples.headset_identified
                ++ [(Hub.Connection "s2", Samples.at_ms 4000)])).1 in
  Hub.Closed "s2"
  ∈ (Hub.on_identify st "s2" (Some "Glass-2"%string) (Some "XR-1234"%string)
                     (Samples.at_ms 4000)).2.
Proof.
  intros st.
  refine (proj1 (proj2 (duplicate_claim_rejected st "s2" (Some "Glass-2"%string) "XR-1234"
                          (Samples.at_ms 4000)
                          (Hub.mkSnap "s1" (Hub.mkData (Some "XR-1234"%string)
                                                       (Some "Glass"%string)
                                                       (Some 1000) None))
                          _ _))).
  - discriminate.
  - vm_compute. reflexivity.
Defined.

(** ** Who receives an event that names no recipient *)

Section Recipients.
Import Js Hub Props.

Lemma elem_of_socket_ids st y : y ∈ map s_id (sockets st) ↔ connected st y = true.
Proof.
  unfold connected, get_socket. rewrite bool_decide_eq_true. split.
  - intros (s & -> & Hs)%list_elem_of_fmap.
    destruct (List.find _ (sockets st)) as [s' |] eqn:E; [eauto |].
    apply list_elem_of_In in Hs. eapply List.find_none in E; [| exact Hs].
    cbn in E. rewrite String.eqb_refl in E. discriminate.
  - intros [s Hs]. apply List.find_some in Hs as [Hin Heq].
    apply String.eqb_eq in Heq as <-. apply list_elem_of_fmap. exists s.
    split; [reflexivity | apply list_elem_of_In, Hin].
Qed.

(** X24. An event that names no recipient is routed by the sender's pair
    room, and the three relaying handlers differ in who gets it. With a
    room recorded: a signal reaches the connected members of the room except
    the sender, while a control command and a chat message reach all its
    connected members, the sender included when it is one. Without a room:
    the signal is not relayed at all and the sender gets an error, the
    control command reaches every connection including the sender, and the
    chat message reaches every connection except the sender. *)
Theorem unaddressed_relay_recipients
    st sid (msg : SignalMsg) (p : ControlPayload) (data : ChatPayload) o :
  sg_type msg ≠ Some "webrtc_quality_update"%string → truthy (sg_to msg) = false →
  truthy (cp_to p) = false →
  or_else (c_type data) "message" ≠ "transcript"%string → truthy (c_to data) = false →
  ∃ tS eS tC eC tM eM,
    (on_signal st sid (Object msg) o).2 = [Emit tS eS]
    ∧ (on_control st sid (Object p)).2 = [Emit tC (control eC (cp_from p) (cp_message p))]
    ∧ (on_message st sid (Object data) o).2 = [Emit tM (message eM)]
    ∧ match d_roomId (data_of st sid) with
      | Some r =>
          if String.eqb r "" then
            tS = ToSocket sid ∧ eS = signal_error
            ∧ (∀ y, y ∈ deliver st tC ↔ connected st y = true)
            ∧ (∀ y, y ∈ deliver st tM ↔ connected st y = true ∧ y ≠ sid)
          else
            eS = signal (sg_type msg) (sg_from msg) (DataRaw (sg_data msg))
            ∧ (∀ y, y ∈ deliver st tS
                    ↔ (connected st y = true ∧ y ≠ sid) ∧ y ∈ room_members st r)
            ∧ (∀ y, y ∈ deliver st tC ↔ connected st y = true ∧ y ∈ room_members st r)
            ∧ (∀ y, y ∈ deliver st tM ↔ connected st y = true ∧ y ∈ room_members st r)
      | None =>
          tS = ToSocket sid ∧ eS = signal_error
          ∧ (∀ y, y ∈ deliver st tC ↔ connected st y = true)
          ∧ (∀ y, y ∈ deliver st tM ↔ connected st y = true ∧ y ≠ sid)
      end.
Proof.
  intros Hq HtoS HtoC Hty HtoM.
  unfold on_signal, route_signal, on_control, on_message.
  rewrite bool_decide_eq_false_2 by exact Hq.
  destruct (String.eqb_spec (or_else (c_type data) "message") "transcript");
    [contradiction |].
  rewrite HtoS, HtoC, HtoM. cbn [snd].
  assert (Hall : ∀ y, y ∈ deliver st ToAll ↔ connected st y = true).
  { intros y. apply elem_of_socket_ids. }
  assert (Hexc : ∀ y, y ∈ deliver st (ToAllExcept sid) ↔ connected st y = true ∧ y ≠ sid).
  { intros y. cbn [deliver]. rewrite list_elem_of_filter, elem_of_socket_ids. tauto. }
  destruct (d_roomId (data_of st sid)) as [r |] eqn:Hr; cbn [truthy or_else negb].
  - destruct (String.eqb_spec r "") as [-> | Hne]; cbn [negb].
    + do 6 eexists. split_and!; try reflexivity; assumption.
    + do 6 eexists. split_and!; try reflexivity.
      all: intros y; cbn [deliver]; rewrite list_elem_of_filter; tauto.
  - do 6 eexists. split_and!; try reflexivity; assumption.
Qed.

End Recipients.

(** The paired headset sends an unaddressed answer: the desktop, the other
    member of the pair room, is the only recipient. *)
Lemma unaddressed_relay_recipients_witness :
  ∃ tS eS, (Hub.on_signal Samples.paired "s1"
              (Hub.Object (Hub.mkSignal (Some "answer"%string) (Some "XR-1234"%string)
                                        None (Some "sdp"%string) None None))
              (Samples.at_ms 5000)).2 = [Hub.Emit tS eS]
           ∧ Hub.deliver Samples.paired tS = ["s2"%string].
Proof.
  destruct (unaddressed_relay_recipients Samples.paired "s1"
              (Hub.mkSignal (Some "answer"%string) (Some "XR-1234"%string)
                            None (Some "sdp"%string) None None)
              (Hub.mkControl (Some "mute"%string) None None None None)
              (Hub.mkChat None None None (Some "hello"%string) false false None)
              (Samples.at_ms 5000))
    as (tS & eS & tC & eC & tM & eM & HS & _); try discriminate; try reflexivity.
  exists tS, eS. split; [exact HS |].
  vm_compute in HS. injection HS as <- _. vm_compute. reflexivity.
Defined.

(** ** Medication names as matching keys *)

Section DrugKeys.
Import Js Drug.

Lemma lower_ascii_idem c : lower_ascii (lower_ascii c) = lower_ascii c.
Proof. destruct c as [[] [] [] [] [] [] [] []]; reflexivity. Qed.

Lemma removable_lower c : removable (lower_ascii c) = removable c.
Proof. destruct c as [[] [] [] [] [] [] [] []]; reflexivity. Qed.

Lemma toLowerCase_idem s : toLowerCase (toLowerCase s) = toLowerCase s.
Proof.
  induction s as [| c r IH]; cbn [toLowerCase]; [reflexivity |].
  rewrite lower_ascii_idem, IH. reflexivity.
Qed.

Lemma strip_lower s : strip (toLowerCase s) = toLowerCase (strip s).
Proof.
  induction s as [| c r IH]; cbn [strip toLowerCase]; [reflexivity |].
  rewrite removable_lower. destruct (removable c); cbn [toLowerCase]; congruence.
Qed.

Lemma strip_idem s : strip (strip s) = strip s.
Proof.
  induction s as [| c r IH]; cbn [strip]; [reflexivity |].
  destruct (removable c) eqn:E; [exact IH |]. cbn [strip]. rewrite E, IH. reflexivity.
Qed.

Lemma append_cons c r b : (String c r +:+ b = String c (r +:+ b))%string.
Proof. reflexivity. Qed.

Lemma strip_app a b : strip (a +:+ b) = (strip a +:+ strip b)%string.
Proof.
  induction a as [| c r IH]; [reflexivity |].
  rewrite append_cons. cbn [strip].
  destruct (removable c); [exact IH |]. rewrite append_cons, IH. reflexivity.
Qed.

Lemma toLowerCase_app a b : toLowerCase (a +:+ b) = (toLowerCase a +:+ toLowerCase b)%string.
Proof.
  induction a as [| c r IH]; [reflexivity |].
  rewrite append_cons. cbn [toLowerCase]. rewrite append_cons, IH. reflexivity.
Qed.

Lemma or_else_empty s : or_else (Some s) "" = s.
Proof. cbn. destruct (String.eqb_spec s ""); congruence. Qed.

(** X25. The medication matching key is a canonical form (on ASCII text):
    normalising a key changes nothing, the key contains neither a separator
    (blank, hyphen, slash, dot, comma, apostrophe, parenthesis) nor a
    capital letter, and two spellings that differ only in letter case or in
    separators have the same key. A missing name has the empty key. *)
Theorem normalizeTerm_canonical :
  (∀ s, normalizeTerm (Some (normalizeTerm s)) = normalizeTerm s)
  ∧ (∀ s, Forall (λ c, removable c = false ∧ lower_ascii c = c)
                 (list_ascii_of_string (normalizeTerm s)))
  ∧ (∀ s, normalizeTerm (Some (toLowerCase s)) = normalizeTerm (Some s))
  ∧ (∀ a b c, removable c = true →
       normalizeTerm (Some (a +:+ String c b)) = normalizeTerm (Some (a +:+ b)))
  ∧ normalizeTerm None = ""%string.
Proof.
  unfold normalizeTerm. split_and!.
  - intros s. rewrite or_else_empty, strip_lower, strip_idem, <- strip_lower, toLowerCase_idem.
    reflexivity.
  - intros s. induction (or_else s "") as [| c r IH]; cbn [toLowerCase strip]; [constructor |].
    destruct (removable (lower_ascii c)) eqn:E; [exact IH |].
    cbn [list_ascii_of_string]. constructor; [| exact IH].
    split; [exact E | apply lower_ascii_idem].
  - intros s. rewrite !or_else_empty, toLowerCase_idem. reflexivity.
  - intros a b c Hc. rewrite !or_else_empty, !toLowerCase_app, !strip_app.
    cbn [toLowerCase strip]. rewrite removable_lower, Hc. reflexivity.
  - reflexivity.
Qed.

End DrugKeys.

(** ** The environment check at start-up *)

Section EnvCheck.
Import Js Env.

Lemma elem_of_missing env k :
  k ∈ missing env ↔ k ∈ required ∧ set_and_not_blank env k = false.
Proof.
  unfold missing, checks, required.
  destruct (set_and_not_blank env "SESSION_SECRET") eqn:E1,
           (set_and_not_blank env "SUPERADMIN_EMAIL") eqn:E2,
           (set_and_not_blank env "SUPERADMIN_PASSWORD_BCRYPT") eqn:E3,
           (is_set env "DB_SERVER"), (is_set env "DB_NAME").
  all: vm_compute filter; cbn [map fst].
  all: rewrite ?elem_of_cons, ?elem_of_nil; split;
         [ intros H; repeat destruct H as [H | H]; subst; try contradiction; auto 10
         | intros [H1 H2]; repeat destruct H1 as [H1 | H1]; subst; try contradiction;
           try congruence; auto 10 ].
Qed.

Lemma has_text_spec (v : Text) :
  has_text v = true ↔ ∃ c, c ∈ v ∧ is_space c = false.
Proof.
  induction v as [| c r IH]; cbn [has_text].
  - split; [discriminate | intros (c & Hc & _); inversion Hc].
  - rewrite orb_true_iff, negb_true_iff, IH. split.
    + intros [Hc | (c' & Hc' & Hs)]; [exists c; split; [left | exact Hc] |].
      exists c'. split; [right; exact Hc' | exact Hs].
    + intros (c' & [-> | Hc']%elem_of_cons & Hs); eauto.
Qed.

(** X26. The start-up check reports a variable as missing exactly when it
    is one of the three required ones and is unset, empty or made of white
    space only, white space being what [trim()] removes (the no-break
    space, U+FEFF and the Unicode space and line separators included); the
    database variables are never reported. The exported [isReady] is true
    exactly when nothing is reported missing. *)
Theorem env_ready_iff_nothing_missing env :
  (isReady env = true ↔ missing env = [])
  ∧ (∀ k, k ∈ missing env ↔ k ∈ required ∧ set_and_not_blank env k = false)
  ∧ (∀ k, set_and_not_blank env k = true
          ↔ ∃ v c, env !! k = Some v ∧ c ∈ v ∧ is_space c = false)
  ∧ (∀ c, is_space c = true
          ↔ c ∈ [9; 10; 11; 12; 13; 32; 160; 5760; 8232; 8233; 8239; 8287; 12288; 65279]%N
            ∨ (8192 ≤ c ≤ 8202)%N).
Proof.
  split_and!.
  - unfold isReady, status, missing, checks. cbn [map_get String.eqb Ascii.eqb Bool.eqb default].
    destruct (set_and_not_blank env "SESSION_SECRET"),
             (set_and_not_blank env "SUPERADMIN_EMAIL"),
             (set_and_not_blank env "SUPERADMIN_PASSWORD_BCRYPT"),
             (is_set env "DB_SERVER"), (is_set env "DB_NAME").
    all: vm_compute; split; congruence.
  - apply elem_of_missing.
  - intros k. unfold set_and_not_blank, is_set. destruct (env !! k) as [[| c r] |]; cbn [default andb].
    + split; [discriminate | intros (v & c & [= <-] & Hc & _); inversion Hc].
    + rewrite has_text_spec. split.
      * intros (c' & Hc' & Hs). eauto.
      * intros (v & c' & [= <-] & Hc' & Hs). eauto.
    + split; [discriminate | intros (v & c & [=] & _)].
  - intros c. unfold is_space. rewrite existsb_exists. split.
    + intros (x & Hx & Heq). apply N.eqb_eq in Heq as <-.
      apply list_elem_of_In in Hx. rewrite !elem_of_cons, elem_of_nil in Hx.
      rewrite !elem_of_cons, elem_of_nil.
      repeat (destruct Hx as [-> | Hx]; [first [right; lia | auto 20] |]).
      contradiction.
    + intros [Hin | Hrange].
      * exists c. split; [| apply N.eqb_refl]. apply list_elem_of_In.
        rewrite !elem_of_cons, elem_of_nil in Hin. rewrite !elem_of_cons.
        repeat (destruct Hin as [-> | Hin]; [auto 30 |]). contradiction.
      * exists c. split; [| apply N.eqb_refl]. apply list_elem_of_In.
        rewrite !elem_of_cons.
        assert (c = 8192 ∨ c = 8193 ∨ c = 8194 ∨ c = 8195 ∨ c = 8196 ∨ c = 8197
                ∨ c = 8198 ∨ c = 8199 ∨ c = 8200 ∨ c = 8201 ∨ c = 8202)%N as Hc by lia.
        repeat (destruct Hc as [-> | Hc]; [auto 30 |]). subst. auto 30.
Qed.

(** X27. The .env file used is the first candidate that exists and that
    dotenv reads without error: a candidate that is absent, or present but
    unreadable, is passed over and the search goes on; no file is reported
    when no candidate qualifies. *)
Theorem first_loadable_env_file_wins (envCandidates : list Candidate) :
  match loadedFrom envCandidates with
  | Some p =>
      ∃ before c after,
        envCandidates = before ++ c :: after ∧ envPath c = p
        ∧ existsSync c = true ∧ loads c = true
        ∧ Forall (λ c', existsSync c' && loads c' = false) before
  | None => Forall (λ c', existsSync c' && loads c' = false) envCandidates
  end.
Proof.
  induction envCandidates as [| c rest IH]; cbn [loadedFrom]; [constructor |].
  destruct (existsSync c) eqn:Ee; [destruct (loads c) eqn:El |].
  - exists [], c, rest. split_and!; auto.
  - destruct (loadedFrom rest) as [p |].
    + destruct IH as (before & c' & after & -> & Hp & He & Hl & Hall).
      exists (c :: before), c', after. split_and!; auto.
      constructor; [rewrite Ee, El; reflexivity | exact Hall].
    + constructor; [rewrite Ee, El; reflexivity | exact IH].
  - destruct (loadedFrom rest) as [p |].
    + destruct IH as (before & c' & after & -> & Hp & He & Hl & Hall).
      exists (c :: before), c', after. split_and!; auto.
      constructor; [rewrite Ee; reflexivity | exact Hall].
    + constructor; [rewrite Ee; reflexivity | exact IH].
Qed.

End EnvCheck.

(** ** Pair rooms: what is reported, and what can change them *)

Section PairRooms.
Import Js Hub Props Facts.

Lemma split_no_bar s : has_bar s = false → split "|" s = [s].
Proof.
  induction s as [| c r IH]; cbn [has_bar split]; [reflexivity |].
  intros [Hc Hr]%orb_false_elim. rewrite Hc, (IH Hr). reflexivity.
Qed.

Lemma split_pair_key one two :
  has_bar one = false → has_bar two = false →
  split "|" (one +:+ "|" +:+ two) = [one; two].
Proof.
  intros Hone Htwo. induction one as [| c r IH].
  - change (split "|" (String "|" two) = [""%string; two]). cbn [split].
    rewrite Ascii.eqb_refl, (split_no_bar two Htwo). reflexivity.
  - cbn [has_bar] in Hone. apply orb_false_elim in Hone as [Hc Hr].
    change (split "|" (String c (r +:+ "|" +:+ two)) = [String c r; two]). cbn [split].
    rewrite Hc, (IH Hr). reflexivity.
Qed.

(** X28. [room_update] reports a pair only for a room whose name starts
    with pair: and that has at least two members, and it reports the first
    two members only, whatever their number; for identities that contain no
    bar the two are given in sorted order, whichever joined first. *)
Theorem collectPairs_reports_first_two_sorted st :
  Forall (λ ab,
            ∃ roomId m0 m1 others,
              String.prefix "pair:" roomId = true
              ∧ roomId ∈ map fst (adapterRooms st)
              ∧ listRoomMembers st roomId = m0 :: m1 :: others
              ∧ (has_bar m0 = false → has_bar m1 = false → ab = sort2 m0 m1))
         (collectPairs st).
Proof.
  apply Forall_forall. intros ab Hin. unfold collectPairs in Hin.
  apply list_elem_of_In, in_flat_map in Hin as ([roomId mem] & Hroom & Hin).
  destruct (String.prefix "pair:" roomId) eqn:Hp; [| inversion Hin].
  destruct (listRoomMembers st roomId) as [| m0 [| m1 rest]] eqn:Hm; try (inversion Hin; fail).
  destruct Hin as [<- | []].
  exists roomId, m0, m1, rest. split_and!; auto.
  - apply list_elem_of_fmap. exists (roomId, mem). split; [reflexivity |].
    apply list_elem_of_In, Hroom.
  - intros H0 H1. unfold normalizePair, sort2.
    destruct (String.ltb m1 m0); rewrite split_pair_key by assumption; reflexivity.
Qed.

Lemma room_members_socket_leave_ne st sid r r' :
  r' ≠ r → room_members (socket_leave sid r st) r' = room_members st r'.
Proof.
  intros Hne. unfold room_members, socket_leave. cbn [adapterRooms set_adapter].
  unfold adapter_del. destruct (map_get r (adapterRooms st)) as [mem |]; [| reflexivity].
  destruct (set_delete sid mem).
  - rewrite map_get_delete_ne by exact Hne. reflexivity.
  - rewrite map_get_set_ne by exact Hne. reflexivity.
Qed.

Lemma pair_room_not_own room x :
  String.prefix "pair:" room = true → room ≠ roomOf x ∧ room ≠ metricsRoom x.
Proof.
  intros H. split; intros ->; cbv in H; discriminate.
Qed.

(** X29. The membership of a pair room changes only through identify
    (auto-pairing), [pair_with] and the closing of a connection: [join],
    the metrics subscriptions and every other event, whatever identity or
    room name they carry, leave every pair room as it is. *)
Theorem pair_rooms_change_only_by_pairing st i o room :
  String.prefix "pair:" room = true →
  match i with
  | FromSocket _ (Identify _ _) | FromSocket _ (PairWith _) | FromSocket _ Disconnect => True
  | _ => room_members (step st i o).1 room = room_members st room
  end.
Proof.
  intros Hroom. destruct i as [sid | sid r | d | t]; cbn [step].
  - case_match; reflexivity.
  - destruct r; try exact I; case_match; try reflexivity; cbn [handle].
    + unfold on_join. cbn [fst].
      change (room_members (set_registry _ _ _ ?s) room) with (room_members s room).
      rewrite room_members_socket_join.
      destruct (String.eqb_spec room (roomOf xrId)) as [Heq | _]; [| reflexivity].
      destruct (pair_room_not_own room xrId Hroom) as [Hne _]. contradiction.
    + unfold on_metrics_subscribe. case_match; [reflexivity |]. cbn [fst].
      rewrite room_members_socket_join.
      destruct (String.eqb_spec room (metricsRoom (or_else xrId ""))) as [Heq | _];
        [| reflexivity].
      destruct (pair_room_not_own room (or_else xrId "") Hroom) as [_ Hne]. contradiction.
    + unfold on_metrics_unsubscribe. case_match; [reflexivity |]. cbn [fst].
      apply room_members_socket_leave_ne, (pair_room_not_own room _ Hroom).
    + unfold on_signal, intercept_quality. repeat case_match; reflexivity.
    + unfold on_control. repeat case_match; reflexivity.
    + unfold on_message. repeat case_match; reflexivity.
    + unfold on_battery. repeat case_match; reflexivity.
    + unfold on_telemetry. repeat case_match; reflexivity.
    + unfold on_webrtc_quality. repeat case_match; reflexivity.
  - unfold desktop_telemetry. case_match; reflexivity.
  - destruct t; reflexivity.
Qed.

End PairRooms.

(** A third connection joins under the headset's identity: the pair room
    keeps its two members. *)
Lemma pair_rooms_change_only_by_pairing_witness :
  Hub.room_members
    (Hub.step (Hub.step Samples.paired (Hub.Connection "s3") (Samples.at_ms 6000)).1
              (Hub.FromSocket "s3" (Hub.Join "XR-1234")) (Samples.at_ms 6000)).1
    Samples.pair_room
  = Hub.room_members (Hub.step Samples.paired (Hub.Connection "s3") (Samples.at_ms 6000)).1
                     Samples.pair_room.
Proof.
  exact (pair_rooms_change_only_by_pairing
           (Hub.step Samples.paired (Hub.Connection "s3") (Samples.at_ms 6000)).1
           (Hub.FromSocket "s3" (Hub.Join "XR-1234")) (Samples.at_ms 6000)
           Samples.pair_room eq_refl).
Defined.
